(** * CDM dashboard: country resolution, filtering and aggregation

    A shallow embedding of [streamlit_app.py]: the token-to-ISO3 resolver
    ([token_to_iso3], [split_countries]), the filter pipeline
    ([apply_filters]), the geographic expansion ([make_exploded_for_geo])
    and the KPI block of the page script.

    Conventions of the embedding.
    - Python text is a [string] of bytes; the character classes used by
      [str.strip], [str.lower], [str.upper] and [str.isalpha] are the ASCII
      ones, bytes above 127 are left alone and are neither letters nor
      white space. Python's classes are wider outside ASCII (a no-break
      space is white space to [str.strip]), so a statement that fixes what
      these operations give is made for ASCII text ([Py.isascii]).
    - A raised exception is the left injection of [Result]; [try_except]
      is Python's [try: ... except Exception: ...].
    - The libraries the program calls (pycountry's country database, the
      regular-expression engine behind [Series.str.contains], the number
      parser behind [pd.to_numeric], the text rendering of a number, what
      [astype(str)] makes of a missing cell) are parameters of the
      sections below, used through the interface the program relies on. *)

From Stdlib Require Import Ascii String DecimalString QArith.
From stdpp Require Import base option list strings gmap fin_maps.

Local Open Scope string_scope.
Local Open Scope list_scope.

(** ** Exceptions *)

Inductive exn : Type :=
  | KeyError (key : string)
  | LookupError (value : string)
  | ReError (pattern : string)
  | OtherError (msg : string).

Definition Result (A : Type) : Type := (exn + A)%type.

Definition ok {A} (x : A) : Result A := inr x.
Definition raise {A} (e : exn) : Result A := inl e.

Definition rbind {A B} (m : Result A) (k : A -> Result B) : Result B :=
  match m with
  | inl e => inl e
  | inr x => k x
  end.

Notation "'do' x <- m ; k" := (rbind m (fun x => k))
  (at level 10, x name, m at level 100, k at level 200).

(** [try: body  except Exception: handler]. *)
Definition try_except {A} (body : Result A) (handler : exn -> Result A) : Result A :=
  match body with
  | inl e => handler e
  | inr x => inr x
  end.

(** ** Python text operations (ASCII character classes) *)

Module Py.

Definition code (a : ascii) : N := N_of_ascii a.

Definition is_upper (a : ascii) : bool := ((65 <=? code a) && (code a <=? 90))%N.
Definition is_lower (a : ascii) : bool := ((97 <=? code a) && (code a <=? 122))%N.
Definition is_alpha (a : ascii) : bool := is_upper a || is_lower a.

(** White space of [str.strip()]: tab, line feed, vertical tab, form feed,
    carriage return, the four separators 28..31 and the space. *)
Definition is_space (a : ascii) : bool :=
  (((9 <=? code a) && (code a <=? 13)) || ((28 <=? code a) && (code a <=? 32)))%N.

Definition lower_char (a : ascii) : ascii :=
  if is_upper a then ascii_of_N (code a + 32) else a.
Definition upper_char (a : ascii) : ascii :=
  if is_lower a then ascii_of_N (code a - 32) else a.

Fixpoint map_chars (f : ascii -> ascii) (s : string) : string :=
  match s with
  | EmptyString => EmptyString
  | String a s' => String (f a) (map_chars f s')
  end.

Definition lower (s : string) : string := map_chars lower_char s.
Definition upper (s : string) : string := map_chars upper_char s.

Fixpoint all_chars (p : ascii -> bool) (s : string) : bool :=
  match s with
  | EmptyString => true
  | String a s' => p a && all_chars p s'
  end.

(** [s.isalpha()]: at least one character and all of them letters. *)
Definition isalpha (s : string) : bool :=
  match s with
  | EmptyString => false
  | _ => all_chars is_alpha s
  end.

(** [s.isascii()]: every character is below 128. *)
Definition isascii (s : string) : bool :=
  all_chars (fun a => (code a <? 128)%N) s.

Fixpoint lstrip (s : string) : string :=
  match s with
  | EmptyString => EmptyString
  | String a s' => if is_space a then lstrip s' else s
  end.

Fixpoint rstrip (s : string) : string :=
  match s with
  | EmptyString => EmptyString
  | String a s' =>
      match rstrip s' with
      | EmptyString => if is_space a then EmptyString else String a EmptyString
      | r => String a r
      end
  end.

Definition strip (s : string) : string := rstrip (lstrip s).

(** [sep in s] for a one-character [sep]. *)
Fixpoint has_char (sep : ascii) (s : string) : bool :=
  match s with
  | EmptyString => false
  | String a s' => if Ascii.eqb a sep then true else has_char sep s'
  end.

(** [s.split(sep)] for a one-character [sep]: never the empty list. *)
Fixpoint split (sep : ascii) (s : string) : list string :=
  match s with
  | EmptyString => [EmptyString]
  | String a s' =>
      if Ascii.eqb a sep then EmptyString :: split sep s'
      else match split sep s' with
           | [] => [String a EmptyString]
           | piece :: rest => String a piece :: rest
           end
  end.

(** [q in s] on text: [q] occurs in [s] as a contiguous run. *)
Fixpoint has_sub (q s : string) : bool :=
  String.prefix q s ||
  match s with
  | EmptyString => false
  | String _ s' => has_sub q s'
  end.

End Py.

(** ** The country database (pycountry)

    The program reaches the database through three calls:
    [pycountry.countries.get(alpha_2=v)] and [get(alpha_3=v)], which
    answer a record or [None], and [pycountry.countries.lookup(v)], which
    answers a record or raises. *)

Record Country : Type := mkCountry {
  alpha_2 : string;
  alpha_3 : string;
  name : string
}.

Record CountryDB : Type := mkCountryDB {
  db_records : list Country;
  get_alpha_2 : string -> option Country;
  get_alpha_3 : string -> option Country;
  db_lookup : string -> Result Country
}.

(** Every record the three calls hand out is a record of the database. *)
Definition db_answers_from_records (db : CountryDB) : Prop :=
  (forall v c, get_alpha_2 db v = Some c -> c ∈ db_records db) /\
  (forall v c, get_alpha_3 db v = Some c -> c ∈ db_records db) /\
  (forall v c, db_lookup db v = inr c -> c ∈ db_records db).

(** A three-letter code is valid when a record of the database carries it. *)
Definition valid_iso3 (db : CountryDB) (code3 : string) : Prop :=
  exists c, c ∈ db_records db /\ alpha_3 c = code3.

(** ** Helpers of the program *)

Definition SPECIAL_ISO3 : list (string * string) :=
  [ ("Republic of Korea", "KOR");
    ("Korea, Republic of", "KOR");
    ("Viet Nam", "VNM");
    ("Iran", "IRN");
    ("Iran (Islamic Republic of)", "IRN");
    ("Lao PDR", "LAO");
    ("Democratic Republic of the Congo", "COD");
    ("Congo, The Democratic Republic of the", "COD");
    ("Cote d'Ivoire", "CIV");
    ("Côte d’Ivoire", "CIV") ].

(** [d[k]] / [k in d] on a dict literal written as its list of items. *)
Fixpoint dict_get (d : list (string * string)) (k : string) : option string :=
  match d with
  | [] => None
  | (k', v) :: d' => if String.eqb k k' then Some v else dict_get d' k
  end.

(** [x in (a, b, c)] on text. *)
Definition in_tuple (x : string) (t : list string) : bool :=
  existsb (String.eqb x) t.

Section Resolver.

Variable db : CountryDB.

Definition token_to_iso3 (tok : string) : Result (option string) :=
  let tok := Py.strip tok in
  if in_tuple (Py.lower tok) ["multiple"; ""; "nan"] then ok None
  else match dict_get SPECIAL_ISO3 tok with
  | Some code3 => ok (Some code3)
  | None =>
      if (String.length tok =? 2)%nat && Py.isalpha tok then
        let c := get_alpha_2 db (Py.upper tok) in
        ok (match c with Some c => Some (alpha_3 c) | None => None end)
      else if (String.length tok =? 3)%nat && Py.isalpha tok then
        let c := get_alpha_3 db (Py.upper tok) in
        ok (match c with Some c => Some (alpha_3 c) | None => None end)
      else
        try_except
          (do c <- db_lookup db tok; ok (Some (alpha_3 c)))
          (fun _ => ok None)
  end.

End Resolver.

(** ** Tables

    A cell of the loaded sheet is text, a number or missing ([NaN] and
    [None] alike; dates are not modelled); a record maps column names to
    cells; a table has its column names and its records in order. The
    column names of a table are distinct: a record has one cell per
    name. *)

Inductive Cell : Type :=
  | CStr (s : string)
  | CNum (q : Q)
  | CNaN.

Record DataFrame : Type := mkDataFrame {
  columns : list string;
  rows : list (gmap string Cell)
}.

(** The cell of a record under a column; a record without the key has a
    missing cell there. *)
Definition row_get (r : gmap string Cell) (col : string) : Cell :=
  default CNaN (r !! col).

Definition has_column (df : DataFrame) (col : string) : bool :=
  bool_decide (col ∈ columns df).

(** [df[col]]: the column as a series, [KeyError] when there is none. *)
Definition getitem (df : DataFrame) (col : string) : Result (list Cell) :=
  if has_column df col then ok (map (fun r => row_get r col) (rows df))
  else raise (KeyError col).

(** [df[mask]]: the records whose position carries [True] in the mask. *)
Fixpoint select_rows {A} (l : list A) (mask : list bool) : list A :=
  match l, mask with
  | x :: l', b :: mask' => if b then x :: select_rows l' mask' else select_rows l' mask'
  | _, _ => []
  end.

Definition boolean_index (df : DataFrame) (mask : list bool) : DataFrame :=
  {| columns := columns df; rows := select_rows (rows df) mask |}.

(** [df[col] = series]: the column is replaced, or added last. *)
Fixpoint assign_cells (l : list (gmap string Cell)) (col : string) (series : list Cell)
  : list (gmap string Cell) :=
  match l, series with
  | r :: l', c :: series' => <[col := c]> r :: assign_cells l' col series'
  | _, _ => []
  end.

Definition setitem (df : DataFrame) (col : string) (series : list Cell) : DataFrame :=
  {| columns := if has_column df col then columns df else columns df ++ [col];
     rows := assign_cells (rows df) col series |}.

Definition isna (c : Cell) : bool :=
  match c with
  | CNaN => true
  | _ => false
  end.

Definition notna (c : Cell) : bool := negb (isna c).

(** Equality of two cells as [Series.isin] sees it: text with text, numbers
    by value, missing with missing. *)
Definition cell_eqb (a b : Cell) : bool :=
  match a, b with
  | CStr s, CStr t => String.eqb s t
  | CNum p, CNum q => Qeq_bool p q
  | CNaN, CNaN => true
  | _, _ => false
  end.

Definition isin_cell (selected : list Cell) (c : Cell) : bool :=
  existsb (cell_eqb c) selected.

(** [series.isin(selected)] *)
Definition isin (series : list Cell) (selected : list Cell) : list bool :=
  map (isin_cell selected) series.

Definition is_text (c : Cell) : bool :=
  match c with
  | CStr _ => true
  | _ => false
  end.

Definition is_number (c : Cell) : bool :=
  match c with
  | CNum _ => true
  | _ => false
  end.

(** The cells of a table under a column, record by record. *)
Definition column_cells (df : DataFrame) (col : string) : list Cell :=
  map (fun r => row_get r col) (rows df).

(** ** The options of a categorical widget

    [sorted([x for x in df[col].dropna().unique().tolist()])] in
    [multiselect]. *)

(** [series.dropna()] *)
Definition dropna (series : list Cell) : list Cell := List.filter notna series.

(** [series.unique()]: every value once, where it first occurs. *)
Fixpoint unique_from (seen : list Cell) (series : list Cell) : list Cell :=
  match series with
  | [] => []
  | c :: series' =>
      if isin_cell seen c then unique_from seen series'
      else c :: unique_from (c :: seen) series'
  end.

Definition unique (series : list Cell) : list Cell := unique_from [] series.

(** [not (b < a)] between two values of a list being sorted: texts are
    compared character by character, numbers by value, and a text cannot
    be compared with a number. *)
Definition py_le (a b : Cell) : Result bool :=
  match a, b with
  | CStr s, CStr t => ok (String.leb s t)
  | CNum p, CNum q => ok (Qle_bool p q)
  | CNaN, _ | _, CNaN => ok false
  | _, _ => raise (OtherError "TypeError: '<' not supported between 'str' and 'float'")
  end.

(** [sorted(l)]: a stable sort by the comparisons of [py_le]; the first
    comparison that raises ends it. *)
Fixpoint insert_sorted (x : Cell) (l : list Cell) : Result (list Cell) :=
  match l with
  | [] => ok [x]
  | y :: l' =>
      do le <- py_le x y;
      if le then ok (x :: y :: l')
      else do rest <- insert_sorted x l'; ok (y :: rest)
  end.

Fixpoint sorted (l : list Cell) : Result (list Cell) :=
  match l with
  | [] => ok []
  | x :: l' => do acc <- sorted l'; insert_sorted x acc
  end.

(** The options [multiselect(col, label)] hands to the widget: none
    without the column. *)
Definition multiselect_opts (df : DataFrame) (col : string) : Result (option (list Cell)) :=
  if negb (has_column df col) then ok None
  else
    do s <- getitem df col;
    do opts <- sorted (unique (dropna s));
    ok (Some opts).

Definition type_error : exn :=
  OtherError "TypeError: '<' not supported between 'str' and 'float'".

(** ** The libraries behind the table operations

    - [num_repr]: the text of a number, as [str] and [astype(str)] give it;
    - [re_compile_ignorecase]: compiling a pattern with [re.IGNORECASE],
      which raises on a malformed pattern and otherwise answers the test
      "the pattern matches somewhere in this text";
    - [to_number]: the number a text stands for, [None] when it stands for
      none ([pd.to_numeric] with [errors="coerce"]);
    - [astype_str_keeps_na]: whether [astype(str)] leaves a missing cell
      missing (pandas from 3.0 on) or turns it into the text "nan"
      (pandas before 3.0); the program does not say which pandas it runs
      on.
    Numbers are rationals: rounding of floating-point sums is not modelled. *)

Record Libs : Type := mkLibs {
  countries : CountryDB;
  num_repr : Q -> string;
  re_compile_ignorecase : string -> Result (string -> bool);
  to_number : string -> option Q;
  astype_str_keeps_na : bool
}.

(** The characters with a meaning of their own in a pattern. *)
Definition re_special : list ascii :=
  list_ascii_of_string ".^$*+?{}[]\|()".

Definition is_plain_pattern (q : string) : bool :=
  Py.all_chars (fun a => negb (existsb (Ascii.eqb a) re_special)) q.

(** Containment of [q] in [s] up to the case of letters. *)
Definition contains_nocase (q s : string) : bool :=
  Py.has_sub (Py.lower q) (Py.lower s).

(** An ASCII pattern without special characters compiles, and among the
    ASCII texts it matches exactly those that contain it, up to the case
    of the letters A to Z. Nothing is said of a text or a pattern with
    characters outside ASCII, where the engine folds case its own way. *)
Definition re_plain_law (L : Libs) : Prop :=
  forall q, is_plain_pattern q = true -> Py.isascii q = true ->
    exists m, re_compile_ignorecase L q = inr m /\
              forall s, Py.isascii s = true -> m s = contains_nocase q s.

Section Engine.

Variable L : Libs.

(** [str(val)] on one cell. A missing cell becomes the text "nan";
    [token_to_iso3] counts on it when it drops the token "nan". *)
Definition cell_str (c : Cell) : string :=
  match c with
  | CStr s => s
  | CNum q => num_repr L q
  | CNaN => "nan"
  end.

(** [astype(str)] on one cell: the text of a text or of a number; a
    missing cell stays missing or becomes the text "nan", as the library
    has it. *)
Definition cell_astype_str (c : Cell) : Cell :=
  match c with
  | CNaN => if astype_str_keeps_na L then CNaN else CStr "nan"
  | _ => CStr (cell_str c)
  end.

(** [series.astype(str)] *)
Definition astype_str (series : list Cell) : list Cell :=
  map cell_astype_str series.

(** [series.str.lower()], [series.str.strip()]: text cells are mapped,
    any other cell becomes missing. *)
Definition str_map (f : string -> string) (series : list Cell) : list Cell :=
  map (fun c => match c with CStr s => CStr (f s) | _ => CNaN end) series.

(** [series.str.contains(q, case=False, na=False)]: the pattern is compiled
    first; a cell that is not text answers the [na] value. *)
Definition str_contains (series : list Cell) (q : string) (na : bool) : Result (list bool) :=
  do m <- re_compile_ignorecase L q;
  ok (map (fun c => match c with CStr s => m s | _ => na end) series).

(** *** The sidebar

    What the user entered in the widgets, by widget label. *)
Record Sidebar : Type := mkSidebar {
  multiselect_value : string -> list Cell;
  text_input_value : string -> string
}.

(** [multiselect(col, label)] of [apply_filters]: no widget and [None] for
    a column the table does not have; else the options are made, which
    raises when the values of the column cannot be sorted, and the widget
    answers the values the user picked. *)
Definition multiselect (ui : Sidebar) (df : DataFrame) (col label : string)
  : Result (option (list Cell)) :=
  if negb (has_column df col) then ok None
  else
    do s <- getitem df col;
    do opts <- sorted (unique (dropna s));
    ok (Some (multiselect_value ui label)).

(** Truth value of [selected]: [None] and the empty list are false. *)
Definition truthy (selected : option (list Cell)) : bool :=
  match selected with
  | Some (_ :: _) => true
  | _ => false
  end.

(** [filt(col, selected)], the variable [out] passed in and out. *)
Definition filt (col : string) (selected : option (list Cell)) (out : DataFrame)
  : Result DataFrame :=
  if truthy selected && has_column out col then
    do s <- getitem out col;
    ok (boolean_index out (isin s (default [] selected)))
  else ok out.

Definition apply_filters (ui : Sidebar) (df : DataFrame) : Result DataFrame :=
  do f_region <- multiselect ui df "Region" "Region";
  do f_subregion <- multiselect ui df "Sub-region" "Sub-region";
  do f_host <- multiselect ui df "Host country" "Host Party";
  do f_type <- multiselect ui df "Type" "Activity Type (Type)";
  do f_type1 <- multiselect ui df "Type.1" "Tech Type (Type.1)";
  do f_transition <- multiselect ui df "Transition Request" "Transition Request";
  do f_method <-
    multiselect ui df "Methodology after transition" "Methodology after transition";
  do f_approved <- multiselect ui df "Approved by Host Party" "Approved by Host Party";
  let out := df in
  do out <- filt "Region" f_region out;
  do out <- filt "Sub-region" f_subregion out;
  do out <- filt "Host country" f_host out;
  do out <- filt "Type" f_type out;
  do out <- filt "Type.1" f_type1 out;
  do out <- filt "Transition Request" f_transition out;
  do out <- filt "Methodology after transition" f_method out;
  do out <- filt "Approved by Host Party" f_approved out;
  if has_column out "Title" then
    let q := text_input_value ui "Search in Title" in
    if negb (String.eqb q "") then
      do s <- getitem out "Title";
      do mask <- str_contains (astype_str s) q false;
      ok (boolean_index out mask)
    else ok out
  else ok out.

(** [split_countries(val)] *)
Definition split_countries (val : Cell) : list string :=
  if isna val then []
  else
    let s := cell_str val in
    if Py.has_char ";" s then
      let toks := map Py.strip (Py.split ";" s) in
      List.filter (fun t => negb (String.eqb t "") &&
                            negb (String.eqb (Py.lower t) "multiple")) toks
    else [Py.strip s].

(** [series.apply(f)]: [f] on every cell in turn; the first exception
    ends the call. *)
Fixpoint apply_series {A} (f : Cell -> Result A) (series : list Cell) : Result (list A) :=
  match series with
  | [] => ok []
  | c :: series' =>
      do v <- f c;
      do vs <- apply_series f series';
      ok (v :: vs)
  end.

(** What [token_to_iso3] hands back, as a cell: a text or [None]. *)
Definition cell_of_code (r : option string) : Cell :=
  match r with
  | Some code3 => CStr code3
  | None => CNaN
  end.

(** [token_to_iso3] as [Series.apply] calls it; the function starts by
    taking the text of its argument. *)
Definition token_to_iso3_cell (c : Cell) : Result Cell :=
  do r <- token_to_iso3 (countries L) (cell_str c);
  ok (cell_of_code r).

(** [df.explode(col)] of a table whose column [col] holds the lists
    [lists]: one record per item, one record with a missing cell for an
    empty list. *)
Definition explode_record (col : string) (r : gmap string Cell) (items : list string)
  : list (gmap string Cell) :=
  match items with
  | [] => [<[col := CNaN]> r]
  | _ => map (fun t => <[col := CStr t]> r) items
  end.

Fixpoint explode_rows (col : string) (l : list (gmap string Cell))
  (lists : list (list string)) : list (gmap string Cell) :=
  match l, lists with
  | r :: l', items :: lists' => explode_record col r items ++ explode_rows col l' lists'
  | _, _ => []
  end.

Definition explode_lists (df : DataFrame) (col : string) (lists : list (list string))
  : DataFrame :=
  {| columns := if has_column df col then columns df else columns df ++ [col];
     rows := explode_rows col (rows df) lists |}.

(** *** Table objects

    [make_exploded_for_geo] assigns columns to a table in place, so the
    tables of the page script are objects of a store, named by their
    position in it. Between the assignment of the column of token lists
    and [explode], the object is a table with a column of lists. *)

Inductive PyObj : Type :=
  | Frame (df : DataFrame)
  | FrameOfLists (df : DataFrame) (col : string) (lists : list (list string)).

Definition Store : Type := list PyObj.

Definition M (A : Type) : Type := Store -> Result (A * Store).

Definition ret {A} (x : A) : M A := fun s => ok (x, s).

Definition bind {A B} (m : M A) (k : A -> M B) : M B :=
  fun s =>
    match m s with
    | inl e => inl e
    | inr (x, s') => k x s'
    end.

Definition lift {A} (r : Result A) : M A :=
  fun s =>
    match r with
    | inl e => inl e
    | inr x => ok (x, s)
    end.

Notation "'run' x <- m ; k" := (bind m (fun x => k))
  (at level 10, x name, m at level 100, k at level 200).
Notation "'exec' m ; k" := (bind m (fun _ => k))
  (at level 10, m at level 100, k at level 200).

Definition alloc (o : PyObj) : M nat :=
  fun s => ok (length s, s ++ [o]).

Definition load (p : nat) : M PyObj :=
  fun s =>
    match s !! p with
    | Some o => ok (o, s)
    | None => raise (OtherError "no such object")
    end.

Definition store (p : nat) (o : PyObj) : M unit :=
  fun s => ok (tt, <[p := o]> s).

Definition load_frame (p : nat) : M DataFrame :=
  run o <- load p;
  match o with
  | Frame df => ret df
  | FrameOfLists _ _ _ => lift (raise (OtherError "column of lists"))
  end.

(** [df.copy()] *)
Definition frame_copy (p : nat) : M nat :=
  run o <- load p; alloc o.

(** [df[col]] *)
Definition frame_getitem (p : nat) (col : string) : M (list Cell) :=
  run df <- load_frame p; lift (getitem df col).

(** [df[col] = series], in place *)
Definition frame_setitem (p : nat) (col : string) (series : list Cell) : M unit :=
  run df <- load_frame p; store p (Frame (setitem df col series)).

(** [df[col] = series] for a series of lists, in place *)
Definition frame_setitem_lists (p : nat) (col : string) (lists : list (list string))
  : M unit :=
  run df <- load_frame p; store p (FrameOfLists df col lists).

(** [df.explode(col)]: a new table *)
Definition frame_explode (p : nat) (col : string) : M nat :=
  run o <- load p;
  match o with
  | FrameOfLists df c lists =>
      if String.eqb c col then alloc (Frame (explode_lists df col lists))
      else if has_column df col then alloc o
      else lift (raise (KeyError col))
  | Frame df =>
      if has_column df col then alloc o else lift (raise (KeyError col))
  end.

(** [df[mask]]: a new table *)
Definition frame_boolean_index (p : nat) (mask : list bool) : M nat :=
  run df <- load_frame p; alloc (Frame (boolean_index df mask)).

Definition make_exploded_for_geo (df_filtered : nat) : M nat :=
  run ex <- frame_copy df_filtered;
  run s <- frame_getitem ex "Host country";
  exec frame_setitem_lists ex "host_token" (map split_countries s);
  run ex <- frame_explode ex "host_token";
  run s <- frame_getitem ex "host_token";
  exec frame_setitem ex "country_clean" (str_map Py.strip (astype_str s));
  run s <- frame_getitem ex "country_clean";
  run iso3 <- lift (apply_series token_to_iso3_cell s);
  exec frame_setitem ex "iso3" iso3;
  run s <- frame_getitem ex "iso3";
  run ex <- frame_boolean_index ex (map notna s);
  ret ex.

(** *** The page script: KPIs, map data and detail table *)

(** [series == text], cell by cell *)
Definition eq_text (series : list Cell) (v : string) : list bool :=
  map (fun c => match c with CStr s => String.eqb s v | _ => false end) series.

(** [mask.sum()]: the number of [True] *)
Definition count_true (mask : list bool) : nat :=
  List.length (List.filter (fun b => b) mask).

(** [pd.to_numeric(series, errors="coerce")]: [None] is the missing number *)
Definition to_numeric (series : list Cell) : list (option Q) :=
  map (fun c => match c with
                | CStr s => to_number L s
                | CNum q => Some q
                | CNaN => None
                end) series.

(** [series.fillna(0)] *)
Definition fillna (v : Q) (series : list (option Q)) : list Q :=
  map (default v) series.

(** [series.sum()] *)
Definition series_sum (series : list Q) : Q :=
  fold_left Qplus series 0%Q.

(** [df.groupby(col).size()]: the number of records under each value of
    the column, missing values left out. The column grouped here is the
    one [token_to_iso3] filled, whose cells are texts or missing. *)
Definition count_key (m : gmap string nat) (c : Cell) : gmap string nat :=
  match c with
  | CStr k => <[k := S (default 0%nat (m !! k))]> m
  | _ => m
  end.

Definition groupby_size (df : DataFrame) (col : string) : Result (gmap string nat) :=
  do s <- getitem df col;
  ok (fold_left count_key s ∅).

Definition cols_prefer : list string :=
  [ "Region"; "Sub-region"; "Host country"; "Title"; "Type"; "Type.1";
    "Reductions (ktCO2e/yr)";
    "A6 relevant period from"; "A6 relevant period to";
    String.concat "" ["A6 relevant period "; String "010" ""; "(in years)"];
    "Transition Request"; "Methodology after transition";
    "Sectoral Sope"; "Approved by Host Party"; "Approval Date" ].

(** [df[cols]] for a list of columns of the table *)
Definition getitem_columns (df : DataFrame) (cols : list string) : DataFrame :=
  {| columns := cols;
     rows := map (fun r => filter (fun kv => kv.1 ∈ cols) r) (rows df) |}.

Record Page : Type := mkPage {
  total_selected : nat;
  requested_transition : nat;
  approved_yes : nat;
  reductions_sum : Q;
  geo_counts : gmap string nat;
  details : DataFrame
}.

(** The script from [df_f = apply_filters(df)] on, [df] being the loaded
    table. [apply_filters] builds its result from a copy of [df] and
    assigns nothing in place: its result is a new object. The data of
    the bar chart are modelled apart; the calls that draw are left out. *)
Definition page (ui : Sidebar) (df : nat) : M Page :=
  run t <- load_frame df;
  run out <- lift (apply_filters ui t);
  run df_f <- alloc (Frame out);
  run f <- load_frame df_f;
  let total_selected := List.length (rows f) in
  run requested_transition <-
    (if has_column f "Transition Request" then
       run s <- frame_getitem df_f "Transition Request";
       ret (count_true (eq_text (str_map Py.lower (astype_str s)) "yes"))
     else ret 0%nat);
  run approved_yes <-
    (if has_column f "Approved by Host Party" then
       run s <- frame_getitem df_f "Approved by Host Party";
       ret (count_true (eq_text (str_map Py.lower (astype_str s)) "yes"))
     else ret 0%nat);
  run reductions_sum <-
    (if has_column f "Reductions (ktCO2e/yr)" then
       run s <- frame_getitem df_f "Reductions (ktCO2e/yr)";
       ret (series_sum (fillna 0%Q (to_numeric s)))
     else ret 0%Q);
  run ex <- make_exploded_for_geo df_f;
  run e <- load_frame ex;
  run geo_counts <- lift (groupby_size e "iso3");
  run f <- load_frame df_f;
  let cols_show := List.filter (has_column f) cols_prefer in
  let cols_show := match cols_show with [] => columns f | _ => cols_show end in
  ret {| total_selected := total_selected;
         requested_transition := requested_transition;
         approved_yes := approved_yes;
         reductions_sum := reductions_sum;
         geo_counts := geo_counts;
         details := getitem_columns f cols_show |}.

End Engine.

(** The first test of [token_to_iso3], on the stripped token. *)
Definition skipped (tok : string) : bool :=
  in_tuple (Py.lower tok) ["multiple"; ""; "nan"].

Definition looks_like_code (n : nat) (tok : string) : bool :=
  (String.length tok =? n)%nat && Py.isalpha tok.

(** The tokens that get as far as the lookup by name. *)
Definition reaches_name_lookup (tok : string) : bool :=
  negb (skipped tok) &&
  match dict_get SPECIAL_ISO3 tok with Some _ => false | None => true end &&
  negb (looks_like_code 2 tok) && negb (looks_like_code 3 tok).

(** ** A small instance of the libraries

    An excerpt of the ISO 3166-1 table with the access functions of the
    database over it, used to run the program on concrete inputs. *)

Module Sample.

Definition iso_records : list Country :=
  [ mkCountry "ID" "IDN" "Indonesia";
    mkCountry "CL" "CHL" "Chile";
    mkCountry "EG" "EGY" "Egypt";
    mkCountry "VN" "VNM" "Viet Nam";
    mkCountry "KR" "KOR" "Korea, Republic of";
    mkCountry "IR" "IRN" "Iran, Islamic Republic of";
    mkCountry "LA" "LAO" "Lao People's Democratic Republic";
    mkCountry "CD" "COD" "Congo, The Democratic Republic of the";
    mkCountry "CI" "CIV" "Côte d'Ivoire" ].

Definition same_nocase (a b : string) : bool :=
  String.eqb (Py.lower a) (Py.lower b).

Definition by_field (field : Country -> string) (v : string) : option Country :=
  List.find (fun c => same_nocase (field c) v) iso_records.

Definition lookup_any (v : string) : Result Country :=
  match List.find (fun c => same_nocase (alpha_2 c) v || same_nocase (alpha_3 c) v
                            || same_nocase (name c) v) iso_records with
  | Some c => ok c
  | None => raise (LookupError v)
  end.

Definition db : CountryDB :=
  {| db_records := iso_records;
     get_alpha_2 := by_field alpha_2;
     get_alpha_3 := by_field alpha_3;
     db_lookup := lookup_any |}.

(** Patterns made of plain characters and of the wildcard [.], which
    stands for any character but a line feed; any other pattern is
    declined. Letters match up to case. *)
Definition plain_or_dot (q : string) : bool :=
  Py.all_chars (fun a => Ascii.eqb a "." || negb (existsb (Ascii.eqb a) re_special)) q.

Fixpoint match_here (pat s : string) : bool :=
  match pat with
  | EmptyString => true
  | String p pat' =>
      match s with
      | EmptyString => false
      | String a s' =>
          (if Ascii.eqb p "." then negb (Ascii.eqb a "010")
           else Ascii.eqb (Py.lower_char p) (Py.lower_char a))
          && match_here pat' s'
      end
  end.

Fixpoint search (pat s : string) : bool :=
  match_here pat s ||
  match s with
  | EmptyString => false
  | String _ s' => search pat s'
  end.

Definition compile (q : string) : Result (string -> bool) :=
  if plain_or_dot q then ok (search q) else raise (ReError q).

(** Decimal numerals: an optional sign, digits, and an optional point
    followed by digits, with at least one digit in all. *)
Definition digit_value (a : ascii) : option N :=
  if ((48 <=? Py.code a) && (Py.code a <=? 57))%N then Some (Py.code a - 48)%N else None.

Fixpoint digits_value (s : string) (acc : N) : option N :=
  match s with
  | EmptyString => Some acc
  | String a s' =>
      match digit_value a with
      | Some d => digits_value s' (10 * acc + d)%N
      | None => None
      end
  end.

Definition unsigned_decimal (body : string) : option Q :=
  match Py.split "." body with
  | [i] =>
      if String.eqb i "" then None
      else n ← digits_value i 0; Some (Z.of_N n # 1)
  | [i; f] =>
      if String.eqb i "" && String.eqb f "" then None
      else n ← digits_value (i +:+ f) 0;
           Some (Z.of_N n # Z.to_pos (10 ^ Z.of_nat (String.length f)))
  | _ => None
  end.

Definition decimal (s : string) : option Q :=
  match Py.strip s with
  | String "-" body => Qopp <$> unsigned_decimal body
  | String "+" body => unsigned_decimal body
  | body => unsigned_decimal body
  end.

(** The text of a number: sign, integer part, point, and up to seventeen
    decimals without trailing zeros (at least one decimal). *)
Fixpoint decimals (fuel : nat) (r d : N) : string :=
  match fuel with
  | O => EmptyString
  | S fuel' =>
      if (r =? 0)%N then EmptyString
      else String (ascii_of_N (48 + (10 * r) / d)) (decimals fuel' ((10 * r) mod d) d)
  end.

Definition number_text (q : Q) : string :=
  let n := Z.abs_N (Qnum q) in
  let d := Npos (Qden q) in
  let frac := decimals 17 (n mod d) d in
  (if (Qnum q <? 0)%Z then "-" else "") +:+
  NilZero.string_of_uint (N.to_uint (n / d)) +:+ "." +:+
  (if String.eqb frac "" then "0" else frac).

(** The libraries with pandas before 3.0, and with pandas 3. *)
Definition libs : Libs :=
  {| countries := db;
     num_repr := number_text;
     re_compile_ignorecase := compile;
     to_number := decimal;
     astype_str_keeps_na := false |}.


End Sample.


(** ** Vocabulary of the statements about the filter *)

(** The records of a table that satisfy a test, columns unchanged. *)
Definition keep_rows (p : gmap string Cell -> bool) (df : DataFrame) : DataFrame :=
  {| columns := columns df; rows := List.filter p (rows df) |}.

(** The eight categorical filters: column and widget label. *)
Definition categorical : list (string * string) :=
  [ ("Region", "Region");
    ("Sub-region", "Sub-region");
    ("Host country", "Host Party");
    ("Type", "Activity Type (Type)");
    ("Type.1", "Tech Type (Type.1)");
    ("Transition Request", "Transition Request");
    ("Methodology after transition", "Methodology after transition");
    ("Approved by Host Party", "Approved by Host Party") ].

Definition nonempty {A} (l : list A) : bool :=
  match l with
  | [] => false
  | _ :: _ => true
  end.

(** A categorical predicate is active when its column is in the table and
    something is selected. *)
Definition active (ui : Sidebar) (df : DataFrame) (col label : string) : bool :=
  has_column df col && nonempty (multiselect_value ui label).

Definition passes_one (ui : Sidebar) (df : DataFrame) (r : gmap string Cell)
  (f : string * string) : bool :=
  negb (active ui df f.1 f.2) || isin_cell (multiselect_value ui f.2) (row_get r f.1).

Definition passes_categorical (ui : Sidebar) (df : DataFrame) (r : gmap string Cell) : bool :=
  forallb (passes_one ui df r) categorical.

Definition title_query (ui : Sidebar) : string := text_input_value ui "Search in Title".

(** The text predicate is active when the table has a Title column and the
    query is not empty. *)
Definition text_active (ui : Sidebar) (df : DataFrame) : bool :=
  has_column df "Title" && negb (String.eqb (title_query ui) "").

(** What the widget of a column answers when its options can be made:
    the values picked, [None] without the column. *)
Definition selection (ui : Sidebar) (df : DataFrame) (col label : string)
  : option (list Cell) :=
  if has_column df col then Some (multiselect_value ui label) else None.

(** A column whose values [sorted] can put in order: it does not hold
    both a text and a number. *)
Definition sortable (series : list Cell) : bool :=
  negb (existsb is_text series && existsb is_number series).

(** The options of the eight widgets can all be made: every categorical
    column the table has is sortable. *)
Definition options_sortable (df : DataFrame) : bool :=
  forallb (fun f => negb (has_column df f.1) || sortable (column_cells df f.1))
    categorical.

(** The test of the text predicate on one record: the compiled query on
    the text [astype(str)] makes of the Title; a Title left missing does
    not match ([na=False]). *)
Definition title_matches (L : Libs) (m : string -> bool) (r : gmap string Cell) : bool :=
  match cell_astype_str L (row_get r "Title") with
  | CStr s => m s
  | _ => false
  end.

(** The sidebar with nothing selected and nothing typed. *)
Definition empty_sidebar : Sidebar :=
  {| multiselect_value := fun _ => []; text_input_value := fun _ => "" |}.

(** A record written as its list of items. *)
Definition record (items : list (string * Cell)) : gmap string Cell :=
  list_to_map items.

Module Tables.

(** Two activities in two regions. *)
Definition regions : DataFrame :=
  {| columns := ["Region"; "Host country"; "Title"];
     rows := [ record [("Region", CStr "Asia"); ("Host country", CStr "ID");
                       ("Title", CStr "Biogas plant")];
               record [("Region", CStr "Africa"); ("Host country", CStr "CL; EG");
                       ("Title", CNaN)] ] |}.

(** The two activities of the end-to-end example, under the column names
    the example is written with, and under the names the program reads. *)
Definition example_as_written : DataFrame :=
  {| columns := ["Host Party"; "Transition Request"; "Reductions"];
     rows := [ record [("Host Party", CStr "ID"); ("Transition Request", CStr "Yes");
                       ("Reductions", CStr "12.5")];
               record [("Host Party", CStr "CL; EG"); ("Transition Request", CStr "No");
                       ("Reductions", CStr "bad")] ] |}.

Definition example_as_read : DataFrame :=
  {| columns := ["Host country"; "Transition Request"; "Reductions (ktCO2e/yr)"];
     rows := [ record [("Host country", CStr "ID"); ("Transition Request", CStr "Yes");
                       ("Reductions (ktCO2e/yr)", CStr "12.5")];
               record [("Host country", CStr "CL; EG"); ("Transition Request", CStr "No");
                       ("Reductions (ktCO2e/yr)", CStr "bad")] ] |}.

Definition pick (label : string) (values : list Cell) (query : string) : Sidebar :=
  {| multiselect_value := fun l => if String.eqb l label then values else [];
     text_input_value := fun _ => query |}.

(** A table whose Region column holds a text and a number. *)
Definition mixed_region : DataFrame :=
  {| columns := ["Region"; "Title"];
     rows := [ record [("Region", CStr "Asia"); ("Title", CStr "Biogas plant")];
               record [("Region", CNum 5); ("Title", CStr "Wind farm")] ] |}.

End Tables.

(** The second sidebar adds constraints to the first: in every categorical
    widget the first has nothing selected, or the second has a non-empty
    selection drawn from the first's; and the first has no text query, or
    both have the same. *)
Definition narrows (ui1 ui2 : Sidebar) : Prop :=
  (forall label,
     multiselect_value ui1 label = [] \/
     (multiselect_value ui2 label <> [] /\
      forall c, c ∈ multiselect_value ui2 label -> c ∈ multiselect_value ui1 label)) /\
  (title_query ui1 = "" \/ title_query ui2 = title_query ui1).

(** The text query is one the pattern compiler accepts. *)
Definition query_accepted (L : Libs) (ui : Sidebar) : Prop :=
  exists m, re_compile_ignorecase L (title_query ui) = inr m.

(** ** Vocabulary of the statements about the name lookup *)

(** A record answers to a text when one of its fields is the text, up to
    the case of letters; the candidates of a lookup are the records of
    the database that answer to the text. *)
Definition answers_to (v : string) (c : Country) : bool :=
  String.eqb (Py.lower (alpha_2 c)) (Py.lower v) ||
  String.eqb (Py.lower (alpha_3 c)) (Py.lower v) ||
  String.eqb (Py.lower (name c)) (Py.lower v).


(** A database in which a name is carried by two records, with the
    lookup of [Sample]: the first record that answers to the text. *)
Module TwoGuineas.

Definition records : list Country :=
  [ mkCountry "GN" "GIN" "Guinea";
    mkCountry "PG" "PNG" "Guinea" ].

Definition lookup_first (v : string) : Result Country :=
  match List.find (answers_to v) records with
  | Some c => ok c
  | None => raise (LookupError v)
  end.

Definition db : CountryDB :=
  {| db_records := records;
     get_alpha_2 := fun v => List.find (fun c => String.eqb (alpha_2 c) v) records;
     get_alpha_3 := fun v => List.find (fun c => String.eqb (alpha_3 c) v) records;
     db_lookup := lookup_first |}.

End TwoGuineas.

(** ** Vocabulary of the statements about expansion and aggregation *)

(** The answer of [token_to_iso3], an exception read as unresolved. *)
Definition resolve (db : CountryDB) (tok : string) : option string :=
  match token_to_iso3 db tok with
  | inr r => r
  | inl _ => None
  end.

(** A record that carries one host token, tagged with the cleaned token
    and its code. *)
Definition tag_token (L : Libs) (r : gmap string Cell) : gmap string Cell :=
  let r1 := <["country_clean" := CStr (Py.strip (cell_str L (row_get r "host_token")))]> r in
  <["iso3" := cell_of_code (resolve (countries L) (cell_str L (row_get r1 "country_clean")))]> r1.

(** The expansion of one record: one tagged record per host token that
    resolves. *)
Definition expand_record (L : Libs) (r : gmap string Cell) : list (gmap string Cell) :=
  List.filter (fun r' => notna (row_get r' "iso3"))
    (map (tag_token L)
       (explode_record "host_token" r (split_countries L (row_get r "Host country")))).

Definition add_column (cols : list string) (col : string) : list string :=
  if bool_decide (col ∈ cols) then cols else cols ++ [col].

(** The expanded table of a table. *)
Definition geo_table (L : Libs) (t : DataFrame) : DataFrame :=
  {| columns :=
       add_column (add_column (add_column (columns t) "host_token") "country_clean") "iso3";
     rows := flat_map (expand_record L) (rows t) |}.

(** The aggregator: number of records whose cell under [col], as text and
    up to case, is "yes"; zero without the column. *)
Definition count_yes (L : Libs) (t : DataFrame) (col : string) : nat :=
  if has_column t col then
    List.length (List.filter
      (fun r => String.eqb (Py.lower (cell_str L (row_get r col))) "yes") (rows t))
  else 0%nat.

(** The number a cell contributes to a sum: its value when it is a number
    or the text of one, zero otherwise. *)
Definition numeric_or_zero (L : Libs) (c : Cell) : Q :=
  match c with
  | CStr s => default 0%Q (to_number L s)
  | CNum q => q
  | CNaN => 0%Q
  end.

(** The aggregator: sum of a column; zero without the column. *)
Definition sum_numeric (L : Libs) (t : DataFrame) (col : string) : Q :=
  if has_column t col then
    series_sum (map (fun r => numeric_or_zero L (row_get r col)) (rows t))
  else 0%Q.

(** The number of expanded records per code. *)
Definition country_counts (L : Libs) (t : DataFrame) : gmap string nat :=
  fold_left count_key (map (fun r => row_get r "iso3") (rows (geo_table L t))) ∅.

(** The columns of the detail table. *)
Definition cols_show (t : DataFrame) : list string :=
  match List.filter (has_column t) cols_prefer with
  | [] => columns t
  | cols => cols
  end.

(** What the page shows for a filtered table [f]. *)
Definition page_of (L : Libs) (f : DataFrame) : Page :=
  {| total_selected := length (rows f);
     requested_transition := count_yes L f "Transition Request";
     approved_yes := count_yes L f "Approved by Host Party";
     reductions_sum := sum_numeric L f "Reductions (ktCO2e/yr)";
     geo_counts := country_counts L f;
     details := getitem_columns f (cols_show f) |}.

(** A record tagged with a host token, the cleaned token and its code. *)
Definition tagged (r : gmap string Cell) (tok code3 : string) : gmap string Cell :=
  <["iso3" := CStr code3]>
    (<["country_clean" := CStr (Py.strip tok)]> (<["host_token" := CStr tok]> r)).

(** The tagged records of a list of host tokens: the tokens that resolve. *)
Definition tag_resolved (db : CountryDB) (r : gmap string Cell) (toks : list string)
  : list (gmap string Cell) :=
  flat_map (fun tok => match resolve db (Py.strip tok) with
                       | Some code3 => [tagged r tok code3]
                       | None => []
                       end) toks.

(** ** Vocabulary of the further statements *)

(** The number of occurrences of a character in a text. *)
Fixpoint count_char (sep : ascii) (s : string) : nat :=
  match s with
  | EmptyString => 0
  | String a s' => (if Ascii.eqb a sep then 1 else 0) + count_char sep s'
  end.

(** The three columns the expansion adds. *)
Definition geo_columns : list string := ["host_token"; "country_clean"; "iso3"].

(** The number of records of a table whose cell under [col] is the text
    [k]. *)
Definition rows_with (df : DataFrame) (col k : string) : nat :=
  length (List.filter (fun r => cell_eqb (row_get r col) (CStr k)) (rows df)).

(** The sum of the counts of a table of counts. *)
Definition total_count (m : gmap string nat) : nat :=
  list_sum (map snd (map_to_list m)).

(** One cell is not above the next, through the list. *)
Fixpoint ascending (l : list Cell) : Prop :=
  match l with
  | x :: ((y :: _) as l') => py_le x y = ok true /\ ascending l'
  | _ => True
  end.

(** No value occurs twice. *)
Fixpoint distinct (l : list Cell) : Prop :=
  match l with
  | [] => True
  | x :: l' => isin_cell l' x = false /\ distinct l'
  end.

(** The column mixes texts and numbers. *)
Definition mixed (series : list Cell) : Prop :=
  (exists c, c ∈ series /\ is_text c = true) /\
  (exists c, c ∈ series /\ is_number c = true).

(** Two values that [sorted] can compare: two texts or two numbers. *)
Definition comparable (a b : Cell) : Prop :=
  (is_text a = true /\ is_text b = true) \/ (is_number a = true /\ is_number b = true).

(** ** Loading the sheet

    [load_data] reads the sheet with [pd.read_excel] and parses three
    columns with [pd.to_datetime(..., errors="coerce")]; both are
    parameters here. The cells [to_datetime] makes stand for the
    timestamps. The cache of [st.cache_data] is left out. *)

Definition DATA_PATH : string := "CDM.xlsx".

(** The table as [pd.read_excel] returns it: the labels of its columns
    are the cells of the header row, texts for the most part, a number
    where the header is one; a record holds its cells by position. *)
Record Sheet : Type := mkSheet {
  labels : list Cell;
  cells : list (list Cell)
}.

(** The cells of a sheet under its column number [i]. *)
Definition sheet_column (sheet : Sheet) (i : nat) : list Cell :=
  map (fun cs => default CNaN (cs !! i)) (cells sheet).

Definition attribute_error : exn :=
  OtherError "AttributeError: object has no attribute 'strip'".

(** [[c.strip() for c in df.columns]]: a label that is not a text has no
    method [strip]. *)
Fixpoint strip_labels (ls : list Cell) : Result (list string) :=
  match ls with
  | [] => ok []
  | CStr s :: ls' => do names <- strip_labels ls'; ok (Py.strip s :: names)
  | _ :: _ => raise attribute_error
  end.

(** [df.columns = names] on the table read: the same cells, by position,
    under the new names. *)
Definition with_columns (sheet : Sheet) (names : list string) : DataFrame :=
  {| columns := names;
     rows := map (fun cs => list_to_map (zip names cs)) (cells sheet) |}.

(** A record under new column names, given by position. *)
Definition rename_record (old new : list string) (r : gmap string Cell)
  : gmap string Cell :=
  list_to_map (zip new (map (row_get r) old)).

(** [df.columns = names] *)
Definition set_columns (df : DataFrame) (names : list string) : DataFrame :=
  {| columns := names;
     rows := map (rename_record (columns df) names) (rows df) |}.

(** [df.rename(columns={old: new})] *)
Definition rename_column (df : DataFrame) (old new : string) : DataFrame :=
  set_columns df (map (fun c => if String.eqb c old then new else c) (columns df)).

Definition date_columns : list string :=
  ["A6 relevant period from"; "A6 relevant period to"; "Approval Date"].

Section Loader.

Variable read_excel : string -> Result Sheet.
Variable to_datetime : list Cell -> list Cell.

(** The body of the loop over the date columns. *)
Definition parse_dates_in (df : DataFrame) (col : string) : Result DataFrame :=
  if has_column df col then
    do s <- getitem df col;
    ok (setitem df col (to_datetime s))
  else ok df.

(** [for col in cols: ...] *)
Fixpoint for_each (cols : list string) (body : DataFrame -> string -> Result DataFrame)
  (df : DataFrame) : Result DataFrame :=
  match cols with
  | [] => ok df
  | col :: cols' => do df' <- body df col; for_each cols' body df'
  end.

(** [load_data] up to the parsing of the dates. *)
Definition read_and_clean (path : string) : Result DataFrame :=
  do sheet <- read_excel path;
  do names <- strip_labels (labels sheet);
  let df := with_columns sheet names in
  for_each date_columns parse_dates_in df.

Definition load_data (path : string) : Result DataFrame :=
  do df <- read_and_clean path;
  if has_column df " Reductions (ktCO2e/yr)"
     && negb (has_column df "Reductions (ktCO2e/yr)")
  then ok (rename_column df " Reductions (ktCO2e/yr)" "Reductions (ktCO2e/yr)")
  else ok df.

End Loader.

Module SampleSheet.

(** A sheet whose headers carry stray spaces. *)
Definition sheet : Sheet :=
  {| labels := [CStr "Host country "; CStr " Reductions (ktCO2e/yr)"; CStr "Approval Date"];
     cells := [ [CStr "ID"; CStr "12.5"; CNum 45000];
                [CStr "CL; EG"; CStr "bad"; CStr "soon"] ] |}.

(** A sheet with a year for a header. *)
Definition year_sheet : Sheet :=
  {| labels := [CStr "Host country"; CNum 2020];
     cells := [ [CStr "ID"; CNum (25 # 2)] ] |}.

Definition read_excel (path : string) : Result Sheet :=
  if String.eqb path DATA_PATH then ok sheet
  else if String.eqb path "years.xlsx" then ok year_sheet
  else raise (OtherError "FileNotFoundError").

(** A stand-in for the date parser: numbers are kept as day counts, any
    other cell is no date. *)
Definition to_datetime (series : list Cell) : list Cell :=
  map (fun c => match c with CNum q => CNum q | _ => CNaN end) series.

End SampleSheet.

(** ** The bar chart

    [ex.groupby("country_clean", dropna=True).size().reset_index(name="count")
       .sort_values("count", ascending=False).head(topn)].
    The sort of [sort_values] is a parameter: it puts the rows in
    descending order of count and says nothing of the order of rows with
    the same count. [topn] is the value of the slider. *)

(** Each count is at least the next. *)
Fixpoint descending (l : list (string * nat)) : Prop :=
  match l with
  | x :: ((y :: _) as l') => (y.2 <= x.2)%nat /\ descending l'
  | _ => True
  end.

Definition sort_values_law (sort_values : list (string * nat) -> list (string * nat))
  : Prop :=
  forall l, sort_values l ≡ₚ l /\ descending (sort_values l).

Section BarChart.

Variable sort_values : list (string * nat) -> list (string * nat).

Definition bar_counts (ex : DataFrame) (topn : nat) : Result (list (string * nat)) :=
  do sizes <- groupby_size ex "country_clean";
  ok (take topn (sort_values (map_to_list sizes))).

End BarChart.

Module SampleSort.

Fixpoint insert_desc (x : string * nat) (l : list (string * nat)) : list (string * nat) :=
  match l with
  | [] => [x]
  | y :: l' => if (y.2 <=? x.2)%nat then x :: y :: l' else y :: insert_desc x l'
  end.

Definition sort_values (l : list (string * nat)) : list (string * nat) :=
  foldr insert_desc [] l.

End SampleSort.

(** A table whose records name no country. *)
Definition no_country_table : DataFrame :=
  {| columns := ["Host country"];
     rows := [ record [("Host country", CStr " Multiple ")];
               record [("Host country", CNaN)] ] |}.

Module MoreTables.

(** The first record of [Tables.regions]. *)
Definition asia_record : gmap string Cell :=
  record [("Region", CStr "Asia"); ("Host country", CStr "ID");
          ("Title", CStr "Biogas plant")].

End MoreTables.
(** ** The resolver *)

Section ResolverFacts.

Variable db : CountryDB.

Lemma dict_get_Some d k v : dict_get d k = Some v -> (k, v) ∈ d.
Proof.
  induction d as [|[k' v'] d IH]; simpl; [discriminate |].
  destruct (String.eqb_spec k k') as [-> | _].
  - intros [= ->]. left.
  - intros H. right. auto.
Qed.

Lemma alias_not_skipped k v : (k, v) ∈ SPECIAL_ISO3 -> skipped k = false.
Proof.
  unfold SPECIAL_ISO3. rewrite !elem_of_cons, elem_of_nil.
  intros H. repeat (destruct H as [[= -> _] | H]; [reflexivity |]).
  contradiction.
Qed.

Lemma token_to_iso3_alias tok code3 :
  dict_get SPECIAL_ISO3 (Py.strip tok) = Some code3 ->
  token_to_iso3 db tok = ok (Some code3).
Proof.
  intros H. unfold token_to_iso3.
  pose proof (alias_not_skipped _ _ (dict_get_Some _ _ _ H)) as Hs.
  unfold skipped in Hs. rewrite Hs, H. reflexivity.
Qed.

Lemma token_to_iso3_skipped tok :
  skipped (Py.strip tok) = true -> token_to_iso3 db tok = ok None.
Proof. intros H. unfold token_to_iso3. unfold skipped in H. now rewrite H. Qed.

Lemma token_to_iso3_name tok :
  reaches_name_lookup (Py.strip tok) = true ->
  token_to_iso3 db tok =
    match db_lookup db (Py.strip tok) with
    | inr c => ok (Some (alpha_3 c))
    | inl _ => ok None
    end.
Proof.
  unfold reaches_name_lookup, token_to_iso3, skipped, looks_like_code.
  intros H. apply andb_prop in H as [H H3]. apply andb_prop in H as [H H2].
  apply andb_prop in H as [H0 H1].
  apply negb_true_iff in H0, H2, H3. rewrite H0.
  destruct (dict_get SPECIAL_ISO3 (Py.strip tok)); [discriminate |].
  rewrite H2, H3. now destruct (db_lookup db (Py.strip tok)).
Qed.

Lemma token_to_iso3_alpha2 tok :
  skipped (Py.strip tok) = false ->
  dict_get SPECIAL_ISO3 (Py.strip tok) = None ->
  looks_like_code 2 (Py.strip tok) = true ->
  token_to_iso3 db tok = ok (alpha_3 <$> get_alpha_2 db (Py.upper (Py.strip tok))).
Proof.
  unfold token_to_iso3, skipped, looks_like_code. intros -> -> ->.
  now destruct (get_alpha_2 db _).
Qed.

Lemma token_to_iso3_alpha3 tok :
  skipped (Py.strip tok) = false ->
  dict_get SPECIAL_ISO3 (Py.strip tok) = None ->
  looks_like_code 2 (Py.strip tok) = false ->
  looks_like_code 3 (Py.strip tok) = true ->
  token_to_iso3 db tok = ok (alpha_3 <$> get_alpha_3 db (Py.upper (Py.strip tok))).
Proof.
  unfold token_to_iso3, skipped, looks_like_code. intros -> -> -> ->.
  now destruct (get_alpha_3 db _).
Qed.


(** The resolver always returns, and what it returns is unresolved, an
    alias of the table, or the code of the record the database answered. *)
Lemma token_to_iso3_cases tok :
  token_to_iso3 db tok = ok None \/
  exists code3, token_to_iso3 db tok = ok (Some code3) /\
    ((exists k, (k, code3) ∈ SPECIAL_ISO3) \/
     (exists v c, alpha_3 c = code3 /\
        (get_alpha_2 db v = Some c \/ get_alpha_3 db v = Some c \/ db_lookup db v = inr c))).
Proof.
  unfold token_to_iso3.
  destruct (in_tuple _ _); [now left |].
  destruct (dict_get SPECIAL_ISO3 (Py.strip tok)) as [code3|] eqn:Hd.
  { right. exists code3. split; [reflexivity |]. left.
    exists (Py.strip tok). now apply dict_get_Some. }
  destruct (_ && _).
  { destruct (get_alpha_2 db _) as [c|] eqn:Hc; [| now left].
    right. exists (alpha_3 c). split; [reflexivity |]. right. eauto 6. }
  destruct (_ && _).
  { destruct (get_alpha_3 db _) as [c|] eqn:Hc; [| now left].
    right. exists (alpha_3 c). split; [reflexivity |]. right. eauto 6. }
  destruct (db_lookup db _) as [e|c] eqn:Hc; [now left |].
  right. exists (alpha_3 c). split; [reflexivity |]. right. eauto 7.
Qed.

Lemma token_to_iso3_returns tok : exists r, token_to_iso3 db tok = ok r.
Proof. destruct (token_to_iso3_cases tok) as [H | (c & H & _)]; eauto. Qed.

End ResolverFacts.


(** ** The options of a widget *)

Lemma rbind_ok {A B} (x : A) (k : A -> Result B) : rbind (ok x) k = k x.
Proof. reflexivity. Qed.

Lemma isin_cell_mono (sel1 sel2 : list Cell) c :
  (forall x, x ∈ sel2 -> x ∈ sel1) ->
  isin_cell sel2 c = true -> isin_cell sel1 c = true.
Proof.
  unfold isin_cell. rewrite !existsb_exists. intros H (x & Hx & Hc).
  exists x. split; [| exact Hc].
  apply list_elem_of_In, H. now apply list_elem_of_In.
Qed.

Lemma isin_cell_same_elements (sel1 sel2 : list Cell) c :
  (forall x, x ∈ sel1 <-> x ∈ sel2) -> isin_cell sel1 c = isin_cell sel2 c.
Proof.
  intros H. destruct (isin_cell sel2 c) eqn:E2.
  - apply (isin_cell_mono sel1 sel2); [intros x; apply H | exact E2].
  - destruct (isin_cell sel1 c) eqn:E1; [| reflexivity].
    rewrite (isin_cell_mono sel2 sel1 c) in E2; [discriminate | | exact E1].
    intros x. apply H.
Qed.

Lemma cell_eqb_refl c : cell_eqb c c = true.
Proof. destruct c; simpl; auto using String.eqb_refl, Qeq_bool_refl. Qed.

Lemma cell_eqb_sym a b : cell_eqb a b = cell_eqb b a.
Proof.
  destruct a, b; simpl; auto using String.eqb_sym, Qeq_bool_comm.
Qed.

Lemma cell_eqb_trans a b c :
  cell_eqb a b = true -> cell_eqb b c = true -> cell_eqb a c = true.
Proof.
  destruct a, b, c; simpl; try discriminate; auto.
  - rewrite !String.eqb_eq. congruence.
  - apply Qeq_bool_trans.
Qed.

Lemma isin_cell_true sel c :
  isin_cell sel c = true <-> exists x, x ∈ sel /\ cell_eqb c x = true.
Proof.
  unfold isin_cell. rewrite existsb_exists.
  split; intros (x & H1 & H2); exists x; split; auto; now apply list_elem_of_In.
Qed.

Lemma isin_cell_false sel c :
  isin_cell sel c = false <-> forall x, x ∈ sel -> cell_eqb c x = false.
Proof.
  split.
  - intros H x Hx. destruct (cell_eqb c x) eqn:E; [| reflexivity].
    rewrite <- H. symmetry. apply isin_cell_true. eauto.
  - intros H. destruct (isin_cell sel c) eqn:E; [| reflexivity].
    apply isin_cell_true in E as (x & Hx & Hc). now rewrite (H x Hx) in Hc.
Qed.

Lemma isin_cell_perm sel1 sel2 c : sel1 ≡ₚ sel2 -> isin_cell sel1 c = isin_cell sel2 c.
Proof.
  intros H. apply isin_cell_same_elements. intros x. now rewrite H.
Qed.

Lemma distinct_perm l1 l2 : l1 ≡ₚ l2 -> distinct l1 -> distinct l2.
Proof.
  induction 1 as [| x l1 l2 Hp IH | x y l | l1 l2 l3 H12 IH12 H23 IH23]; simpl.
  - auto.
  - intros [Hx Hd]. split; [now rewrite <- (isin_cell_perm _ _ x Hp) | auto].
  - intros (Hy & Hx & Hd). unfold isin_cell in *. simpl in *.
    apply orb_false_iff in Hy as [Hyx Hy]. repeat split; try assumption.
    apply orb_false_iff. split; [now rewrite cell_eqb_sym | assumption].
  - auto.
Qed.

(** What [unique] keeps. *)
Lemma unique_from_spec seen series :
  (forall c, c ∈ unique_from seen series -> c ∈ series /\ isin_cell seen c = false) /\
  (forall c, c ∈ series -> isin_cell (seen ++ unique_from seen series) c = true) /\
  distinct (unique_from seen series).
Proof.
  revert seen. induction series as [|x l IH]; intros seen; simpl.
  { split; [intros c H; now apply elem_of_nil in H |].
    split; [intros c H; now apply elem_of_nil in H | exact I]. }
  destruct (isin_cell seen x) eqn:Ex.
  - destruct (IH seen) as (H1 & H2 & H3). split; [| split; [| exact H3]].
    + intros c Hc. destruct (H1 c Hc). split; [now right | assumption].
    + intros c Hc. apply elem_of_cons in Hc as [-> | Hc]; [| now apply H2].
      apply isin_cell_true in Ex as (y & Hy & Hxy). apply isin_cell_true.
      exists y. split; [apply elem_of_app; now left | exact Hxy].
  - destruct (IH (x :: seen)) as (H1 & H2 & H3). split; [| split].
    + intros c Hc. apply elem_of_cons in Hc as [-> | Hc]; [split; [left | exact Ex] |].
      destruct (H1 c Hc) as [Hin Hnot]. split; [now right |].
      unfold isin_cell in Hnot. simpl in Hnot. now apply orb_false_iff in Hnot as [_ ?].
    + intros c Hc.
      assert (Hgoal : isin_cell ((x :: seen) ++ unique_from (x :: seen) l) c = true
                      \/ c = x).
      { apply elem_of_cons in Hc as [-> | Hc]; [now right | left; now apply H2]. }
      destruct Hgoal as [Hg | ->].
      * rewrite <- Hg. apply isin_cell_perm.
        simpl. now rewrite Permutation_middle.
      * apply isin_cell_true. exists x. split; [| apply cell_eqb_refl].
        apply elem_of_app. right. left.
    + split; [| exact H3]. apply isin_cell_false. intros y Hy.
      destruct (H1 y Hy) as [_ Hnot]. unfold isin_cell in Hnot. simpl in Hnot.
      apply orb_false_iff in Hnot as [Hyx _]. now rewrite cell_eqb_sym.
Qed.

(** *** Sorting *)

Lemma py_le_comparable a b :
  comparable a b ->
  exists le, py_le a b = ok le /\ (le = false -> py_le b a = ok true).
Proof.
  intros [[Ha Hb] | [Ha Hb]]; destruct a, b; try discriminate; simpl.
  - eexists. split; [reflexivity |]. intros H.
    destruct (String.leb_total s s0) as [E | E]; [congruence | now rewrite E].
  - eexists. split; [reflexivity |]. intros H. f_equal.
    apply Qle_bool_iff. destruct (Qlt_le_dec q0 q) as [Hlt | Hle].
    + now apply Qlt_le_weak.
    + apply Qle_bool_iff in Hle. congruence.
Qed.

Lemma py_le_cross a b :
  (is_text a = true /\ is_number b = true) \/ (is_number a = true /\ is_text b = true) ->
  py_le a b = inl type_error.
Proof. intros [[Ha Hb] | [Ha Hb]]; destruct a, b; try discriminate; reflexivity. Qed.

Lemma insert_sorted_head x l l' :
  insert_sorted x l = ok l' ->
  exists h t, l' = h :: t /\ (h = x \/ exists t0, l = h :: t0).
Proof.
  destruct l as [|y l]; simpl.
  - intros [= <-]. eauto.
  - destruct (py_le x y) as [e|[]]; simpl; try discriminate.
    + intros [= <-]. eauto.
    + destruct (insert_sorted x l) as [e|rest]; simpl; [discriminate |].
      intros [= <-]. eauto 6.
Qed.

Lemma insert_sorted_ok x l :
  (forall y, y ∈ l -> comparable x y) ->
  exists l', insert_sorted x l = ok l' /\ l' ≡ₚ x :: l /\ (ascending l -> ascending l').
Proof.
  induction l as [|y l IH]; intros Hc; simpl.
  { exists [x]. split; [reflexivity |]. split; [reflexivity | auto]. }
  destruct (py_le_comparable x y (Hc y ltac:(left))) as (le & Hle & Hrev).
  rewrite Hle, rbind_ok. destruct le.
  { exists (x :: y :: l). split; [reflexivity |]. split; [reflexivity |].
    intros Ha. simpl. split; [exact Hle | exact Ha]. }
  destruct IH as (rest & Hins & Hperm & Hasc).
  { intros z Hz. apply Hc. now right. }
  rewrite Hins, rbind_ok. exists (y :: rest). split; [reflexivity |]. split.
  - rewrite Hperm. apply perm_swap.
  - intros Ha.
    assert (Ha' : ascending l) by (destruct l; [exact I | apply Ha]).
    specialize (Hasc Ha').
    destruct (insert_sorted_head x l rest Hins) as (h & t & -> & Hh).
    split; [| exact Hasc].
    destruct Hh as [-> | [t0 ->]]; [now apply Hrev | apply Ha].
Qed.

Lemma sorted_ok l :
  (forall a b, a ∈ l -> b ∈ l -> comparable a b) ->
  exists l', sorted l = ok l' /\ l' ≡ₚ l /\ ascending l'.
Proof.
  induction l as [|x l IH]; intros Hc; simpl.
  { exists []. repeat split; auto. }
  destruct IH as (acc & Hs & Hp & Ha).
  { intros a b Ha Hb. apply Hc; now right. }
  rewrite Hs, rbind_ok.
  destruct (insert_sorted_ok x acc) as (l' & Hi & Hp' & Ha').
  { intros y Hy. rewrite Hp in Hy. apply Hc; [left | now right]. }
  exists l'. split; [exact Hi |]. split; [now rewrite Hp', Hp | auto].
Qed.

Lemma kinds_of_list l :
  (forall c, c ∈ l -> notna c = true) ->
  (forall c, c ∈ l -> is_text c = true) \/
  (forall c, c ∈ l -> is_number c = true) \/
  mixed l.
Proof.
  induction l as [|x l IH]; intros Hn.
  { left. intros c H. now apply elem_of_nil in H. }
  assert (Hx : is_text x = true \/ is_number x = true).
  { specialize (Hn x ltac:(left)). destruct x; auto; discriminate. }
  destruct IH as [Ht | [Hnum | [[c1 [H1 T1]] [c2 [H2 T2]]]]].
  { intros c Hc. apply Hn. now right. }
  - destruct Hx as [Hx | Hx].
    + left. intros c Hc. apply elem_of_cons in Hc as [-> | Hc]; auto.
    + destruct l as [|y l].
      * right. left. intros c Hc. apply elem_of_cons in Hc as [-> | Hc]; auto.
        now apply elem_of_nil in Hc.
      * right. right. split; [exists y | exists x].
        -- split; [right; left | apply Ht; left].
        -- split; [left | exact Hx].
  - destruct Hx as [Hx | Hx].
    + destruct l as [|y l].
      * left. intros c Hc. apply elem_of_cons in Hc as [-> | Hc]; auto.
        now apply elem_of_nil in Hc.
      * right. right. split; [exists x | exists y].
        -- split; [left | exact Hx].
        -- split; [right; left | apply Hnum; left].
    + right. left. intros c Hc. apply elem_of_cons in Hc as [-> | Hc]; auto.
  - right. right. split; [exists c1 | exists c2]; split; auto; now right.
Qed.

Lemma not_text_and_number c : is_text c = true -> is_number c = true -> False.
Proof. destruct c; discriminate. Qed.

Lemma sorted_head_of l acc :
  sorted l = ok acc -> acc ≡ₚ l -> forall c, c ∈ l -> exists y rest, acc = y :: rest /\ y ∈ l.
Proof.
  intros _ Hp c Hc. destruct acc as [|y rest].
  - apply Permutation_nil_l in Hp. subst l. now apply elem_of_nil in Hc.
  - exists y, rest. split; [reflexivity |]. rewrite <- Hp. left.
Qed.

Lemma sorted_mixed l :
  (forall c, c ∈ l -> notna c = true) -> mixed l -> sorted l = inl type_error.
Proof.
  induction l as [|x l IH]; intros Hn Hm.
  { destruct Hm as [[c [Hc _]] _]. now apply elem_of_nil in Hc. }
  simpl.
  assert (Hn' : forall c, c ∈ l -> notna c = true) by (intros c Hc; apply Hn; now right).
  destruct Hm as [[ct [Hct Tt]] [cn [Hcn Tn]]].
  destruct (kinds_of_list l Hn') as [Ht | [Hnum | Hmix]].
  - destruct (sorted_ok l) as (acc & Hs & Hp & _).
    { intros a b Ha Hb. left. auto. }
    rewrite Hs, rbind_ok.
    apply elem_of_cons in Hcn as [Ecn | Hcn];
      [subst cn | exfalso; exact (not_text_and_number cn (Ht cn Hcn) Tn)].
    apply elem_of_cons in Hct as [Ect | Hct];
      [subst ct; exfalso; exact (not_text_and_number x Tt Tn) |].
    destruct (sorted_head_of l acc Hs Hp ct Hct) as (y & rest & -> & Hy).
    simpl. rewrite py_le_cross; [reflexivity |]. right. auto.
  - destruct (sorted_ok l) as (acc & Hs & Hp & _).
    { intros a b Ha Hb. right. auto. }
    rewrite Hs, rbind_ok.
    apply elem_of_cons in Hct as [Ect | Hct];
      [subst ct | exfalso; exact (not_text_and_number ct Tt (Hnum ct Hct))].
    apply elem_of_cons in Hcn as [Ecn | Hcn];
      [subst cn; exfalso; exact (not_text_and_number x Tt Tn) |].
    destruct (sorted_head_of l acc Hs Hp cn Hcn) as (y & rest & -> & Hy).
    simpl. rewrite py_le_cross; [reflexivity |]. left. auto.
  - now rewrite (IH Hn' Hmix).
Qed.

Lemma is_text_eqb a b : cell_eqb a b = true -> is_text a = is_text b.
Proof. destruct a, b; simpl; try discriminate; reflexivity. Qed.

Lemma is_number_eqb a b : cell_eqb a b = true -> is_number a = is_number b.
Proof. destruct a, b; simpl; try discriminate; reflexivity. Qed.

Lemma elem_of_dropna series c : c ∈ dropna series <-> c ∈ series /\ notna c = true.
Proof. unfold dropna. now rewrite list_elem_of_In, List.filter_In, <- list_elem_of_In. Qed.

(** The values [unique] keeps of the cells that are not missing. *)
Lemma unique_dropna_spec series :
  (forall o, o ∈ unique (dropna series) -> o ∈ series /\ notna o = true) /\
  (forall c, c ∈ series -> notna c = true -> isin_cell (unique (dropna series)) c = true) /\
  distinct (unique (dropna series)).
Proof.
  destruct (unique_from_spec [] (dropna series)) as (H1 & H2 & H3).
  split; [| split; [| exact H3]].
  - intros o Ho. destruct (H1 o Ho) as [Hin _]. now apply elem_of_dropna.
  - intros c Hc Hn. apply (H2 c). now apply elem_of_dropna.
Qed.

Lemma mixed_unique_dropna series : mixed (unique (dropna series)) <-> mixed series.
Proof.
  destruct (unique_dropna_spec series) as (H1 & H2 & _).
  split; intros [[ct [Hct Tt]] [cn [Hcn Tn]]].
  - split; [exists ct | exists cn]; split; auto; now apply H1.
  - split.
    + assert (Hn : notna ct = true) by (destruct ct; try discriminate; reflexivity).
      destruct (proj1 (isin_cell_true _ _) (H2 ct Hct Hn)) as (x & Hx & Hcx).
      exists x. split; [exact Hx |]. now rewrite <- (is_text_eqb _ _ Hcx).
    + assert (Hn : notna cn = true) by (destruct cn; try discriminate; reflexivity).
      destruct (proj1 (isin_cell_true _ _) (H2 cn Hcn Hn)) as (x & Hx & Hcx).
      exists x. split; [exact Hx |]. now rewrite <- (is_number_eqb _ _ Hcx).
Qed.

Lemma sorted_unique_dropna series :
  (mixed series /\ sorted (unique (dropna series)) = inl type_error) \/
  (~ mixed series /\
   exists opts, sorted (unique (dropna series)) = ok opts /\
                opts ≡ₚ unique (dropna series) /\ ascending opts).
Proof.
  destruct (unique_dropna_spec series) as (H1 & _ & _).
  destruct (kinds_of_list (unique (dropna series))) as [Ht | [Hn | Hm]].
  - intros c Hc. now apply H1.
  - right. split.
    + intros Hm. apply mixed_unique_dropna in Hm as [_ [c [Hc Tc]]].
      exact (not_text_and_number c (Ht c Hc) Tc).
    + apply sorted_ok. intros a b Ha Hb. left. auto.
  - right. split.
    + intros Hm. apply mixed_unique_dropna in Hm as [[c [Hc Tc]] _].
      exact (not_text_and_number c Tc (Hn c Hc)).
    + apply sorted_ok. intros a b Ha Hb. right. auto.
  - left. split; [now apply mixed_unique_dropna |].
    apply sorted_mixed; [| exact Hm]. intros c Hc. now apply H1.
Qed.


(** A column is sortable exactly when it does not mix texts and numbers. *)
Lemma sortable_mixed series : sortable series = false <-> mixed series.
Proof.
  unfold sortable, mixed. rewrite negb_false_iff, andb_true_iff, !existsb_exists.
  split; intros [(c1 & H1 & T1) (c2 & H2 & T2)]; split; eauto;
    [exists c1 | exists c2 | exists c1 | exists c2]; split; auto;
    now apply list_elem_of_In.
Qed.

Lemma sortable_not_mixed series : sortable series = true <-> ~ mixed series.
Proof.
  rewrite <- sortable_mixed. destruct (sortable series); split; congruence.
Qed.

(** Sorting the options of a column: done when the column is sortable,
    a [TypeError] otherwise. *)
Lemma sorted_options series :
  if sortable series
  then exists opts, sorted (unique (dropna series)) = ok opts /\
                    opts ≡ₚ unique (dropna series) /\ ascending opts
  else sorted (unique (dropna series)) = inl type_error.
Proof.
  destruct (sorted_unique_dropna series) as [[Hm Hs] | [Hm Hs]].
  - apply sortable_mixed in Hm. now rewrite Hm.
  - apply sortable_not_mixed in Hm. now rewrite Hm.
Qed.

(** A sub-sequence of a sortable column is sortable. *)
Lemma sortable_sublist (s1 s2 : list Cell) :
  sublist s1 s2 -> sortable s2 = true -> sortable s1 = true.
Proof.
  intros Hsub. rewrite !sortable_not_mixed. intros Hn [[c1 [H1 T1]] [c2 [H2 T2]]].
  apply Hn. split; [exists c1 | exists c2]; split; auto;
    eapply elem_of_sublist; eassumption.
Qed.

(** ** The filter *)

Lemma select_rows_map {A} (p : A -> bool) (l : list A) :
  select_rows l (map p l) = List.filter p l.
Proof. induction l as [|x l IH]; simpl; [reflexivity |]. rewrite IH. reflexivity. Qed.

Lemma keep_rows_ext p q df :
  (forall r, r ∈ rows df -> p r = q r) -> keep_rows p df = keep_rows q df.
Proof.
  intros H. unfold keep_rows. f_equal. apply List.filter_ext_in.
  intros r Hr. apply H. now apply list_elem_of_In.
Qed.

Lemma keep_rows_all df : keep_rows (fun _ => true) df = df.
Proof.
  destruct df as [cols rs]. unfold keep_rows; simpl. f_equal.
  induction rs as [|r rs IH]; simpl; [reflexivity | now rewrite IH].
Qed.

Lemma keep_rows_twice p q df :
  keep_rows q (keep_rows p df) = keep_rows (fun r => p r && q r) df.
Proof.
  unfold keep_rows; simpl. f_equal.
  induction (rows df) as [|r rs IH]; simpl; [reflexivity |].
  destruct (p r); simpl; [| exact IH]. destruct (q r); now rewrite IH.
Qed.

Lemma has_column_keep_rows p df col :
  has_column (keep_rows p df) col = has_column df col.
Proof. reflexivity. Qed.

Lemma boolean_index_test (p : gmap string Cell -> bool) df :
  boolean_index df (map p (rows df)) = keep_rows p df.
Proof. unfold boolean_index, keep_rows. now rewrite select_rows_map. Qed.

Lemma elem_of_keep_rows p df r :
  r ∈ rows (keep_rows p df) <-> r ∈ rows df /\ p r = true.
Proof. unfold keep_rows; simpl. rewrite !list_elem_of_In. apply List.filter_In. Qed.

Lemma keep_rows_sublist p df : sublist (rows (keep_rows p df)) (rows df).
Proof.
  unfold keep_rows; simpl. induction (rows df) as [|r rs IH]; simpl; [constructor |].
  destruct (p r); now constructor.
Qed.

Lemma getitem_present df col :
  has_column df col = true -> getitem df col = ok (map (fun r => row_get r col) (rows df)).
Proof. intros H. unfold getitem. now rewrite H. Qed.

Lemma getitem_absent df col :
  has_column df col = false -> getitem df col = raise (KeyError col).
Proof. intros H. unfold getitem. now rewrite H. Qed.

(** What [multiselect] gives: the answer of the widget when the column is
    not there or its options can be sorted, a [TypeError] otherwise. *)
Lemma multiselect_run ui df col label :
  multiselect ui df col label =
    if negb (has_column df col) || sortable (column_cells df col)
    then ok (selection ui df col label)
    else raise type_error.
Proof.
  unfold multiselect, selection. destruct (has_column df col) eqn:Hc; simpl; [| reflexivity].
  rewrite (getitem_present df col Hc), rbind_ok. fold (column_cells df col).
  pose proof (sorted_options (column_cells df col)) as H.
  destruct (sortable (column_cells df col)).
  - destruct H as (opts & -> & _). reflexivity.
  - now rewrite H.
Qed.

(** The options of a column, by the same test. *)
Lemma multiselect_opts_run df col :
  if negb (has_column df col) || sortable (column_cells df col)
  then exists o, multiselect_opts df col = ok o
  else multiselect_opts df col = inl type_error.
Proof.
  unfold multiselect_opts. destruct (has_column df col) eqn:Hc; simpl; [| eauto].
  rewrite (getitem_present df col Hc), rbind_ok. fold (column_cells df col).
  pose proof (sorted_options (column_cells df col)) as H.
  destruct (sortable (column_cells df col)).
  - destruct H as (opts & -> & _). simpl. eauto.
  - now rewrite H.
Qed.

Lemma options_sortable_forall df :
  options_sortable df = true <->
  forall f, f ∈ categorical -> exists o, multiselect_opts df f.1 = ok o.
Proof.
  unfold options_sortable. rewrite forallb_forall. split.
  - intros H f Hf. apply list_elem_of_In in Hf. specialize (H f Hf).
    pose proof (multiselect_opts_run df f.1) as Hr. now rewrite H in Hr.
  - intros H f Hf. apply list_elem_of_In in Hf. destruct (H f Hf) as [o Ho].
    pose proof (multiselect_opts_run df f.1) as Hr.
    destruct (negb (has_column df f.1) || sortable (column_cells df f.1));
      [reflexivity |]. rewrite Hr in Ho. discriminate.
Qed.

(** When the options cannot all be made, a categorical column of the
    table mixes texts and numbers, and conversely. *)
Lemma options_unsortable_mixed df :
  options_sortable df = false <->
  exists f, f ∈ categorical /\ has_column df f.1 = true /\ mixed (column_cells df f.1).
Proof.
  unfold options_sortable. split.
  - intros H. destruct (forallb _ categorical) eqn:E in H; [discriminate |].
    clear H. apply not_true_iff_false in E.
    destruct (List.Exists_dec
                (fun f : string * string =>
                   has_column df f.1 = true /\ sortable (column_cells df f.1) = false)
                categorical) as [Hex | Hno].
    { intros f. destruct (has_column df f.1), (sortable (column_cells df f.1));
        [right | left | right | right]; intuition discriminate. }
    + apply List.Exists_exists in Hex as (f & Hf & Hc & Hs).
      exists f. split; [now apply list_elem_of_In |]. split; [exact Hc |].
      now apply sortable_mixed.
    + exfalso. apply E. apply forallb_forall. intros f Hf.
      destruct (has_column df f.1) eqn:Hc; [| reflexivity].
      destruct (sortable (column_cells df f.1)) eqn:Hs; [reflexivity |].
      exfalso. apply Hno. apply List.Exists_exists. eauto.
  - intros (f & Hf & Hc & Hm). apply sortable_mixed in Hm.
    apply not_true_iff_false. rewrite forallb_forall. intros H.
    apply list_elem_of_In in Hf. specialize (H f Hf).
    rewrite Hc, Hm in H. discriminate.
Qed.

(** A table with the same columns and a sub-sequence of the records has
    sortable options when the larger table has. *)
Lemma options_sortable_sub df out :
  columns out = columns df -> sublist (rows out) (rows df) ->
  options_sortable df = true -> options_sortable out = true.
Proof.
  intros Hc Hs. unfold options_sortable. rewrite !forallb_forall.
  intros H f Hf. specialize (H f Hf). unfold has_column in *. rewrite Hc.
  destruct (bool_decide (f.1 ∈ columns df)); [| reflexivity]. simpl in *.
  apply (sortable_sublist _ (column_cells df f.1)); [| exact H].
  unfold column_cells. now apply (fmap_sublist (fun r => row_get r f.1)).
Qed.

Lemma truthy_selection ui df col label :
  truthy (selection ui df col label) && has_column df col = active ui df col label.
Proof.
  unfold selection, active. destruct (has_column df col); simpl; [| reflexivity].
  now destruct (multiselect_value ui label).
Qed.

Section EngineFacts.

Variable L : Libs.

(** What one call of [filt] does to the table. *)
Lemma filt_spec col selected out :
  filt col selected out =
    ok (if truthy selected && has_column out col
        then keep_rows (fun r => isin_cell (default [] selected) (row_get r col)) out
        else out).
Proof.
  unfold filt. destruct (truthy selected && has_column out col) eqn:H; [| reflexivity].
  apply andb_prop in H as [_ H]. unfold getitem. rewrite H, rbind_ok.
  unfold isin. rewrite List.map_map. now rewrite boolean_index_test.
Qed.

(** One call of [filt] with the answer of its widget, on a table that has
    already been narrowed. *)
Lemma filt_stage ui df p col label :
  filt col (selection ui df col label) (keep_rows p df) =
    ok (keep_rows (fun r => p r && passes_one ui df r (col, label)) df).
Proof.
  rewrite filt_spec, has_column_keep_rows, truthy_selection.
  unfold passes_one; simpl. destruct (active ui df col label) eqn:Ha; simpl.
  - rewrite keep_rows_twice. f_equal. apply keep_rows_ext. intros r _. f_equal.
    unfold selection. unfold active in Ha. apply andb_prop in Ha as [-> _].
    reflexivity.
  - f_equal. apply keep_rows_ext. intros r _. now rewrite andb_true_r.
Qed.

Lemma filt_first ui df col label :
  filt col (selection ui df col label) df =
    ok (keep_rows (fun r => true && passes_one ui df r (col, label)) df).
Proof. rewrite <- filt_stage. now rewrite keep_rows_all. Qed.

(** The whole of [apply_filters]. When the options of a widget cannot be
    sorted it raises [TypeError]. Otherwise it keeps the records that pass
    every active categorical predicate and, when the text predicate is
    active, that the compiled query matches on the text of their Title. *)
Lemma apply_filters_spec ui df :
  apply_filters L ui df =
    if options_sortable df then
      if text_active ui df then
        do m <- re_compile_ignorecase L (title_query ui);
        ok (keep_rows (fun r => passes_categorical ui df r && title_matches L m r) df)
      else ok (keep_rows (passes_categorical ui df) df)
    else raise type_error.
Proof.
  unfold apply_filters. rewrite !multiselect_run.
  unfold options_sortable, categorical, forallb. cbn [fst].
  repeat match goal with
         | |- context [negb (has_column df ?c) || sortable (column_cells df ?c)] =>
             destruct (negb (has_column df c) || sortable (column_cells df c));
             [cbn [andb]; cbv iota; rewrite rbind_ok | reflexivity]
         end.
  cbv zeta.
  rewrite filt_first, rbind_ok.
  do 7 rewrite filt_stage, rbind_ok.
  set (p := fun r : gmap string Cell => _).
  assert (Hp : forall r, p r = passes_categorical ui df r).
  { intros r. unfold p, passes_categorical, categorical, forallb.
    rewrite andb_true_r. simpl. rewrite <- !andb_assoc. reflexivity. }
  rewrite has_column_keep_rows. unfold text_active, title_query.
  destruct (has_column df "Title") eqn:Ht; simpl.
  2: { f_equal. now apply keep_rows_ext. }
  destruct (String.eqb _ "") eqn:Hq; simpl.
  { f_equal. now apply keep_rows_ext. }
  unfold getitem. rewrite has_column_keep_rows, Ht, rbind_ok.
  unfold str_contains, astype_str. rewrite !List.map_map.
  destruct (re_compile_ignorecase L _) as [e|m]; simpl; [reflexivity |].
  rewrite List.map_map.
  change (map (fun x => match cell_astype_str L (row_get x "Title") with
                        | CStr s => m s
                        | _ => false
                        end) (rows (keep_rows p df)))
    with (map (title_matches L m) (rows (keep_rows p df))).
  rewrite boolean_index_test, keep_rows_twice.
  f_equal. apply keep_rows_ext. intros r _. now rewrite Hp.
Qed.

End EngineFacts.

Lemma passes_categorical_inactive ui df r :
  (forall f, f ∈ categorical -> active ui df f.1 f.2 = false) ->
  passes_categorical ui df r = true.
Proof.
  intros H. unfold passes_categorical. apply forallb_forall. intros f Hf.
  unfold passes_one. rewrite H; [reflexivity | now apply list_elem_of_In].
Qed.

(** Nothing selected and nothing typed: the table comes back as it is,
    when the options can be made. *)
Lemma apply_filters_nothing (L : Libs) ui df :
  options_sortable df = true ->
  (forall label, multiselect_value ui label = []) ->
  title_query ui = "" ->
  apply_filters L ui df = ok df.
Proof.
  intros Hs Hsel Hq. rewrite apply_filters_spec, Hs. unfold text_active. rewrite Hq; simpl.
  rewrite andb_false_r. f_equal.
  transitivity (keep_rows (fun _ => true) df); [| apply keep_rows_all].
  apply keep_rows_ext. intros r _. apply passes_categorical_inactive.
  intros f _. unfold active. rewrite Hsel. apply andb_false_r.
Qed.

(** Whatever is selected or typed, a table whose options cannot be made is
    not filtered at all. *)
Lemma apply_filters_unsortable (L : Libs) ui df :
  options_sortable df = false -> apply_filters L ui df = raise type_error.
Proof. intros Hs. now rewrite apply_filters_spec, Hs. Qed.

Lemma apply_filters_ok_sortable (L : Libs) ui df out :
  apply_filters L ui df = ok out -> options_sortable df = true.
Proof.
  rewrite apply_filters_spec. destruct (options_sortable df); [reflexivity | discriminate].
Qed.

(** A table that [apply_filters] returns has the columns of the table it
    was given and a sub-sequence of its records. *)
Lemma apply_filters_sub (L : Libs) ui df out :
  apply_filters L ui df = ok out ->
  columns out = columns df /\ sublist (rows out) (rows df).
Proof.
  rewrite apply_filters_spec. destruct (options_sortable df); [| discriminate].
  destruct (text_active ui df).
  - destruct (re_compile_ignorecase L _) as [e|m]; simpl; [discriminate |].
    intros [= <-]. split; [reflexivity | apply keep_rows_sublist].
  - intros [= <-]. split; [reflexivity | apply keep_rows_sublist].
Qed.

(** [apply_filters] returns a table when the options can be made, unless
    the text predicate is in use and the pattern compiler declines the
    query. *)
Lemma apply_filters_returns (L : Libs) ui df :
  options_sortable df = true ->
  text_active ui df = false \/ query_accepted L ui ->
  exists out, apply_filters L ui df = ok out.
Proof.
  intros Hs. rewrite apply_filters_spec, Hs. intros [-> | [m Hm]]; [eauto |].
  destruct (text_active ui df); [| eauto]. rewrite Hm. simpl. eauto.
Qed.

(** ** Expansion: the table operations *)

Lemma token_to_iso3_resolve db tok : token_to_iso3 db tok = ok (resolve db tok).
Proof.
  unfold resolve. destruct (token_to_iso3_returns db tok) as [r ->]. reflexivity.
Qed.

Lemma assign_cells_map (f : gmap string Cell -> Cell) col l :
  assign_cells l col (map f l) = map (fun r => <[col := f r]> r) l.
Proof. induction l as [|r l IH]; simpl; [reflexivity | now rewrite IH]. Qed.

Lemma explode_rows_map col (g : gmap string Cell -> list string) l :
  explode_rows col l (map g l) = flat_map (fun r => explode_record col r (g r)) l.
Proof. induction l as [|r l IH]; simpl; [reflexivity | now rewrite IH]. Qed.

Lemma has_column_add cols col c :
  bool_decide (c ∈ add_column cols col) = bool_decide (c ∈ cols) || String.eqb c col.
Proof.
  unfold add_column. destruct (decide (col ∈ cols)) as [Hin | Hout].
  - rewrite (bool_decide_true (col ∈ cols)) by exact Hin.
    destruct (String.eqb_spec c col) as [-> | Hne].
    + rewrite orb_true_r. now apply bool_decide_true.
    + now rewrite orb_false_r.
  - rewrite (bool_decide_false (col ∈ cols)) by exact Hout.
    destruct (String.eqb_spec c col) as [-> | Hne].
    + rewrite orb_true_r. apply bool_decide_true.
      apply elem_of_app. right. now left.
    + rewrite orb_false_r. apply bool_decide_ext.
      rewrite elem_of_app, list_elem_of_singleton. tauto.
Qed.

Lemma has_column_add_same cols col : bool_decide (col ∈ add_column cols col) = true.
Proof. rewrite has_column_add, String.eqb_refl. apply orb_true_r. Qed.

Lemma filter_map_flat_map {A B} (p : B -> bool) (f : B -> B) (g : A -> list B) l :
  List.filter p (map f (flat_map g l)) = flat_map (fun x => List.filter p (map f (g x))) l.
Proof.
  induction l as [|x l IH]; simpl; [reflexivity |].
  now rewrite List.map_app, List.filter_app, IH.
Qed.

Lemma filter_map_agree {A B} (p : B -> bool) (f g : A -> B) (l : list A) :
  (forall x, x ∈ l -> f x = g x \/ (p (f x) = false /\ p (g x) = false)) ->
  List.filter p (map f l) = List.filter p (map g l).
Proof.
  induction l as [|x l IH]; intros H; [reflexivity |]. simpl.
  rewrite IH by (intros y Hy; apply H; now right).
  destruct (H x ltac:(left)) as [-> | [-> ->]]; reflexivity.
Qed.

Lemma resolve_nan db : resolve db "nan" = None.
Proof. reflexivity. Qed.

Section ExpansionFacts.

Variable L : Libs.

Lemma apply_series_token_to_iso3 (series : list Cell) :
  apply_series (token_to_iso3_cell L) series =
    ok (map (fun c => cell_of_code (resolve (countries L) (cell_str L c))) series).
Proof.
  induction series as [|c l IH]; simpl; [reflexivity |].
  unfold token_to_iso3_cell at 1. rewrite token_to_iso3_resolve, rbind_ok.
  rewrite rbind_ok, IH. reflexivity.
Qed.

Lemma str_map_astype_str f (series : list Cell) :
  str_map f (astype_str L series) =
    map (fun c => match cell_astype_str L c with
                  | CStr s => CStr (f s)
                  | _ => CNaN
                  end) series.
Proof. unfold str_map, astype_str. now rewrite List.map_map. Qed.


Lemma row_get_insert (r : gmap string Cell) col c : row_get (<[col := c]> r) col = c.
Proof. unfold row_get. now rewrite lookup_insert_eq. Qed.

Lemma tag_token_text (r : gmap string Cell) tok :
  tag_token L (<["host_token" := CStr tok]> r) =
    <["iso3" := cell_of_code (resolve (countries L) (Py.strip tok))]>
      (<["country_clean" := CStr (Py.strip tok)]> (<["host_token" := CStr tok]> r)).
Proof. unfold tag_token. now rewrite !row_get_insert. Qed.

Lemma tag_token_missing (r : gmap string Cell) :
  notna (row_get (tag_token L (<["host_token" := CNaN]> r)) "iso3") = false.
Proof. unfold tag_token. now rewrite !row_get_insert. Qed.

(** The expansion of one record, token by token. *)
Lemma expand_record_tokens (r : gmap string Cell) :
  expand_record L r =
    tag_resolved (countries L) r (split_countries L (row_get r "Host country")).
Proof.
  unfold expand_record, tag_resolved.
  destruct (split_countries L (row_get r "Host country")) as [|tok toks] eqn:E.
  { simpl. now rewrite tag_token_missing. }
  unfold explode_record. generalize (tok :: toks). clear.
  induction l as [|t l IH]; [reflexivity |].
  simpl. rewrite IH, tag_token_text, row_get_insert.
  unfold tagged. now destruct (resolve (countries L) (Py.strip t)).
Qed.

End ExpansionFacts.

(** ** Expansion: the objects of the store *)

Lemma lookup_last (s : Store) (o : PyObj) : (s ++ [o]) !! length s = Some o.
Proof. now apply list_lookup_middle. Qed.

Lemma insert_last (s : Store) (o o' : PyObj) : <[length s := o']> (s ++ [o]) = s ++ [o'].
Proof.
  rewrite insert_app_r_alt by lia. now rewrite Nat.sub_diag.
Qed.

Lemma lookup_old (s : Store) (o : PyObj) p x : s !! p = Some x -> (s ++ [o]) !! p = Some x.
Proof. intros H. now apply lookup_app_l_Some. Qed.

Lemma bind_run {A B} (m : M A) (k : A -> M B) (s s' : Store) x :
  m s = inr (x, s') -> bind m k s = k x s'.
Proof. intros H. unfold bind. now rewrite H. Qed.

Lemma bind_raise {A B} (m : M A) (k : A -> M B) (s : Store) e :
  m s = inl e -> bind m k s = inl e.
Proof. intros H. unfold bind. now rewrite H. Qed.

Lemma lift_run {A} (r : Result A) (s : Store) x : r = inr x -> lift r s = inr (x, s).
Proof. now intros ->. Qed.

Lemma alloc_run (s : Store) o : alloc o s = inr (length s, s ++ [o]).
Proof. reflexivity. Qed.

Lemma frame_copy_run (s : Store) p o :
  s !! p = Some o -> frame_copy p s = inr (length s, s ++ [o]).
Proof. intros H. unfold frame_copy, bind, load. now rewrite H. Qed.

Lemma load_frame_run (s : Store) p d :
  s !! p = Some (Frame d) -> load_frame p s = inr (d, s).
Proof. intros H. unfold load_frame, bind, load. now rewrite H. Qed.

Lemma frame_getitem_run (s : Store) p d col :
  s !! p = Some (Frame d) ->
  frame_getitem p col s =
    match getitem d col with
    | inl e => inl e
    | inr series => inr (series, s)
    end.
Proof.
  intros H. unfold frame_getitem, bind. rewrite (load_frame_run s p d H).
  reflexivity.
Qed.

Lemma frame_setitem_last (s : Store) d col series :
  frame_setitem (length s) col series (s ++ [Frame d]) =
    inr (tt, s ++ [Frame (setitem d col series)]).
Proof.
  unfold frame_setitem, bind.
  rewrite (load_frame_run _ _ d (lookup_last s (Frame d))).
  unfold store, ok. now rewrite insert_last.
Qed.

Lemma frame_setitem_lists_last (s : Store) d col lists :
  frame_setitem_lists (length s) col lists (s ++ [Frame d]) =
    inr (tt, s ++ [FrameOfLists d col lists]).
Proof.
  unfold frame_setitem_lists, bind.
  rewrite (load_frame_run _ _ d (lookup_last s (Frame d))).
  unfold store, ok. now rewrite insert_last.
Qed.

Lemma frame_explode_last (s : Store) d col lists :
  frame_explode (length s) col (s ++ [FrameOfLists d col lists]) =
    inr (S (length s),
         s ++ [FrameOfLists d col lists; Frame (explode_lists d col lists)]).
Proof.
  unfold frame_explode, bind, load, ok. rewrite lookup_last.
  cbv beta iota. rewrite String.eqb_refl. unfold alloc, ok.
  rewrite length_app, <- app_assoc. simpl. now rewrite Nat.add_1_r.
Qed.

Lemma frame_boolean_index_run (s : Store) p d mask :
  s !! p = Some (Frame d) ->
  frame_boolean_index p mask s =
    inr (length s, s ++ [Frame (boolean_index d mask)]).
Proof.
  intros H. unfold frame_boolean_index, bind.
  rewrite (load_frame_run s p d H). reflexivity.
Qed.

Section StoreFacts.

Variable L : Libs.

(** The run of [make_exploded_for_geo] on a table with the host-country
    column: three objects are added to the store, the last one is the
    expanded table and is the one returned; no object of the store it
    started from is touched. *)
Lemma make_exploded_for_geo_run (s : Store) p t :
  s !! p = Some (Frame t) ->
  has_column t "Host country" = true ->
  exists o1 o2,
    make_exploded_for_geo L p s =
      inr (S (S (length s)), s ++ [o1; o2; Frame (geo_table L t)]).
Proof.
  intros Hp Hcol. unfold make_exploded_for_geo, bind.
  rewrite (frame_copy_run s p _ Hp).
  rewrite (frame_getitem_run _ _ t _ (lookup_last s (Frame t))).
  rewrite (getitem_present t _ Hcol). unfold ok.
  rewrite frame_setitem_lists_last, frame_explode_last.
  set (lists := map (split_countries L) _).
  set (e0 := explode_lists t "host_token" lists).
  set (s1 := s ++ [FrameOfLists t "host_token" lists]).
  replace (s ++ [FrameOfLists t "host_token" lists; Frame e0]) with (s1 ++ [Frame e0])
    by (unfold s1; now rewrite <- app_assoc).
  assert (Hlen : S (length s) = length s1).
  { unfold s1. rewrite length_app. simpl. lia. }
  rewrite Hlen.
  assert (H0 : has_column e0 "host_token" = true).
  { unfold e0, explode_lists, has_column; simpl. apply has_column_add_same. }
  rewrite (frame_getitem_run _ _ e0 _ (lookup_last s1 (Frame e0))).
  rewrite (getitem_present e0 _ H0). unfold ok.
  rewrite frame_setitem_last.
  set (e1 := setitem e0 "country_clean" _).
  assert (H1 : has_column e1 "country_clean" = true).
  { unfold e1, setitem, has_column; simpl. apply has_column_add_same. }
  rewrite (frame_getitem_run _ _ e1 _ (lookup_last s1 (Frame e1))).
  rewrite (getitem_present e1 _ H1). unfold ok.
  unfold lift. rewrite apply_series_token_to_iso3. unfold ok.
  rewrite frame_setitem_last.
  set (e2 := setitem e1 "iso3" _).
  assert (H2 : has_column e2 "iso3" = true).
  { unfold e2, setitem, has_column; simpl. apply has_column_add_same. }
  rewrite (frame_getitem_run _ _ e2 _ (lookup_last s1 (Frame e2))).
  rewrite (getitem_present e2 _ H2). unfold ok.
  rewrite (frame_boolean_index_run _ _ e2 _ (lookup_last s1 (Frame e2))).
  unfold ret, ok.
  exists (FrameOfLists t "host_token" lists), (Frame e2).
  f_equal. f_equal.
  - rewrite length_app. simpl. lia.
  - unfold s1. rewrite <- !app_assoc. simpl. do 4 f_equal.
    rewrite List.map_map, boolean_index_test.
    unfold keep_rows, geo_table. f_equal.
    unfold e2, e1, setitem; simpl rows.
    rewrite str_map_astype_str, !List.map_map, !assign_cells_map.
    unfold e0, explode_lists; simpl rows. unfold lists.
    rewrite List.map_map, explode_rows_map.
    rewrite List.map_map, filter_map_flat_map.
    refine (f_equal2 mkDataFrame _ _); [reflexivity |].
    apply flat_map_ext. intros r. unfold expand_record.
    apply filter_map_agree. intros r0 Hr0.
    assert (Hcell : (exists tok, row_get r0 "host_token" = CStr tok) \/
                    row_get r0 "host_token" = CNaN).
    { unfold explode_record in Hr0.
      destruct (split_countries L (row_get r "Host country")) as [|tok toks].
      - apply list_elem_of_singleton in Hr0. subst r0. right. apply row_get_insert.
      - apply list_elem_of_In, List.in_map_iff in Hr0 as (t0 & <- & _).
        left. exists t0. apply row_get_insert. }
    unfold tag_token. destruct Hcell as [[tok Htok] | Hna]; [left | ].
    + now rewrite Htok.
    + rewrite Hna. cbn [cell_astype_str cell_str].
      destruct (astype_str_keeps_na L); [right | now left].
      rewrite !row_get_insert. cbn [cell_str].
      rewrite !resolve_nan. split; reflexivity.
Qed.

Lemma make_exploded_for_geo_no_column (s : Store) p t :
  s !! p = Some (Frame t) ->
  has_column t "Host country" = false ->
  make_exploded_for_geo L p s = raise (KeyError "Host country").
Proof.
  intros Hp Hcol. unfold make_exploded_for_geo, bind.
  rewrite (frame_copy_run s p _ Hp).
  rewrite (frame_getitem_run _ _ t _ (lookup_last s (Frame t))).
  now rewrite (getitem_absent t _ Hcol).
Qed.

End StoreFacts.

(** ** The page script *)

Section PageFacts.

Variable L : Libs.

Lemma count_true_yes (l : list (gmap string Cell)) col :
  count_true (eq_text (str_map Py.lower (astype_str L (map (fun r => row_get r col) l))) "yes")
  = length (List.filter
      (fun r => String.eqb (Py.lower (cell_str L (row_get r col))) "yes") l).
Proof.
  rewrite str_map_astype_str. unfold count_true, eq_text. rewrite !List.map_map.
  induction l as [|r l IH]; simpl; [reflexivity |].
  assert (E : match
                match cell_astype_str L (row_get r col) with
                | CStr s => CStr (Py.lower s)
                | _ => CNaN
                end
              with
              | CStr s => String.eqb s "yes"
              | _ => false
              end = String.eqb (Py.lower (cell_str L (row_get r col))) "yes").
  { destruct (row_get r col); simpl; try reflexivity.
    now destruct (astype_str_keeps_na L). }
  rewrite E. destruct (String.eqb _ "yes"); simpl; now rewrite IH.
Qed.

Lemma to_numeric_fillna (l : list (gmap string Cell)) col :
  fillna 0%Q (to_numeric L (map (fun r => row_get r col) l))
  = map (fun r => numeric_or_zero L (row_get r col)) l.
Proof.
  unfold fillna, to_numeric. rewrite !List.map_map. apply List.map_ext.
  intros r. now destruct (row_get r col).
Qed.

(** The KPI expressions on the object of the filtered table. *)
Lemma kpi_count_run (s : Store) p f col :
  s !! p = Some (Frame f) ->
  (if has_column f col then
     bind (frame_getitem p col)
       (fun series => ret (count_true
          (eq_text (str_map Py.lower (astype_str L series)) "yes")))
   else ret 0%nat) s = inr (count_yes L f col, s).
Proof.
  intros Hp. unfold count_yes. destruct (has_column f col) eqn:Hc; [| reflexivity].
  unfold bind. rewrite (frame_getitem_run s p f col Hp), (getitem_present f col Hc).
  unfold ok, ret. now rewrite count_true_yes.
Qed.

Lemma kpi_sum_run (s : Store) p f col :
  s !! p = Some (Frame f) ->
  (if has_column f col then
     bind (frame_getitem p col)
       (fun series => ret (series_sum (fillna 0%Q (to_numeric L series))))
   else ret 0%Q) s = inr (sum_numeric L f col, s).
Proof.
  intros Hp. unfold sum_numeric. destruct (has_column f col) eqn:Hc; [| reflexivity].
  unfold bind. rewrite (frame_getitem_run s p f col Hp), (getitem_present f col Hc).
  unfold ok, ret. now rewrite to_numeric_fillna.
Qed.

Lemma groupby_size_geo f :
  groupby_size (geo_table L f) "iso3" = ok (country_counts L f).
Proof.
  unfold groupby_size. rewrite getitem_present; [reflexivity |].
  unfold has_column, geo_table; simpl. apply has_column_add_same.
Qed.

(** The run of the page on a stored table [t]: the filtered table [f] is
    a new object, the expansion adds three more, and every figure of the
    page is the aggregate of [f]. *)
Lemma page_run ui (s : Store) p t f :
  s !! p = Some (Frame t) ->
  apply_filters L ui t = ok f ->
  has_column f "Host country" = true ->
  exists o1 o2,
    page L ui p s =
      inr (page_of L f, s ++ [Frame f; o1; o2; Frame (geo_table L f)]).
Proof.
  intros Hp Hf Hcol. unfold page.
  rewrite (bind_run _ _ _ _ _ (load_frame_run s p t Hp)); cbv beta.
  rewrite (bind_run _ _ _ _ _ (lift_run _ s _ Hf)); cbv beta.
  rewrite (bind_run _ _ _ _ _ (alloc_run s (Frame f))); cbv beta.
  set (s1 := s ++ [Frame f]).
  assert (H1 : s1 !! length s = Some (Frame f)) by apply lookup_last.
  rewrite (bind_run _ _ _ _ _ (load_frame_run s1 _ f H1)); cbv beta.
  rewrite (bind_run _ _ _ _ _ (kpi_count_run s1 _ f _ H1)); cbv beta.
  rewrite (bind_run _ _ _ _ _ (kpi_count_run s1 _ f _ H1)); cbv beta.
  rewrite (bind_run _ _ _ _ _ (kpi_sum_run s1 _ f _ H1)); cbv beta.
  destruct (make_exploded_for_geo_run L s1 _ f H1 Hcol) as (o1 & o2 & Hex).
  rewrite (bind_run _ _ _ _ _ Hex); cbv beta.
  set (s2 := s1 ++ _).
  assert (H2 : s2 !! S (S (length s1)) = Some (Frame (geo_table L f))).
  { unfold s2. rewrite lookup_app_r by lia.
    now replace (S (S (length s1)) - length s1) with 2 by lia. }
  rewrite (bind_run _ _ _ _ _ (load_frame_run s2 _ _ H2)); cbv beta.
  rewrite (bind_run _ _ _ _ _ (lift_run _ s2 _ (groupby_size_geo f))); cbv beta.
  assert (H3 : s2 !! length s = Some (Frame f)).
  { unfold s2. apply lookup_app_l_Some. exact H1. }
  rewrite (bind_run _ _ _ _ _ (load_frame_run s2 _ f H3)); cbv beta.
  exists o1, o2. unfold ret, ok, page_of, cols_show. f_equal. f_equal.
  - now destruct (List.filter (has_column f) cols_prefer).
  - unfold s2, s1. now rewrite <- app_assoc.
Qed.

Lemma page_no_host_column ui (s : Store) p t f :
  s !! p = Some (Frame t) ->
  apply_filters L ui t = ok f ->
  has_column f "Host country" = false ->
  page L ui p s = raise (KeyError "Host country").
Proof.
  intros Hp Hf Hcol. unfold page.
  rewrite (bind_run _ _ _ _ _ (load_frame_run s p t Hp)); cbv beta.
  rewrite (bind_run _ _ _ _ _ (lift_run _ s _ Hf)); cbv beta.
  rewrite (bind_run _ _ _ _ _ (alloc_run s (Frame f))); cbv beta.
  set (s1 := s ++ [Frame f]).
  assert (H1 : s1 !! length s = Some (Frame f)) by apply lookup_last.
  rewrite (bind_run _ _ _ _ _ (load_frame_run s1 _ f H1)); cbv beta.
  rewrite (bind_run _ _ _ _ _ (kpi_count_run s1 _ f _ H1)); cbv beta.
  rewrite (bind_run _ _ _ _ _ (kpi_count_run s1 _ f _ H1)); cbv beta.
  rewrite (bind_run _ _ _ _ _ (kpi_sum_run s1 _ f _ H1)); cbv beta.
  apply bind_raise. now apply (make_exploded_for_geo_no_column L s1 _ f).
Qed.

Lemma page_filter_raises ui (s : Store) p t e :
  s !! p = Some (Frame t) ->
  apply_filters L ui t = inl e ->
  page L ui p s = inl e.
Proof.
  intros Hp Hf. unfold page.
  rewrite (bind_run _ _ _ _ _ (load_frame_run s p t Hp)); cbv beta.
  apply bind_raise. unfold lift. now rewrite Hf.
Qed.

End PageFacts.

(** ** Resolution of two-letter tokens *)

Lemma resolve_two_letter db tok code3 :
  skipped (Py.strip tok) = false ->
  dict_get SPECIAL_ISO3 (Py.strip tok) = None ->
  looks_like_code 2 (Py.strip tok) = true ->
  alpha_3 <$> get_alpha_2 db (Py.upper (Py.strip tok)) = Some code3 ->
  resolve db tok = Some code3.
Proof.
  intros H1 H2 H3 H4. unfold resolve.
  now rewrite (token_to_iso3_alpha2 db tok H1 H2 H3), H4.
Qed.

Lemma resolve_skipped db tok : skipped (Py.strip tok) = true -> resolve db tok = None.
Proof. intros H. unfold resolve. now rewrite token_to_iso3_skipped. Qed.
(** C1: with a database that knows Indonesia under its two-letter code,
    its three-letter code and its name, the resolver answers IDN for "ID",
    "IDN" and "Indonesia", unresolved for "Multiple" and for the empty
    text, and VNM for "Viet Nam"; an alias of the table is answered before
    the database is asked, whatever the database would say. *)
Theorem C1_resolver_examples (db : CountryDB) :
  alpha_3 <$> get_alpha_2 db "ID" = Some "IDN" ->
  alpha_3 <$> get_alpha_3 db "IDN" = Some "IDN" ->
  (exists c, db_lookup db "Indonesia" = inr c /\ alpha_3 c = "IDN") ->
  token_to_iso3 db "ID" = ok (Some "IDN") /\
  token_to_iso3 db "IDN" = ok (Some "IDN") /\
  token_to_iso3 db "Indonesia" = ok (Some "IDN") /\
  token_to_iso3 db "Multiple" = ok None /\
  token_to_iso3 db "" = ok None /\
  token_to_iso3 db "Viet Nam" = ok (Some "VNM") /\
  (forall tok code3, dict_get SPECIAL_ISO3 (Py.strip tok) = Some code3 ->
     token_to_iso3 db tok = ok (Some code3)).
Proof.
  intros H2 H3 (c & Hn & Hc).
  repeat split; try reflexivity.
  - rewrite token_to_iso3_alpha2 by reflexivity.
    change (Py.upper (Py.strip "ID")) with "ID". now rewrite H2.
  - rewrite token_to_iso3_alpha3 by reflexivity.
    change (Py.upper (Py.strip "IDN")) with "IDN". now rewrite H3.
  - rewrite token_to_iso3_name by reflexivity.
    change (Py.strip "Indonesia") with "Indonesia". rewrite Hn. now rewrite Hc.
  - apply token_to_iso3_alias.
Qed.

Lemma C1_resolver_examples_witness :
  token_to_iso3 Sample.db "ID" = ok (Some "IDN") /\
  token_to_iso3 Sample.db "IDN" = ok (Some "IDN") /\
  token_to_iso3 Sample.db "Indonesia" = ok (Some "IDN") /\
  token_to_iso3 Sample.db "Multiple" = ok None /\
  token_to_iso3 Sample.db "" = ok None /\
  token_to_iso3 Sample.db "Viet Nam" = ok (Some "VNM") /\
  (forall tok code3, dict_get SPECIAL_ISO3 (Py.strip tok) = Some code3 ->
     token_to_iso3 Sample.db tok = ok (Some code3)).
Proof.
  apply (C1_resolver_examples Sample.db).
  - reflexivity.
  - reflexivity.
  - exists (mkCountry "ID" "IDN" "Indonesia"). split; reflexivity.
Defined.

Lemma sample_db_answers : db_answers_from_records Sample.db.
Proof.
  repeat split; simpl; intros v c.
  - unfold Sample.by_field. intros H. apply List.find_some in H as [H _].
    now apply list_elem_of_In.
  - unfold Sample.by_field. intros H. apply List.find_some in H as [H _].
    now apply list_elem_of_In.
  - unfold Sample.lookup_any.
    destruct (List.find _ _) as [c'|] eqn:H; [| discriminate].
    intros [= <-]. apply List.find_some in H as [H _].
    now apply list_elem_of_In.
Defined.

Lemma sample_db_aliases k code3 :
  (k, code3) ∈ SPECIAL_ISO3 -> valid_iso3 Sample.db code3.
Proof.
  unfold SPECIAL_ISO3. rewrite !elem_of_cons, elem_of_nil.
  intros H.
  repeat (destruct H as [[= _ ->] | H];
          [eexists (mkCountry _ _ _); split; [| reflexivity];
           simpl; unfold Sample.iso_records;
           rewrite !elem_of_cons; auto 12 |]).
  contradiction.
Defined.




(** C4: over a database that knows Chile and Egypt under their two-letter
    codes, [make_exploded_for_geo] returns a table whose records are the
    expansions of the records of its table, in order; the expansion of a
    record whose host-country cell is "CL; EG; Multiple" is that record
    twice, once tagged CL with CHL and once tagged EG with EGY, and
    nothing for "Multiple"; the expansion of a record whose host-country
    cell is missing is empty. *)
Theorem C4_expansion_examples (L : Libs) :
  alpha_3 <$> get_alpha_2 (countries L) "CL" = Some "CHL" ->
  alpha_3 <$> get_alpha_2 (countries L) "EG" = Some "EGY" ->
  (forall (s : Store) p t,
     s !! p = Some (Frame t) -> has_column t "Host country" = true ->
     exists o1 o2 ex,
       make_exploded_for_geo L p s = inr (S (S (length s)), s ++ [o1; o2; Frame ex]) /\
       rows ex = flat_map (expand_record L) (rows t)) /\
  (forall r, row_get r "Host country" = CStr "CL; EG; Multiple" ->
     expand_record L r = [tagged r "CL" "CHL"; tagged r "EG" "EGY"]) /\
  (forall r, row_get r "Host country" = CNaN -> expand_record L r = []).
Proof.
  intros Hcl Heg. split; [| split].
  - intros s p t Hp Hcol.
    destruct (make_exploded_for_geo_run L s p t Hp Hcol) as (o1 & o2 & H).
    exists o1, o2, (geo_table L t). split; [exact H | reflexivity].
  - intros r Hr. rewrite expand_record_tokens, Hr.
    change (split_countries L (CStr "CL; EG; Multiple")) with ["CL"; "EG"].
    unfold tag_resolved, flat_map.
    rewrite (resolve_two_letter _ (Py.strip "CL") "CHL") by (reflexivity || exact Hcl).
    rewrite (resolve_two_letter _ (Py.strip "EG") "EGY") by (reflexivity || exact Heg).
    reflexivity.
  - intros r Hr. rewrite expand_record_tokens, Hr. reflexivity.
Qed.

Lemma C4_expansion_examples_witness :
  (forall (s : Store) p t,
     s !! p = Some (Frame t) -> has_column t "Host country" = true ->
     exists o1 o2 ex,
       make_exploded_for_geo Sample.libs p s =
         inr (S (S (length s)), s ++ [o1; o2; Frame ex]) /\
       rows ex = flat_map (expand_record Sample.libs) (rows t)) /\
  (forall r, row_get r "Host country" = CStr "CL; EG; Multiple" ->
     expand_record Sample.libs r = [tagged r "CL" "CHL"; tagged r "EG" "EGY"]) /\
  (forall r, row_get r "Host country" = CNaN -> expand_record Sample.libs r = []).
Proof.
  apply (C4_expansion_examples Sample.libs); reflexivity.
Defined.

(** The sample compiler obeys the law of plain patterns. *)
Lemma sample_match_here_plain q s :
  is_plain_pattern q = true ->
  Sample.match_here q s = String.prefix (Py.lower q) (Py.lower s).
Proof.
  revert s. induction q as [|p q IH]; intros s Hq.
  - now destruct s.
  - simpl in Hq. apply andb_prop in Hq as [Hp Hq].
    destruct s as [|a s]; [reflexivity |].
    simpl. rewrite (IH s Hq).
    assert (Hdot : Ascii.eqb p "." = false).
    { destruct (Ascii.eqb p ".") eqn:E; [| reflexivity].
      apply Ascii.eqb_eq in E. subst p. discriminate Hp. }
    rewrite Hdot.
    destruct (ascii_dec (Py.lower_char p) (Py.lower_char a)) as [E | E].
    + rewrite E, Ascii.eqb_refl. reflexivity.
    + apply Ascii.eqb_neq in E. now rewrite E.
Qed.

Lemma sample_search_plain q s :
  is_plain_pattern q = true -> Sample.search q s = contains_nocase q s.
Proof.
  intros Hq. unfold contains_nocase.
  induction s as [|a s IH]; simpl.
  - now rewrite sample_match_here_plain.
  - now rewrite sample_match_here_plain, IH.
Qed.

Lemma sample_plain_law : re_plain_law Sample.libs.
Proof.
  intros q Hq _. exists (Sample.search q). split.
  - simpl. unfold Sample.compile.
    assert (H : Sample.plain_or_dot q = true).
    { unfold Sample.plain_or_dot, is_plain_pattern in *.
      induction q as [|p q IH]; [reflexivity |]. simpl in *.
      apply andb_prop in Hq as [-> Hq]. rewrite orb_true_r. now apply IH. }
    now rewrite H.
  - intros s _. now apply sample_search_plain.
Defined.




(** C6: with nothing selected in any categorical widget and no text typed,
    [apply_filters] returns the table it was given when the options of its
    widgets can be made, that is, when no categorical column holds both a
    text and a number; on a table with such a column it raises [TypeError]
    while it builds the options, before any filtering, and returns no
    table: the table whose Region column holds "Asia" and 5 is one. A call
    of [filt] whose selection is absent or empty, or whose column the
    table does not have, returns its table as it is. *)
Theorem C6_filter_identity (L : Libs) (ui : Sidebar) (df : DataFrame) :
  (forall label, multiselect_value ui label = []) ->
  title_query ui = "" ->
  (options_sortable df = true -> apply_filters L ui df = ok df) /\
  (options_sortable df = false -> apply_filters L ui df = raise type_error) /\
  (options_sortable df = false <->
   exists f, f ∈ categorical /\ has_column df f.1 = true /\
             mixed (column_cells df f.1)) /\
  apply_filters L ui Tables.mixed_region = raise type_error /\
  (forall col selected out,
     selected = None \/ selected = Some [] \/ has_column out col = false ->
     filt col selected out = ok out).
Proof.
  intros Hsel Hq. split; [| split; [| split; [| split]]].
  - intros Hs. now apply apply_filters_nothing.
  - apply apply_filters_unsortable.
  - apply options_unsortable_mixed.
  - now apply apply_filters_unsortable.
  - intros col selected out H. rewrite filt_spec.
    destruct H as [-> | [-> | ->]]; simpl; try reflexivity.
    now rewrite andb_false_r.
Qed.

Lemma C6_filter_identity_witness :
  (options_sortable Tables.regions = true ->
   apply_filters Sample.libs empty_sidebar Tables.regions = ok Tables.regions) /\
  (options_sortable Tables.regions = false ->
   apply_filters Sample.libs empty_sidebar Tables.regions = raise type_error) /\
  (options_sortable Tables.regions = false <->
   exists f, f ∈ categorical /\ has_column Tables.regions f.1 = true /\
             mixed (column_cells Tables.regions f.1)) /\
  apply_filters Sample.libs empty_sidebar Tables.mixed_region = raise type_error /\
  (forall col selected out,
     selected = None \/ selected = Some [] \/ has_column out col = false ->
     filt col selected out = ok out).
Proof.
  apply (C6_filter_identity Sample.libs empty_sidebar Tables.regions).
  - intros label. reflexivity.
  - reflexivity.
Defined.

Lemma cell_eqb_text s c : cell_eqb (CStr s) c = true <-> c = CStr s.
Proof.
  destruct c as [t| |]; simpl; split; try discriminate; try congruence.
  - intros H. apply String.eqb_eq in H. now subst.
  - intros [= ->]. apply String.eqb_refl.
Qed.

Lemma isin_cell_text selected s :
  isin_cell selected (CStr s) = true <-> CStr s ∈ selected.
Proof.
  unfold isin_cell. rewrite existsb_exists. split.
  - intros (c & Hin & Hc). apply cell_eqb_text in Hc. subst.
    now apply list_elem_of_In.
  - intros H. exists (CStr s). split; [now apply list_elem_of_In |].
    now apply cell_eqb_text.
Qed.

Lemma passes_categorical_one ui df r f :
  f ∈ categorical -> passes_categorical ui df r = true -> passes_one ui df r f = true.
Proof.
  intros Hf H. unfold passes_categorical in H.
  rewrite forallb_forall in H. apply H. now apply list_elem_of_In.
Qed.

Lemma apply_filters_rows (L : Libs) ui df out r :
  apply_filters L ui df = ok out -> r ∈ rows out ->
  r ∈ rows df /\ passes_categorical ui df r = true.
Proof.
  rewrite apply_filters_spec. destruct (options_sortable df); [| discriminate].
  destruct (text_active ui df).
  - destruct (re_compile_ignorecase L _) as [e|m]; simpl; [discriminate |].
    intros [= <-] Hr. apply elem_of_keep_rows in Hr as [Hr Hp].
    apply andb_prop in Hp as [Hp _]. now split.
  - intros [= <-] Hr. now apply elem_of_keep_rows in Hr.
Qed.

(** C10: the host-country predicate compares the whole cell with the
    selected values. On a table with the column and a non-empty selection,
    every record kept has its whole cell among the selected values; with
    no other predicate in use, and the widgets drawn (no categorical
    column holds both a text and a number), a table is returned and the
    records kept are exactly those; a text
    cell is among the selected values when the list holds that very text,
    so a record whose cell is "CL; EG" is kept by no selection that lacks
    the text "CL; EG", whatever single countries it lists. *)
Theorem C10_host_filter_whole_cell (L : Libs) (ui : Sidebar) (df : DataFrame) :
  has_column df "Host country" = true ->
  multiselect_value ui "Host Party" <> [] ->
  let selected := multiselect_value ui "Host Party" in
  (forall out r, apply_filters L ui df = ok out -> r ∈ rows out ->
     isin_cell selected (row_get r "Host country") = true) /\
  (options_sortable df = true ->
   (forall label, label <> "Host Party" -> multiselect_value ui label = []) ->
   title_query ui = "" ->
   apply_filters L ui df =
     ok (keep_rows (fun r => isin_cell selected (row_get r "Host country")) df)) /\
  (forall s, isin_cell selected (CStr s) = true <-> CStr s ∈ selected) /\
  (forall out r, apply_filters L ui df = ok out ->
     row_get r "Host country" = CStr "CL; EG" ->
     CStr "CL; EG" ∉ selected -> r ∉ rows out).
Proof.
  intros Hcol Hne selected.
  assert (Hact : active ui df "Host country" "Host Party" = true).
  { unfold active. rewrite Hcol. simpl.
    now destruct (multiselect_value ui "Host Party"). }
  assert (Hkept : forall out r, apply_filters L ui df = ok out -> r ∈ rows out ->
            isin_cell selected (row_get r "Host country") = true).
  { intros out r Hout Hr.
    destruct (apply_filters_rows L ui df out r Hout Hr) as [_ Hp].
    apply (passes_categorical_one ui df r ("Host country", "Host Party")) in Hp.
    - unfold passes_one in Hp; simpl in Hp. now rewrite Hact in Hp.
    - unfold categorical. rewrite !elem_of_cons. auto. }
  split; [exact Hkept |]. split; [| split].
  - intros Hs Hothers Hq. rewrite apply_filters_spec, Hs. unfold text_active.
    rewrite Hq; simpl. rewrite andb_false_r. f_equal.
    apply keep_rows_ext. intros r _.
    unfold passes_categorical, categorical, forallb, passes_one; simpl.
    rewrite Hact. unfold active.
    rewrite (Hothers "Region"), (Hothers "Sub-region"),
      (Hothers "Activity Type (Type)"), (Hothers "Tech Type (Type.1)"),
      (Hothers "Transition Request"), (Hothers "Methodology after transition"),
      (Hothers "Approved by Host Party") by discriminate.
    simpl. rewrite !andb_false_r. simpl. now rewrite andb_true_r.
  - intros s. apply isin_cell_text.
  - intros out r Hout Hcell Hnot Hr.
    specialize (Hkept out r Hout Hr). rewrite Hcell in Hkept.
    now apply isin_cell_text in Hkept.
Qed.

Lemma C10_host_filter_whole_cell_witness :
  let ui := Tables.pick "Host Party" [CStr "CL"; CStr "ID"] "" in
  let selected := multiselect_value ui "Host Party" in
  (forall out r, apply_filters Sample.libs ui Tables.regions = ok out -> r ∈ rows out ->
     isin_cell selected (row_get r "Host country") = true) /\
  (options_sortable Tables.regions = true ->
   (forall label, label <> "Host Party" -> multiselect_value ui label = []) ->
   title_query ui = "" ->
   apply_filters Sample.libs ui Tables.regions =
     ok (keep_rows (fun r => isin_cell selected (row_get r "Host country"))
           Tables.regions)) /\
  (forall s, isin_cell selected (CStr s) = true <-> CStr s ∈ selected) /\
  (forall out r, apply_filters Sample.libs ui Tables.regions = ok out ->
     row_get r "Host country" = CStr "CL; EG" ->
     CStr "CL; EG" ∉ selected -> r ∉ rows out).
Proof.
  apply (C10_host_filter_whole_cell Sample.libs
           (Tables.pick "Host Party" [CStr "CL"; CStr "ID"] "") Tables.regions).
  - reflexivity.
  - discriminate.
Defined.

Lemma filter_sublist_impl {A} (p q : A -> bool) (l : list A) :
  (forall x, x ∈ l -> p x = true -> q x = true) ->
  sublist (List.filter p l) (List.filter q l).
Proof.
  induction l as [|x l IH]; intros H; simpl; [constructor |].
  assert (IH' : sublist (List.filter p l) (List.filter q l)).
  { apply IH. intros y Hy. apply H. now right. }
  destruct (p x) eqn:Hp.
  - rewrite (H x) by (auto; left). now constructor.
  - destruct (q x); [now constructor | exact IH'].
Qed.

Lemma narrows_passes ui1 ui2 df r :
  narrows ui1 ui2 ->
  passes_categorical ui2 df r = true -> passes_categorical ui1 df r = true.
Proof.
  intros [Hsel _]. unfold passes_categorical. rewrite !forallb_forall.
  intros H f Hf. specialize (H f Hf). unfold passes_one, active in *.
  destruct (Hsel f.2) as [-> | [Hne Hsub]].
  - simpl. now rewrite andb_false_r.
  - destruct (has_column df f.1); [| reflexivity].
    assert (E2 : nonempty (multiselect_value ui2 f.2) = true)
      by now destruct (multiselect_value ui2 f.2).
    rewrite E2 in H. cbn [andb negb orb] in H.
    rewrite (isin_cell_mono _ _ _ Hsub H). apply orb_true_r.
Qed.

(** C7 as amended: when the second sidebar adds constraints to the first
    (a predicate the first leaves empty, a non-empty selection drawn from
    the first's, a text query where the first has none), the table the
    second gives is a sub-sequence of the table the first gives and so has
    no more records; the first returns a table whenever the second does,
    and the second does whenever the widgets can be drawn (no categorical
    column holds both a text and a number) and its query is accepted by
    the pattern compiler or the text predicate is not in use. *)
Theorem C7_filter_narrowing (L : Libs) (ui1 ui2 : Sidebar) (df : DataFrame) :
  narrows ui1 ui2 ->
  (forall t1 t2, apply_filters L ui1 df = ok t1 -> apply_filters L ui2 df = ok t2 ->
     sublist (rows t2) (rows t1) /\ (length (rows t2) <= length (rows t1))%nat) /\
  (forall t2, apply_filters L ui2 df = ok t2 -> exists t1, apply_filters L ui1 df = ok t1) /\
  (options_sortable df = true ->
   text_active ui2 df = false \/ query_accepted L ui2 ->
     exists t1 t2, apply_filters L ui1 df = ok t1 /\ apply_filters L ui2 df = ok t2 /\
                   (length (rows t2) <= length (rows t1))%nat).
Proof.
  intros Hn.
  assert (Hp := fun r => narrows_passes ui1 ui2 df r Hn).
  assert (Hret : forall t2, apply_filters L ui2 df = ok t2 ->
            exists t1, apply_filters L ui1 df = ok t1).
  { intros t2. rewrite !apply_filters_spec.
    destruct (options_sortable df); [| discriminate]. destruct Hn as [_ [Hq | Hq]].
    - unfold text_active at 2. rewrite Hq; simpl. rewrite andb_false_r. eauto.
    - unfold text_active. rewrite Hq. destruct (_ && _); [| eauto].
      destruct (re_compile_ignorecase L _); simpl; [discriminate | eauto]. }
  assert (Hsub : forall t1 t2, apply_filters L ui1 df = ok t1 ->
            apply_filters L ui2 df = ok t2 -> sublist (rows t2) (rows t1)).
  { intros t1 t2. rewrite !apply_filters_spec.
    destruct (options_sortable df); [| discriminate]. destruct Hn as [_ Hq].
    assert (Hcases : text_active ui1 df = false \/
              (text_active ui1 df = true /\ text_active ui2 df = true /\
               title_query ui2 = title_query ui1)).
    { destruct Hq as [Hq | Hq].
      - left. unfold text_active. rewrite Hq. apply andb_false_r.
      - destruct (text_active ui1 df) eqn:E; [| now left]. right.
        unfold text_active in *. now rewrite Hq. }
    destruct Hcases as [-> | (-> & -> & ->)].
    - intros [= <-]. destruct (text_active ui2 df).
      + destruct (re_compile_ignorecase L _) as [e|m]; simpl; [discriminate |].
        intros [= <-]. apply filter_sublist_impl.
        intros r _ H. apply andb_prop in H as [H _]. now apply Hp.
      + intros [= <-]. apply filter_sublist_impl. intros r _. apply Hp.
    - destruct (re_compile_ignorecase L _) as [e|m]; simpl; [discriminate |].
      intros [= <-] [= <-]. apply filter_sublist_impl.
      intros r _ H. apply andb_prop in H as [H ->]. now rewrite Hp. }
  split; [| split].
  - intros t1 t2 H1 H2. split; [now apply Hsub |].
    apply sublist_length. now apply Hsub.
  - exact Hret.
  - intros Hs Hok.
    assert (H2 : exists t2, apply_filters L ui2 df = ok t2)
      by now apply apply_filters_returns.
    destruct H2 as [t2 H2]. destruct (Hret t2 H2) as [t1 H1].
    exists t1, t2. repeat split; try assumption.
    apply sublist_length. now apply Hsub.
Qed.

Lemma C7_filter_narrowing_witness :
  (forall t1 t2,
     apply_filters Sample.libs (Tables.pick "Region" [CStr "Asia"; CStr "Africa"] "")
       Tables.regions = ok t1 ->
     apply_filters Sample.libs (Tables.pick "Region" [CStr "Asia"] "")
       Tables.regions = ok t2 ->
     sublist (rows t2) (rows t1) /\ (length (rows t2) <= length (rows t1))%nat) /\
  (forall t2,
     apply_filters Sample.libs (Tables.pick "Region" [CStr "Asia"] "")
       Tables.regions = ok t2 ->
     exists t1,
       apply_filters Sample.libs (Tables.pick "Region" [CStr "Asia"; CStr "Africa"] "")
         Tables.regions = ok t1) /\
  (options_sortable Tables.regions = true ->
   text_active (Tables.pick "Region" [CStr "Asia"] "") Tables.regions = false \/
   query_accepted Sample.libs (Tables.pick "Region" [CStr "Asia"] "") ->
   exists t1 t2,
     apply_filters Sample.libs (Tables.pick "Region" [CStr "Asia"; CStr "Africa"] "")
       Tables.regions = ok t1 /\
     apply_filters Sample.libs (Tables.pick "Region" [CStr "Asia"] "")
       Tables.regions = ok t2 /\
     (length (rows t2) <= length (rows t1))%nat).
Proof.
  apply (C7_filter_narrowing Sample.libs
           (Tables.pick "Region" [CStr "Asia"; CStr "Africa"] "")
           (Tables.pick "Region" [CStr "Asia"] "") Tables.regions).
  split.
  - intros label. unfold Tables.pick; simpl.
    destruct (String.eqb label "Region"); [right | left; reflexivity].
    split; [discriminate |]. intros c Hc. apply list_elem_of_singleton in Hc.
    subst c. left.
  - right. reflexivity.
Defined.

(** C7 as stated fails when the smaller selected set is the empty one:
    with "Asia" selected the table keeps one record, with the selection
    emptied it keeps both. *)
Lemma C7_emptied_selection_counterexample :
  (forall label c,
     c ∈ multiselect_value (Tables.pick "Region" [] "") label ->
     c ∈ multiselect_value (Tables.pick "Region" [CStr "Asia"] "") label) /\
  exists t1 t2,
    apply_filters Sample.libs (Tables.pick "Region" [CStr "Asia"] "") Tables.regions
      = ok t1 /\
    apply_filters Sample.libs (Tables.pick "Region" [] "") Tables.regions = ok t2 /\
    length (rows t1) = 1%nat /\ length (rows t2) = 2%nat.
Proof.
  split.
  - intros label c. unfold Tables.pick; simpl.
    destruct (String.eqb label "Region"); intros H; now apply elem_of_nil in H.
  - eexists. eexists. repeat split; vm_compute; reflexivity.
Qed.

(** C8: a table that [apply_filters] returns has the columns of the loaded
    table and a sub-sequence of its records, each as it was. When the page
    script returns, the figures it shows (number selected, the two counts
    of "yes", the sum of reductions) and its detail table are those of the
    filtered table, the loaded table and every other object that was in
    the store are as they were, and the filtered table is still the object
    the filter made: the expansion worked on objects of its own. The
    script returns whenever the filter does and the host-country column
    is there; the filter does when the widgets can be drawn (no
    categorical column holds both a text and a number) and the query is
    accepted. *)
Theorem C8_subset_and_no_feedback (L : Libs) (ui : Sidebar) (s : Store) (p : nat)
  (t : DataFrame) :
  s !! p = Some (Frame t) ->
  (forall f, apply_filters L ui t = ok f ->
     columns f = columns t /\ sublist (rows f) (rows t) /\
     (forall r, r ∈ rows f -> r ∈ rows t)) /\
  (forall pg s', page L ui p s = inr (pg, s') ->
     exists f,
       apply_filters L ui t = ok f /\
       total_selected pg = length (rows f) /\
       requested_transition pg = count_yes L f "Transition Request" /\
       approved_yes pg = count_yes L f "Approved by Host Party" /\
       reductions_sum pg = sum_numeric L f "Reductions (ktCO2e/yr)" /\
       details pg = getitem_columns f (cols_show f) /\
       (forall q o, s !! q = Some o -> s' !! q = Some o) /\
       s' !! length s = Some (Frame f)) /\
  (options_sortable t = true ->
   (text_active ui t = false \/ query_accepted L ui) ->
   has_column t "Host country" = true ->
   exists pg s', page L ui p s = inr (pg, s')).
Proof.
  intros Hp. split; [| split].
  - intros f Hf. destruct (apply_filters_sub L ui t f Hf) as [Hc Hs].
    repeat split; try assumption.
    intros r Hr. eapply elem_of_sublist; eassumption.
  - intros pg s' Hpage.
    destruct (apply_filters L ui t) as [e|f] eqn:Hf.
    { rewrite (page_filter_raises L ui s p t e Hp Hf) in Hpage. discriminate. }
    destruct (has_column f "Host country") eqn:Hcol.
    2: { rewrite (page_no_host_column L ui s p t f Hp Hf Hcol) in Hpage. discriminate. }
    destruct (page_run L ui s p t f Hp Hf Hcol) as (o1 & o2 & Hrun).
    rewrite Hrun in Hpage. injection Hpage as <- <-.
    exists f. repeat split.
    + intros q o Hq. now apply lookup_app_l_Some.
    + now apply list_lookup_middle.
  - intros Hs Hok Hcol.
    destruct (apply_filters_returns L ui t Hs Hok) as [f Hf].
    destruct (apply_filters_sub L ui t f Hf) as [Hc _].
    assert (Hcol' : has_column f "Host country" = true).
    { unfold has_column in *. now rewrite Hc. }
    destruct (page_run L ui s p t f Hp Hf Hcol') as (o1 & o2 & Hrun).
    eauto.
Qed.

Lemma C8_subset_and_no_feedback_witness :
  (forall f, apply_filters Sample.libs empty_sidebar Tables.regions = ok f ->
     columns f = columns Tables.regions /\ sublist (rows f) (rows Tables.regions) /\
     (forall r, r ∈ rows f -> r ∈ rows Tables.regions)) /\
  (forall pg s',
     page Sample.libs empty_sidebar 0 [Frame Tables.regions] = inr (pg, s') ->
     exists f,
       apply_filters Sample.libs empty_sidebar Tables.regions = ok f /\
       total_selected pg = length (rows f) /\
       requested_transition pg = count_yes Sample.libs f "Transition Request" /\
       approved_yes pg = count_yes Sample.libs f "Approved by Host Party" /\
       reductions_sum pg = sum_numeric Sample.libs f "Reductions (ktCO2e/yr)" /\
       details pg = getitem_columns f (cols_show f) /\
       (forall q o, [Frame Tables.regions] !! q = Some o -> s' !! q = Some o) /\
       s' !! length [Frame Tables.regions] = Some (Frame f)) /\
  (options_sortable Tables.regions = true ->
   (text_active empty_sidebar Tables.regions = false \/
    query_accepted Sample.libs empty_sidebar) ->
   has_column Tables.regions "Host country" = true ->
   exists pg s', page Sample.libs empty_sidebar 0 [Frame Tables.regions] = inr (pg, s')).
Proof.
  apply (C8_subset_and_no_feedback Sample.libs empty_sidebar
           [Frame Tables.regions] 0 Tables.regions).
  reflexivity.
Defined.

(** C3: what the components do on a table that lacks a column they read.
    [filt] returns its table as it is, the count of "yes" and the sum of
    the page are zero, but [make_exploded_for_geo] reads the host-country
    column without asking whether it is there: on a table without it the
    expansion raises [KeyError], and so does the page script whenever the
    filter returned. *)
Theorem C3_missing_columns (L : Libs) (s : Store) (p : nat) (t : DataFrame) :
  s !! p = Some (Frame t) ->
  (forall col selected, has_column t col = false -> filt col selected t = ok t) /\
  (forall col, has_column t col = false ->
     (if has_column t col then
        bind (frame_getitem p col)
          (fun series => ret (count_true
             (eq_text (str_map Py.lower (astype_str L series)) "yes")))
      else ret 0%nat) s = inr (0%nat, s) /\
     (if has_column t col then
        bind (frame_getitem p col)
          (fun series => ret (series_sum (fillna 0%Q (to_numeric L series))))
      else ret 0%Q) s = inr (0%Q, s)) /\
  (has_column t "Host country" = false ->
     make_exploded_for_geo L p s = raise (KeyError "Host country") /\
     forall ui f, apply_filters L ui t = ok f ->
       page L ui p s = raise (KeyError "Host country")).
Proof.
  intros Hp. split; [| split].
  - intros col selected Hc. rewrite filt_spec, Hc. now rewrite andb_false_r.
  - intros col Hc. rewrite Hc. split; reflexivity.
  - intros Hc. split.
    + now apply (make_exploded_for_geo_no_column L s p t).
    + intros ui f Hf. apply (page_no_host_column L ui s p t f Hp Hf).
      destruct (apply_filters_sub L ui t f Hf) as [Hcols _].
      unfold has_column in *. now rewrite Hcols.
Qed.

Lemma C3_missing_columns_witness :
  (forall col selected, has_column Tables.example_as_written col = false ->
     filt col selected Tables.example_as_written = ok Tables.example_as_written) /\
  (forall col, has_column Tables.example_as_written col = false ->
     (if has_column Tables.example_as_written col then
        bind (frame_getitem 0 col)
          (fun series => ret (count_true
             (eq_text (str_map Py.lower (astype_str Sample.libs series)) "yes")))
      else ret 0%nat) [Frame Tables.example_as_written]
       = inr (0%nat, [Frame Tables.example_as_written]) /\
     (if has_column Tables.example_as_written col then
        bind (frame_getitem 0 col)
          (fun series => ret (series_sum (fillna 0%Q (to_numeric Sample.libs series))))
      else ret 0%Q) [Frame Tables.example_as_written]
       = inr (0%Q, [Frame Tables.example_as_written])) /\
  (has_column Tables.example_as_written "Host country" = false ->
     make_exploded_for_geo Sample.libs 0 [Frame Tables.example_as_written]
       = raise (KeyError "Host country") /\
     forall ui f, apply_filters Sample.libs ui Tables.example_as_written = ok f ->
       page Sample.libs ui 0 [Frame Tables.example_as_written]
         = raise (KeyError "Host country")).
Proof.
  apply (C3_missing_columns Sample.libs [Frame Tables.example_as_written] 0
           Tables.example_as_written).
  reflexivity.
Defined.

(** C9 as amended: the two activities of the example under the column
    names the program reads ("Host country", "Reductions (ktCO2e/yr)"),
    nothing selected, over a database that knows the three two-letter
    codes and a number parser that reads "12.5" as 12.5 and declines
    "bad": the page shows two selected, one transition request, a sum of
    12.5, and the expansion counts one activity each for IDN, CHL, EGY. *)
Theorem C9_end_to_end (L : Libs) :
  alpha_3 <$> get_alpha_2 (countries L) "ID" = Some "IDN" ->
  alpha_3 <$> get_alpha_2 (countries L) "CL" = Some "CHL" ->
  alpha_3 <$> get_alpha_2 (countries L) "EG" = Some "EGY" ->
  (exists q, to_number L "12.5" = Some q /\ (q == 12.5)%Q) ->
  to_number L "bad" = None ->
  exists pg s',
    page L empty_sidebar 0 [Frame Tables.example_as_read] = inr (pg, s') /\
    total_selected pg = 2%nat /\
    requested_transition pg = 1%nat /\
    (reductions_sum pg == 12.5)%Q /\
    geo_counts pg = {[ "IDN" := 1%nat; "CHL" := 1%nat; "EGY" := 1%nat ]}.
Proof.
  intros Hid Hcl Heg (q & Hq & Hval) Hbad.
  assert (Hf : apply_filters L empty_sidebar Tables.example_as_read
               = ok Tables.example_as_read)
    by (apply apply_filters_nothing; reflexivity).
  destruct (page_run L empty_sidebar [Frame Tables.example_as_read] 0 _ _
              eq_refl Hf eq_refl) as (o1 & o2 & Hrun).
  eexists. eexists. split; [exact Hrun |].
  split; [reflexivity |]. split; [reflexivity |]. split.
  - unfold page_of, reductions_sum, sum_numeric.
    change (has_column Tables.example_as_read "Reductions (ktCO2e/yr)") with true.
    cbv iota.
    change (map _ (rows Tables.example_as_read))
      with [default 0%Q (to_number L "12.5"); default 0%Q (to_number L "bad")].
    rewrite Hq, Hbad. unfold series_sum; simpl fold_left.
    rewrite Hval. reflexivity.
  - unfold page_of, geo_counts, country_counts, geo_table; simpl rows.
    rewrite !expand_record_tokens, !row_get_insert.
    change (split_countries L (CStr "ID")) with ["ID"].
    change (split_countries L (CStr "CL; EG")) with ["CL"; "EG"].
    unfold tag_resolved, flat_map.
    rewrite (resolve_two_letter _ (Py.strip "ID") "IDN") by (reflexivity || exact Hid).
    rewrite (resolve_two_letter _ (Py.strip "CL") "CHL") by (reflexivity || exact Hcl).
    rewrite (resolve_two_letter _ (Py.strip "EG") "EGY") by (reflexivity || exact Heg).
    unfold tagged. simpl app. simpl map. rewrite !row_get_insert.
    vm_compute. reflexivity.
Qed.

Lemma C9_end_to_end_witness :
  exists pg s',
    page Sample.libs empty_sidebar 0 [Frame Tables.example_as_read] = inr (pg, s') /\
    total_selected pg = 2%nat /\
    requested_transition pg = 1%nat /\
    (reductions_sum pg == 12.5)%Q /\
    geo_counts pg = {[ "IDN" := 1%nat; "CHL" := 1%nat; "EGY" := 1%nat ]}.
Proof.
  apply (C9_end_to_end Sample.libs).
  - reflexivity.
  - reflexivity.
  - reflexivity.
  - exists (125 # 10)%Q. split; reflexivity.
  - reflexivity.
Defined.

(** C9 as stated, on the table written with the columns "Host Party" and
    "Reductions": the filter returns the two activities, but the sum is
    taken of the column "Reductions (ktCO2e/yr)", which this table lacks,
    and is zero, and the expansion looks for the column "Host country":
    the page script ends on [KeyError] and shows no figure at all. *)
Lemma C9_columns_as_written_counterexample :
  apply_filters Sample.libs empty_sidebar Tables.example_as_written
    = ok Tables.example_as_written /\
  sum_numeric Sample.libs Tables.example_as_written "Reductions (ktCO2e/yr)" = 0%Q /\
  has_column Tables.example_as_written "Host country" = false /\
  make_exploded_for_geo Sample.libs 0 [Frame Tables.example_as_written]
    = raise (KeyError "Host country") /\
  page Sample.libs empty_sidebar 0 [Frame Tables.example_as_written]
    = raise (KeyError "Host country").
Proof. repeat split; vm_compute; reflexivity. Qed.

(** * Further properties of the program *)

(** ** Text *)

Lemma lstrip_idem s : Py.lstrip (Py.lstrip s) = Py.lstrip s.
Proof.
  induction s as [|a s IH]; [reflexivity |]. simpl.
  destruct (Py.is_space a) eqn:E; [exact IH |]. simpl. now rewrite E.
Qed.

(** What [rstrip] leaves ends on a character that is not white space. *)
Lemma rstrip_cons a s :
  Py.rstrip (String a s) =
    match Py.rstrip s with
    | EmptyString => if Py.is_space a then EmptyString else String a EmptyString
    | r => String a r
    end.
Proof. reflexivity. Qed.

Lemma rstrip_idem s : Py.rstrip (Py.rstrip s) = Py.rstrip s.
Proof.
  induction s as [|a s IH]; [reflexivity |].
  rewrite rstrip_cons. destruct (Py.rstrip s) as [|b r] eqn:E.
  - destruct (Py.is_space a) eqn:Ea; [reflexivity |].
    rewrite rstrip_cons. simpl. now rewrite Ea.
  - rewrite rstrip_cons, IH. reflexivity.
Qed.

(** A text that does not start with white space still does not after
    [rstrip], unless nothing is left. *)
Lemma lstrip_rstrip_lstrip s :
  Py.lstrip (Py.rstrip (Py.lstrip s)) = Py.rstrip (Py.lstrip s).
Proof.
  induction s as [|a s IH]; [reflexivity |].
  destruct (Py.is_space a) eqn:E.
  - assert (Hl : Py.lstrip (String a s) = Py.lstrip s) by (simpl; now rewrite E).
    now rewrite Hl.
  - assert (Hl : Py.lstrip (String a s) = String a s) by (simpl; now rewrite E).
    rewrite Hl, rstrip_cons.
    destruct (Py.rstrip s); [rewrite E |]; simpl; now rewrite E.
Qed.

Lemma strip_idem s : Py.strip (Py.strip s) = Py.strip s.
Proof. unfold Py.strip. now rewrite lstrip_rstrip_lstrip, rstrip_idem. Qed.

Lemma length_map_chars f s : String.length (Py.map_chars f s) = String.length s.
Proof. induction s as [|a s IH]; simpl; [reflexivity | now rewrite IH]. Qed.

Ltac ascii_cases a := destruct a as [[] [] [] [] [] [] [] []]; reflexivity.

Lemma is_space_upper_char a : Py.is_space (Py.upper_char a) = Py.is_space a.
Proof. ascii_cases a. Qed.

Lemma is_alpha_upper_char a : Py.is_alpha (Py.upper_char a) = Py.is_alpha a.
Proof. ascii_cases a. Qed.

Lemma upper_char_idem a : Py.upper_char (Py.upper_char a) = Py.upper_char a.
Proof. ascii_cases a. Qed.

Lemma lower_upper_char a : Py.lower_char (Py.upper_char a) = Py.lower_char a.
Proof. ascii_cases a. Qed.

Lemma lstrip_upper s : Py.lstrip (Py.upper s) = Py.upper (Py.lstrip s).
Proof.
  unfold Py.upper. induction s as [|a s IH]; [reflexivity |]. simpl.
  rewrite is_space_upper_char. now destruct (Py.is_space a).
Qed.

Lemma rstrip_upper s : Py.rstrip (Py.upper s) = Py.upper (Py.rstrip s).
Proof.
  induction s as [|a s IH]; [reflexivity |].
  change (Py.upper (String a s)) with (String (Py.upper_char a) (Py.upper s)).
  rewrite !rstrip_cons, IH, is_space_upper_char.
  destruct (Py.rstrip s); [now destruct (Py.is_space a) | reflexivity].
Qed.

Lemma strip_upper s : Py.strip (Py.upper s) = Py.upper (Py.strip s).
Proof. unfold Py.strip. now rewrite lstrip_upper, rstrip_upper. Qed.

Lemma upper_idem s : Py.upper (Py.upper s) = Py.upper s.
Proof.
  unfold Py.upper. induction s as [|a s IH]; [reflexivity |]. simpl.
  now rewrite upper_char_idem, IH.
Qed.

Lemma lower_upper s : Py.lower (Py.upper s) = Py.lower s.
Proof.
  unfold Py.upper, Py.lower. induction s as [|a s IH]; [reflexivity |]. simpl.
  now rewrite lower_upper_char, IH.
Qed.

Lemma isalpha_upper s : Py.isalpha (Py.upper s) = Py.isalpha s.
Proof.
  destruct s as [|a s]; [reflexivity |]. unfold Py.isalpha. simpl.
  rewrite is_alpha_upper_char. f_equal.
  induction s as [|b s IH]; [reflexivity |]. simpl.
  now rewrite is_alpha_upper_char, IH.
Qed.

Lemma strip_blank s : Py.all_chars Py.is_space s = true -> Py.strip s = "".
Proof.
  unfold Py.strip. induction s as [|a s IH]; [reflexivity |]. simpl.
  intros H. apply andb_prop in H as [Ha Hs]. rewrite Ha. now apply IH.
Qed.

(** ** The resolver, continued *)

(** Every key of the alias table has more than three characters. *)
Lemma alias_key_long k v : dict_get SPECIAL_ISO3 k = Some v -> (3 < String.length k)%nat.
Proof.
  intros H. apply dict_get_Some in H. revert H.
  unfold SPECIAL_ISO3. rewrite !elem_of_cons, elem_of_nil.
  intros H. repeat (destruct H as [[= -> _] | H]; [simpl; lia |]).
  contradiction.
Qed.

Lemma alias_none_short t : (String.length t <= 3)%nat -> dict_get SPECIAL_ISO3 t = None.
Proof.
  intros H. destruct (dict_get SPECIAL_ISO3 t) eqn:E; [| reflexivity].
  apply alias_key_long in E. lia.
Qed.

(** A token is skipped exactly when, in lower case, it is one of the three
    words. *)
Lemma skipped_iff t :
  skipped t = true <->
  Py.lower t = "multiple" \/ Py.lower t = "" \/ Py.lower t = "nan".
Proof.
  unfold skipped, in_tuple. simpl. rewrite !orb_true_iff, !String.eqb_eq.
  intuition discriminate.
Qed.

Lemma two_letters_not_skipped t : String.length t = 2%nat -> skipped t = false.
Proof.
  intros H. destruct (skipped t) eqn:E; [| reflexivity].
  apply skipped_iff in E.
  assert (Hl : String.length (Py.lower t) = 2%nat)
    by (unfold Py.lower; now rewrite length_map_chars).
  destruct E as [E | [E | E]]; rewrite E in Hl; discriminate.
Qed.

(** ** Splitting *)

Lemma split_length sep s : length (Py.split sep s) = S (count_char sep s).
Proof.
  induction s as [|a s IH]; [reflexivity |]. simpl.
  destruct (Ascii.eqb a sep); simpl; [now rewrite IH |].
  destruct (Py.split sep s); simpl in *; [discriminate | exact IH].
Qed.

Lemma split_no_sep sep s :
  Forall (fun piece => Py.has_char sep piece = false) (Py.split sep s).
Proof.
  induction s as [|a s IH]; simpl; [repeat constructor |].
  destruct (Ascii.eqb a sep) eqn:E; [constructor; [reflexivity | exact IH] |].
  destruct (Py.split sep s) as [|piece rest].
  - repeat constructor. simpl. now rewrite E.
  - inversion IH; subst. constructor; [| assumption]. simpl. now rewrite E.
Qed.

Lemma has_char_lstrip sep s : Py.has_char sep s = false -> Py.has_char sep (Py.lstrip s) = false.
Proof.
  induction s as [|a s IH]; [reflexivity |]. simpl.
  destruct (Ascii.eqb a sep) eqn:E; [discriminate |]. intros H.
  destruct (Py.is_space a); [now apply IH |]. simpl. now rewrite E.
Qed.

Lemma has_char_rstrip sep s : Py.has_char sep s = false -> Py.has_char sep (Py.rstrip s) = false.
Proof.
  induction s as [|a s IH]; [reflexivity |]. rewrite rstrip_cons.
  simpl. destruct (Ascii.eqb a sep) eqn:E; [discriminate |]. intros H.
  specialize (IH H). destruct (Py.rstrip s).
  - destruct (Py.is_space a); [reflexivity |]. simpl. now rewrite E.
  - simpl. now rewrite E.
Qed.

Lemma has_char_strip sep s : Py.has_char sep s = false -> Py.has_char sep (Py.strip s) = false.
Proof. intros H. unfold Py.strip. now apply has_char_rstrip, has_char_lstrip. Qed.

(** ** The filter, continued *)

Lemma passes_categorical_columns ui df1 df2 r :
  columns df1 = columns df2 ->
  passes_categorical ui df1 r = passes_categorical ui df2 r.
Proof.
  intros H. unfold passes_categorical, passes_one, active, has_column. now rewrite H.
Qed.

Lemma text_active_columns ui df1 df2 :
  columns df1 = columns df2 -> text_active ui df1 = text_active ui df2.
Proof. intros H. unfold text_active, has_column. now rewrite H. Qed.

(** On all tables with the same columns whose widgets can be drawn, a
    sidebar either makes [apply_filters] raise the same exception or makes
    it keep the records that pass one and the same test. *)
Lemma apply_filters_as_test (L : Libs) ui df :
  (exists e, forall df', columns df' = columns df -> options_sortable df' = true ->
     apply_filters L ui df' = inl e) \/
  (exists test, forall df', columns df' = columns df -> options_sortable df' = true ->
     apply_filters L ui df' = ok (keep_rows test df')).
Proof.
  destruct (text_active ui df) eqn:Ht.
  - destruct (re_compile_ignorecase L (title_query ui)) as [e|m] eqn:Hm.
    + left. exists e. intros df' Hc Hs. rewrite apply_filters_spec, Hs.
      now rewrite (text_active_columns ui df' df Hc), Ht, Hm.
    + right.
      exists (fun r => passes_categorical ui df r && title_matches L m r).
      intros df' Hc Hs. rewrite apply_filters_spec, Hs.
      rewrite (text_active_columns ui df' df Hc), Ht, Hm. simpl. f_equal.
      apply keep_rows_ext. intros r _.
      now rewrite (passes_categorical_columns ui df' df r Hc).
  - right. exists (passes_categorical ui df). intros df' Hc Hs.
    rewrite apply_filters_spec, Hs, (text_active_columns ui df' df Hc), Ht. f_equal.
    apply keep_rows_ext. intros r _. apply passes_categorical_columns, Hc.
Qed.

Lemma keep_rows_idem p df : keep_rows p (keep_rows p df) = keep_rows p df.
Proof.
  rewrite keep_rows_twice. apply keep_rows_ext. intros r _. now destruct (p r).
Qed.

Lemma keep_rows_swap p q df :
  keep_rows q (keep_rows p df) = keep_rows p (keep_rows q df).
Proof.
  rewrite !keep_rows_twice. apply keep_rows_ext. intros r _. apply andb_comm.
Qed.

Lemma passes_categorical_forall ui df r :
  passes_categorical ui df r = true <->
  forall col label, (col, label) ∈ categorical ->
    has_column df col = true -> multiselect_value ui label <> [] ->
    isin_cell (multiselect_value ui label) (row_get r col) = true.
Proof.
  unfold passes_categorical. rewrite forallb_forall. split.
  - intros H col label Hin Hcol Hne.
    specialize (H (col, label)). rewrite <- list_elem_of_In in H.
    specialize (H Hin). unfold passes_one, active in H. simpl in H.
    rewrite Hcol in H. destruct (multiselect_value ui label); [contradiction |].
    exact H.
  - intros H [col label] Hin. apply list_elem_of_In in Hin.
    unfold passes_one, active; simpl.
    destruct (has_column df col) eqn:Hcol; [| reflexivity].
    destruct (multiselect_value ui label) as [|c l] eqn:Hsel; [reflexivity |].
    rewrite <- Hsel. rewrite (H col label Hin Hcol); [apply orb_true_r |].
    now rewrite Hsel.
Qed.

Lemma forallb_pointwise {A} (f g : A -> bool) (l : list A) :
  (forall x, f x = g x) -> forallb f l = forallb g l.
Proof. intros H. induction l as [|x l IH]; simpl; [reflexivity | now rewrite H, IH]. Qed.

(** ** Expansion, continued *)

Lemma resolve_Some db tok code3 :
  resolve db (Py.strip tok) = Some code3 <-> token_to_iso3 db tok = ok (Some code3).
Proof.
  unfold resolve. unfold token_to_iso3 at 1. rewrite strip_idem.
  fold (token_to_iso3 db tok). rewrite token_to_iso3_resolve. unfold ok.
  split; [now intros -> | now intros [= ->]].
Qed.

Lemma elem_of_expand_record (L : Libs) r r' :
  r' ∈ expand_record L r <->
  exists tok code3,
    tok ∈ split_countries L (row_get r "Host country") /\
    token_to_iso3 (countries L) tok = ok (Some code3) /\
    r' = tagged r tok code3.
Proof.
  rewrite expand_record_tokens. unfold tag_resolved.
  rewrite list_elem_of_In, List.in_flat_map. split.
  - intros (tok & Hin & Hr').
    destruct (resolve (countries L) (Py.strip tok)) as [code3|] eqn:E; [| destruct Hr'].
    destruct Hr' as [<- | []]. exists tok, code3.
    split; [now apply list_elem_of_In |]. split; [now apply resolve_Some | reflexivity].
  - intros (tok & code3 & Hin & Hres & ->). exists tok.
    split; [now apply list_elem_of_In |].
    apply resolve_Some in Hres. rewrite Hres. now left.
Qed.

Lemma tagged_cells r tok code3 :
  row_get (tagged r tok code3) "host_token" = CStr tok /\
  row_get (tagged r tok code3) "country_clean" = CStr (Py.strip tok) /\
  row_get (tagged r tok code3) "iso3" = CStr code3 /\
  (forall c, c ∉ geo_columns -> tagged r tok code3 !! c = r !! c).
Proof.
  unfold tagged, row_get, geo_columns. repeat split.
  - now rewrite lookup_insert_ne, lookup_insert_ne, lookup_insert_eq.
  - now rewrite lookup_insert_ne, lookup_insert_eq.
  - now rewrite lookup_insert_eq.
  - intros c Hc. rewrite !elem_of_cons, elem_of_nil in Hc.
    rewrite !lookup_insert_ne; [reflexivity | ..]; intros <-; tauto.
Qed.

Lemma split_countries_stripped (L : Libs) val t :
  t ∈ split_countries L val -> Py.strip t = t.
Proof.
  unfold split_countries. destruct (isna val); [intros H; now apply elem_of_nil in H |].
  destruct (Py.has_char ";" (cell_str L val)).
  - rewrite list_elem_of_In, List.filter_In, List.in_map_iff.
    intros [(piece & <- & _) _]. apply strip_idem.
  - intros H. apply list_elem_of_singleton in H. subst t. apply strip_idem.
Qed.

Lemma split_countries_length (L : Libs) val :
  (length (split_countries L val) <= S (count_char ";" (cell_str L val)))%nat.
Proof.
  unfold split_countries. destruct (isna val); [simpl; lia |].
  destruct (Py.has_char ";" (cell_str L val)); [| simpl; lia].
  etransitivity; [apply List.filter_length_le |].
  now rewrite length_map, split_length.
Qed.

Lemma tag_resolved_length db r toks : (length (tag_resolved db r toks) <= length toks)%nat.
Proof.
  unfold tag_resolved. induction toks as [|tok toks IH]; simpl; [lia |].
  rewrite length_app. destruct (resolve db (Py.strip tok)); simpl; lia.
Qed.

Lemma flat_map_length_sum {A B} (f : A -> list B) (g : A -> nat) (l : list A) :
  (forall x, (length (f x) <= g x)%nat) ->
  (length (flat_map f l) <= list_sum (map g l))%nat.
Proof.
  intros H. induction l as [|x l IH]; simpl; [lia |].
  rewrite length_app. specialize (H x). lia.
Qed.

Lemma add_column_elem cols col c : c ∈ add_column cols col <-> c ∈ cols \/ c = col.
Proof.
  unfold add_column. case_bool_decide as H.
  - split; [auto |]. intros [Hc | ->]; assumption.
  - rewrite elem_of_app, list_elem_of_singleton. tauto.
Qed.

Lemma add_column_prefix cols col : cols `prefix_of` add_column cols col.
Proof.
  unfold add_column. case_bool_decide; [reflexivity |]. now exists [col].
Qed.

Lemma add_column_NoDup cols col : NoDup cols -> NoDup (add_column cols col).
Proof.
  intros H. unfold add_column. case_bool_decide as Hin; [exact H |].
  apply NoDup_app. split; [exact H |]. split; [| apply NoDup_singleton].
  intros x Hx Hx'. apply list_elem_of_singleton in Hx'. now subst.
Qed.

(** ** The page script, continued *)

(** What a run of the page that returns has done. *)
Lemma page_inv (L : Libs) ui (s s' : Store) p t pg :
  s !! p = Some (Frame t) ->
  page L ui p s = inr (pg, s') ->
  exists f o1 o2,
    apply_filters L ui t = ok f /\
    has_column f "Host country" = true /\
    pg = page_of L f /\
    s' = s ++ [Frame f; o1; o2; Frame (geo_table L f)].
Proof.
  intros Hp Hpage.
  destruct (apply_filters L ui t) as [e|f] eqn:Hf.
  { rewrite (page_filter_raises L ui s p t e Hp Hf) in Hpage. discriminate. }
  destruct (has_column f "Host country") eqn:Hcol.
  2: { rewrite (page_no_host_column L ui s p t f Hp Hf Hcol) in Hpage. discriminate. }
  destruct (page_run L ui s p t f Hp Hf Hcol) as (o1 & o2 & Hrun).
  rewrite Hrun in Hpage. injection Hpage as <- <-.
  exists f, o1, o2. auto.
Qed.

(** *** Counting by key *)

Lemma count_key_lookup (m : gmap string nat) c k :
  default 0%nat (count_key m c !! k) =
    (default 0%nat (m !! k) + if cell_eqb c (CStr k) then 1 else 0)%nat.
Proof.
  destruct c as [x| |]; simpl; try lia.
  destruct (String.eqb_spec x k) as [-> | Hne].
  - rewrite lookup_insert_eq. simpl. lia.
  - rewrite lookup_insert_ne by exact Hne. lia.
Qed.

Lemma count_key_positive (m : gmap string nat) c :
  (forall k n, m !! k = Some n -> (0 < n)%nat) ->
  forall k n, count_key m c !! k = Some n -> (0 < n)%nat.
Proof.
  intros H k n. destruct c as [x| |]; simpl; try apply H.
  destruct (decide (x = k)) as [-> | Hne].
  - rewrite lookup_insert_eq. intros [= <-]. lia.
  - rewrite lookup_insert_ne by exact Hne. apply H.
Qed.

Lemma fold_count_key_lookup (cells : list Cell) (m : gmap string nat) k :
  default 0%nat (fold_left count_key cells m !! k) =
    (default 0%nat (m !! k) +
     length (List.filter (fun c => cell_eqb c (CStr k)) cells))%nat.
Proof.
  revert m. induction cells as [|c cells IH]; intros m; simpl; [lia |].
  rewrite IH, count_key_lookup. destruct (cell_eqb c (CStr k)); simpl; lia.
Qed.

Lemma fold_count_key_positive (cells : list Cell) (m : gmap string nat) :
  (forall k n, m !! k = Some n -> (0 < n)%nat) ->
  forall k n, fold_left count_key cells m !! k = Some n -> (0 < n)%nat.
Proof.
  revert m. induction cells as [|c cells IH]; intros m H; simpl; [exact H |].
  apply IH. now apply count_key_positive.
Qed.

Lemma total_count_insert_fresh (m : gmap string nat) k n :
  m !! k = None -> total_count (<[k := n]> m) = (n + total_count m)%nat.
Proof.
  intros H. unfold total_count.
  assert (Hp : map snd (map_to_list (<[k := n]> m)) ≡ₚ map snd ((k, n) :: map_to_list m)).
  { apply Permutation_map. now apply map_to_list_insert. }
  now rewrite (Permutation_list_sum Hp).
Qed.

Lemma total_count_bump (m : gmap string nat) k :
  total_count (<[k := S (default 0%nat (m !! k))]> m) = S (total_count m).
Proof.
  destruct (m !! k) as [n|] eqn:E; simpl.
  - rewrite <- (insert_delete_id m k n E) at 2.
    rewrite <- insert_delete_eq.
    rewrite !total_count_insert_fresh by apply lookup_delete_eq. lia.
  - now rewrite total_count_insert_fresh.
Qed.

Lemma fold_count_key_total (cells : list Cell) (m : gmap string nat) :
  total_count (fold_left count_key cells m) =
    (total_count m + length (List.filter is_text cells))%nat.
Proof.
  revert m. induction cells as [|c cells IH]; intros m; simpl; [lia |].
  rewrite IH. destruct c as [x|q|]; simpl; try lia.
  rewrite total_count_bump. lia.
Qed.

Lemma filter_map_length {A B} (p : B -> bool) (f : A -> B) (l : list A) :
  length (List.filter p (map f l)) = length (List.filter (fun x => p (f x)) l).
Proof.
  induction l as [|x l IH]; simpl; [reflexivity |].
  destruct (p (f x)); simpl; now rewrite IH.
Qed.

Lemma filter_all_length {A} (p : A -> bool) (l : list A) :
  (forall x, x ∈ l -> p x = true) -> length (List.filter p l) = length l.
Proof.
  induction l as [|x l IH]; intros H; simpl; [reflexivity |].
  rewrite (H x) by left. simpl. f_equal. apply IH. intros y Hy. apply H. now right.
Qed.

(** Every record of an expanded table carries a code. *)
Lemma geo_table_iso3_text (L : Libs) t r' :
  r' ∈ rows (geo_table L t) -> is_text (row_get r' "iso3") = true.
Proof.
  unfold geo_table; simpl. rewrite list_elem_of_In, List.in_flat_map.
  intros (r & _ & Hr'). apply list_elem_of_In, elem_of_expand_record in Hr'.
  destruct Hr' as (tok & code3 & _ & _ & ->).
  destruct (tagged_cells r tok code3) as (_ & _ & -> & _). reflexivity.
Qed.

(** *** The columns of the detail table *)



Lemma nonempty_same_elements {A} (l1 l2 : list A) :
  (forall x, x ∈ l1 <-> x ∈ l2) -> nonempty l1 = nonempty l2.
Proof.
  intros H. destruct l1 as [|x l1], l2 as [|y l2]; try reflexivity.
  - exfalso. eapply not_elem_of_nil. apply H. left.
  - exfalso. eapply not_elem_of_nil. apply H. left.
Qed.

(** ** The options of a widget, continued *)

(** An option is the cell of some record of the table. *)
Lemma options_are_cells df col opts :
  multiselect_opts df col = ok (Some opts) ->
  has_column df col = true /\
  forall o, o ∈ opts -> exists r, r ∈ rows df /\ row_get r col = o.
Proof.
  unfold multiselect_opts. destruct (has_column df col) eqn:Hc; simpl; [| discriminate].
  rewrite (getitem_present df col Hc), rbind_ok.
  set (series := map (fun r => row_get r col) (rows df)).
  destruct (sorted_unique_dropna series) as [[_ Hs] | [_ (opts' & Hs & Hp & Ha)]];
    rewrite Hs; simpl; [discriminate |].
  intros [= <-]. split; [reflexivity |]. intros o Ho. rewrite Hp in Ho.
  destruct (unique_dropna_spec series) as (H1 & _ & _).
  destruct (H1 o Ho) as [Hin _]. unfold series in Hin.
  apply list_elem_of_In, List.in_map_iff in Hin as (r & <- & Hr).
  exists r. split; [now apply list_elem_of_In | reflexivity].
Qed.

(** ** Loading the sheet *)

Lemma stripped_names_no_padding (cols : list string) c :
  c ∈ map Py.strip cols -> Py.strip c = c.
Proof.
  rewrite list_elem_of_In, List.in_map_iff. intros (raw & <- & _). apply strip_idem.
Qed.

(** Stripping the labels: done when every label is a text, an
    [AttributeError] otherwise. *)
Lemma strip_labels_texts (names : list string) :
  strip_labels (map CStr names) = ok (map Py.strip names).
Proof.
  induction names as [|n names IH]; [reflexivity |]. simpl. now rewrite IH.
Qed.

Lemma strip_labels_not_text (ls : list Cell) l :
  l ∈ ls -> is_text l = false -> strip_labels ls = raise attribute_error.
Proof.
  induction ls as [|x ls IH]; intros Hin Hl; [now apply elem_of_nil in Hin |].
  apply elem_of_cons in Hin as [<- | Hin].
  - destruct l; [discriminate | reflexivity | reflexivity].
  - destruct x; try reflexivity. simpl. now rewrite (IH Hin Hl).
Qed.

Lemma strip_labels_cases (ls : list Cell) :
  (exists names, ls = map CStr names /\ strip_labels ls = ok (map Py.strip names)) \/
  ((exists l, l ∈ ls /\ is_text l = false) /\ strip_labels ls = raise attribute_error).
Proof.
  induction ls as [|x ls IH].
  { left. now exists []. }
  destruct x as [s|q|].
  - destruct IH as [(names & -> & H) | [(l & Hl & Tl) H]].
    + left. exists (s :: names). split; [reflexivity |]. apply (strip_labels_texts (s :: names)).
    + right. split; [exists l; split; [now right | exact Tl] |]. simpl. now rewrite H.
  - right. split; [exists (CNum q); split; [left | reflexivity] | reflexivity].
  - right. split; [exists CNaN; split; [left | reflexivity] | reflexivity].
Qed.

(** The cells of the table under a name are those the sheet has in the
    column of that number. *)
Lemma with_columns_cells (sheet : Sheet) (names : list string) i n :
  NoDup names -> names !! i = Some n ->
  column_cells (with_columns sheet names) n = sheet_column sheet i.
Proof.
  intros Hnd Hi. unfold column_cells, with_columns, sheet_column. cbn [rows].
  rewrite List.map_map. apply List.map_ext. intros cs. unfold row_get. f_equal.
  destruct (cs !! i) as [c|] eqn:Hc.
  - apply elem_of_list_to_map_1'.
    + intros y Hy. apply list_elem_of_lookup in Hy as [j Hj].
      apply lookup_zip_Some in Hj as [Hj1 Hj2].
      assert (j = i) by (eapply NoDup_lookup; eauto). subst j. congruence.
    + apply list_elem_of_lookup. exists i. now apply lookup_zip_Some.
  - apply not_elem_of_list_to_map_1. intros Hin.
    apply list_elem_of_fmap in Hin as ([n' y] & Hn & Hy). simpl in Hn. subst n'.
    apply list_elem_of_lookup in Hy as [j Hj].
    apply lookup_zip_Some in Hj as [Hj1 Hj2].
    assert (j = i) by (eapply NoDup_lookup; eauto). subst j. congruence.
Qed.

Lemma assign_cells_length l col series :
  length series = length l -> length (assign_cells l col series) = length l.
Proof.
  revert series. induction l as [|r l IH]; intros [|c series]; simpl; try discriminate; auto.
Qed.

Lemma assign_cells_column l col series c :
  length series = length l ->
  map (fun r => row_get r c) (assign_cells l col series) =
    if String.eqb c col then series else map (fun r => row_get r c) l.
Proof.
  revert series. induction l as [|r l IH]; intros [|x series]; simpl; try discriminate.
  - intros _. now destruct (String.eqb c col).
  - intros [= H]. rewrite (IH series H). unfold row_get at 1.
    destruct (String.eqb_spec c col) as [E | Hne].
    + rewrite E. now rewrite lookup_insert_eq.
    + rewrite lookup_insert_ne by congruence. reflexivity.
Qed.

Section LoaderFacts.

Variable to_datetime : list Cell -> list Cell.

Lemma parse_dates_in_columns df col :
  exists df', parse_dates_in to_datetime df col = ok df' /\ columns df' = columns df.
Proof.
  unfold parse_dates_in. destruct (has_column df col) eqn:H; [| eauto].
  rewrite (getitem_present df col H), rbind_ok. eexists. split; [reflexivity |].
  unfold setitem; simpl. now rewrite H.
Qed.

Lemma for_each_parse_columns cols df :
  exists df', for_each cols (parse_dates_in to_datetime) df = ok df' /\
              columns df' = columns df.
Proof.
  revert df. induction cols as [|col cols IH]; intros df; simpl; [eauto |].
  destruct (parse_dates_in_columns df col) as (d1 & -> & H1). rewrite rbind_ok.
  destruct (IH d1) as (d2 & -> & H2). exists d2. split; [reflexivity | congruence].
Qed.

Hypothesis to_datetime_length : forall series, length (to_datetime series) = length series.

Lemma parse_dates_in_cells df col :
  exists df',
    parse_dates_in to_datetime df col = ok df' /\
    columns df' = columns df /\
    length (rows df') = length (rows df) /\
    forall c, column_cells df' c =
      if has_column df col && String.eqb c col
      then to_datetime (column_cells df col) else column_cells df c.
Proof.
  unfold parse_dates_in. destruct (has_column df col) eqn:H.
  - rewrite (getitem_present df col H), rbind_ok. eexists. split; [reflexivity |].
    unfold setitem, column_cells; simpl. rewrite H. split; [reflexivity |].
    split.
    + apply assign_cells_length. now rewrite to_datetime_length, length_map.
    + intros c. simpl. apply assign_cells_column.
      now rewrite to_datetime_length, length_map.
  - exists df. repeat split.
Qed.

Lemma for_each_parse_cells cols df :
  NoDup cols ->
  exists df',
    for_each cols (parse_dates_in to_datetime) df = ok df' /\
    columns df' = columns df /\
    length (rows df') = length (rows df) /\
    forall c, column_cells df' c =
      if has_column df c && bool_decide (c ∈ cols)
      then to_datetime (column_cells df c) else column_cells df c.
Proof.
  revert df. induction cols as [|col cols IH]; intros df Hnd; simpl.
  { exists df. repeat split. intros c. now rewrite andb_false_r. }
  apply NoDup_cons in Hnd as [Hnot Hnd].
  destruct (parse_dates_in_cells df col) as (d1 & -> & Hc1 & Hl1 & Hcells1).
  rewrite rbind_ok.
  destruct (IH d1 Hnd) as (d2 & -> & Hc2 & Hl2 & Hcells2).
  exists d2. split; [reflexivity |]. split; [congruence |]. split; [congruence |].
  intros c. rewrite Hcells2, !Hcells1.
  assert (Hh : has_column d1 c = has_column df c) by (unfold has_column; now rewrite Hc1).
  rewrite Hh. destruct (String.eqb_spec c col) as [-> | Hne].
  - rewrite (bool_decide_false (col ∈ cols)) by exact Hnot.
    rewrite (bool_decide_true (col ∈ col :: cols)) by left.
    rewrite andb_false_r. reflexivity.
  - rewrite !andb_false_r.
    rewrite (bool_decide_ext (c ∈ col :: cols) (c ∈ cols)); [reflexivity |].
    rewrite elem_of_cons. tauto.
Qed.

End LoaderFacts.

Lemma date_columns_NoDup : NoDup date_columns.
Proof.
  unfold date_columns. repeat (apply NoDup_cons; split); try apply NoDup_nil;
    rewrite ?elem_of_cons, ?elem_of_nil; intuition discriminate.
Qed.

(** After the names are stripped no column starts with a space, so the
    test that guards the renaming of the reductions column fails. *)
Lemma load_data_no_rename read_excel to_datetime path :
  load_data read_excel to_datetime path = read_and_clean read_excel to_datetime path.
Proof.
  unfold load_data.
  destruct (read_and_clean read_excel to_datetime path) as [e|df] eqn:Hr; [reflexivity |].
  rewrite rbind_ok.
  assert (Hno : has_column df " Reductions (ktCO2e/yr)" = false); [| now rewrite Hno].
  unfold read_and_clean in Hr. destruct (read_excel path) as [e|sheet]; [discriminate |].
  rewrite rbind_ok in Hr.
  destruct (strip_labels_cases (labels sheet)) as [(names & _ & Hn) | [_ Hn]];
    rewrite Hn in Hr; [| discriminate].
  rewrite rbind_ok in Hr. cbv zeta in Hr.
  destruct (for_each_parse_columns to_datetime date_columns
              (with_columns sheet (map Py.strip names))) as (d & Hd & Hcols).
  rewrite Hd in Hr. injection Hr as <-.
  unfold has_column. rewrite Hcols. simpl. apply bool_decide_false.
  intros Hin. apply stripped_names_no_padding in Hin. discriminate Hin.
Qed.

(** ** The bar chart *)

Lemma descending_tail x l : descending (x :: l) -> descending l.
Proof. destruct l; [auto | now intros [_ H]]. Qed.

Lemma descending_head_max x l y : descending (x :: l) -> y ∈ l -> (y.2 <= x.2)%nat.
Proof.
  revert x. induction l as [|z l IH]; intros x Hd Hy; [now apply elem_of_nil in Hy |].
  destruct Hd as [Hzx Hd]. apply elem_of_cons in Hy as [-> | Hy]; [exact Hzx |].
  specialize (IH z Hd Hy). lia.
Qed.

Lemma descending_split l1 l2 a b :
  descending (l1 ++ l2) -> a ∈ l1 -> b ∈ l2 -> (b.2 <= a.2)%nat.
Proof.
  induction l1 as [|x l1 IH]; intros Hd Ha Hb; [now apply elem_of_nil in Ha |].
  apply elem_of_cons in Ha as [-> | Ha].
  - apply (descending_head_max x (l1 ++ l2)); [exact Hd |]. apply elem_of_app. now right.
  - apply IH; [| exact Ha | exact Hb]. now apply (descending_tail x).
Qed.

Lemma descending_take n l : descending l -> descending (take n l).
Proof.
  revert l. induction n as [|n IH]; intros [|x l] Hd; simpl; auto.
  specialize (IH l (descending_tail x l Hd)).
  destruct l as [|y l]; [now destruct n |].
  destruct n; simpl in *; [exact I |]. split; [apply Hd | exact IH].
Qed.

Lemma sample_insert_desc x l :
  SampleSort.insert_desc x l ≡ₚ x :: l /\
  (descending l -> descending (SampleSort.insert_desc x l)).
Proof.
  induction l as [|y l [IHp IHd]]; simpl; [split; auto |].
  destruct (Nat.leb_spec y.2 x.2) as [Hle | Hlt].
  - split; [reflexivity |]. intros Hd. simpl. auto.
  - split; [rewrite IHp; apply perm_swap |]. intros Hd.
    specialize (IHd (descending_tail y l Hd)).
    destruct (SampleSort.insert_desc x l) as [|h t] eqn:E; [exact I |].
    split; [| exact IHd].
    assert (Hh : h ∈ x :: l) by (rewrite <- IHp; left).
    apply elem_of_cons in Hh as [-> | Hh]; [lia |].
    now apply (descending_head_max y l).
Qed.

Lemma sample_sort_values_law : sort_values_law SampleSort.sort_values.
Proof.
  intros l. unfold SampleSort.sort_values.
  induction l as [|x l [IHp IHd]]; simpl; [split; auto |].
  destruct (sample_insert_desc x (foldr SampleSort.insert_desc [] l)) as [Hp Hd].
  split; [now rewrite Hp, IHp | auto].
Defined.

(** The table of sizes of a column: a value has an entry exactly when a
    record carries it, and the entry is the number of those records. *)
Lemma groupby_size_lookup df col sizes k :
  groupby_size df col = ok sizes ->
  sizes !! k = if (0 <? rows_with df col k)%nat then Some (rows_with df col k) else None.
Proof.
  unfold groupby_size. destruct (getitem df col) as [e|s] eqn:Hg; [discriminate |].
  rewrite rbind_ok. intros [= <-].
  assert (Hs : s = map (fun r => row_get r col) (rows df)).
  { unfold getitem in Hg. destruct (has_column df col); [| discriminate].
    now injection Hg as <-. }
  pose proof (fold_count_key_lookup s ∅ k) as Hl.
  rewrite lookup_empty in Hl. simpl in Hl.
  assert (Hc : length (List.filter (fun c => cell_eqb c (CStr k)) s) = rows_with df col k).
  { rewrite Hs. apply filter_map_length. }
  rewrite Hc in Hl.
  destruct (fold_left count_key s ∅ !! k) as [n|] eqn:E; simpl in Hl.
  - assert (0 < n)%nat.
    { apply (fold_count_key_positive s ∅) with (k := k); [| exact E].
      intros k' n'. now rewrite lookup_empty. }
    rewrite <- Hl. destruct (Nat.ltb_spec 0 n); [reflexivity | lia].
  - rewrite <- Hl. reflexivity.
Qed.

(** ** Codes and labels of the expanded table *)

Lemma resolved_code_valid db tok code3 :
  db_answers_from_records db ->
  (forall k c, (k, c) ∈ SPECIAL_ISO3 -> valid_iso3 db c) ->
  token_to_iso3 db tok = ok (Some code3) -> valid_iso3 db code3.
Proof.
  intros (Hg2 & Hg3 & Hlk) Halias Hres.
  destruct (token_to_iso3_cases db tok) as [H | (c & H & Hsrc)];
    rewrite H in Hres; [discriminate |].
  injection Hres as ->.
  destruct Hsrc as [[k Hk] | (v & rec & Hc & [H2 | [H3 | Hl]])].
  - eapply Halias, Hk.
  - exists rec. split; [eapply Hg2, H2 | exact Hc].
  - exists rec. split; [eapply Hg3, H3 | exact Hc].
  - exists rec. split; [eapply Hlk, Hl | exact Hc].
Qed.

Lemma geo_table_label_text (L : Libs) t r' :
  r' ∈ rows (geo_table L t) -> is_text (row_get r' "country_clean") = true.
Proof.
  unfold geo_table; simpl. rewrite list_elem_of_In, List.in_flat_map.
  intros (r & _ & Hr'). apply list_elem_of_In, elem_of_expand_record in Hr'.
  destruct Hr' as (tok & code3 & _ & _ & ->).
  destruct (tagged_cells r tok code3) as (_ & -> & _ & _). reflexivity.
Qed.

Lemma groupby_size_total df col :
  has_column df col = true ->
  (forall r, r ∈ rows df -> is_text (row_get r col) = true) ->
  exists sizes, groupby_size df col = ok sizes /\ total_count sizes = length (rows df).
Proof.
  intros Hc Htext. unfold groupby_size. rewrite (getitem_present df col Hc), rbind_ok.
  eexists. split; [reflexivity |].
  rewrite fold_count_key_total, filter_map_length.
  unfold total_count. rewrite map_to_list_empty. simpl.
  now apply filter_all_length.
Qed.

(** X1: white space around a token does not count: the resolver gives
    the stripped token the answer it gives the token, and a token made
    of white space only is unresolved without the database being asked. *)
Theorem X1_resolver_ignores_padding (db : CountryDB) (tok : string) :
  token_to_iso3 db (Py.strip tok) = token_to_iso3 db tok /\
  (Py.all_chars Py.is_space tok = true -> token_to_iso3 db tok = ok None).
Proof.
  split.
  - unfold token_to_iso3. now rewrite strip_idem.
  - intros H. apply token_to_iso3_skipped. now rewrite strip_blank.
Qed.

Lemma X1_resolver_ignores_padding_witness :
  token_to_iso3 Sample.db (Py.strip "   ") = token_to_iso3 Sample.db "   " /\
  (Py.all_chars Py.is_space "   " = true -> token_to_iso3 Sample.db "   " = ok None).
Proof. apply (X1_resolver_ignores_padding Sample.db "   "). Defined.

(** X2: a token that, once stripped, is two letters is resolved as a
    two-letter code and nothing else: the answer is the code of the record
    the database has under the token in upper case, or unresolved when it
    has none; the alias table and the lookup by name play no part, and the
    case of the letters does not matter. *)
Theorem X2_two_letter_tokens (db : CountryDB) (tok : string) :
  String.length (Py.strip tok) = 2%nat ->
  Py.isalpha (Py.strip tok) = true ->
  token_to_iso3 db tok = ok (alpha_3 <$> get_alpha_2 db (Py.upper (Py.strip tok))) /\
  token_to_iso3 db (Py.upper tok) = token_to_iso3 db tok.
Proof.
  intros Hlen Halpha.
  assert (Hcode : forall t, String.length (Py.strip t) = 2%nat ->
            Py.isalpha (Py.strip t) = true ->
            token_to_iso3 db t = ok (alpha_3 <$> get_alpha_2 db (Py.upper (Py.strip t)))).
  { intros t Hl Ha. apply token_to_iso3_alpha2.
    - now apply two_letters_not_skipped.
    - apply alias_none_short. lia.
    - unfold looks_like_code. rewrite Hl, Ha. reflexivity. }
  split; [now apply Hcode |].
  rewrite (Hcode tok Hlen Halpha), Hcode.
  - now rewrite strip_upper, upper_idem.
  - rewrite strip_upper. unfold Py.upper. now rewrite length_map_chars.
  - now rewrite strip_upper, isalpha_upper.
Qed.

Lemma X2_two_letter_tokens_witness :
  token_to_iso3 Sample.db " eg" =
    ok (alpha_3 <$> get_alpha_2 Sample.db (Py.upper (Py.strip " eg"))) /\
  token_to_iso3 Sample.db (Py.upper " eg") = token_to_iso3 Sample.db " eg".
Proof.
  apply (X2_two_letter_tokens Sample.db " eg"); reflexivity.
Defined.

(** X3: a token that, once stripped, is three letters is resolved as a
    three-letter code, checked against the database under its upper case,
    with one exception: the three letters "nan", in any case, are
    unresolved and the database is not asked. *)
Theorem X3_three_letter_tokens (db : CountryDB) (tok : string) :
  String.length (Py.strip tok) = 3%nat ->
  Py.isalpha (Py.strip tok) = true ->
  (Py.lower (Py.strip tok) = "nan" -> token_to_iso3 db tok = ok None) /\
  (Py.lower (Py.strip tok) <> "nan" ->
   token_to_iso3 db tok = ok (alpha_3 <$> get_alpha_3 db (Py.upper (Py.strip tok)))).
Proof.
  intros Hlen Halpha. split.
  - intros Hnan. apply token_to_iso3_skipped. apply skipped_iff. auto.
  - intros Hnan. apply token_to_iso3_alpha3.
    + destruct (skipped (Py.strip tok)) eqn:E; [| reflexivity].
      apply skipped_iff in E.
      assert (Hl : String.length (Py.lower (Py.strip tok)) = 3%nat)
        by (unfold Py.lower; now rewrite length_map_chars).
      destruct E as [E | [E | E]]; [rewrite E in Hl; discriminate .. | contradiction].
    + apply alias_none_short. lia.
    + unfold looks_like_code. now rewrite Hlen.
    + unfold looks_like_code. now rewrite Hlen, Halpha.
Qed.

Lemma X3_three_letter_tokens_witness :
  (Py.lower (Py.strip "NaN") = "nan" -> token_to_iso3 Sample.db "NaN" = ok None) /\
  (Py.lower (Py.strip "NaN") <> "nan" ->
   token_to_iso3 Sample.db "NaN" =
     ok (alpha_3 <$> get_alpha_3 Sample.db (Py.upper (Py.strip "NaN")))).
Proof.
  apply (X3_three_letter_tokens Sample.db "NaN"); reflexivity.
Defined.

(** X4: the tokens [split_countries] makes of a cell. A missing cell has
    none. Every token is stripped and holds no semicolon. A cell whose
    text holds a semicolon gives at most one token per piece, none of them
    empty or, in any case, "multiple"; a cell without a semicolon gives
    exactly one token, be it empty or "Multiple", and for a cell of ASCII
    text that token is its text without the surrounding white space. *)
Theorem X4_split_countries_tokens (L : Libs) (val : Cell) :
  (isna val = true -> split_countries L val = []) /\
  (forall t, t ∈ split_countries L val ->
     Py.strip t = t /\ Py.has_char ";" t = false) /\
  (isna val = false -> Py.has_char ";" (cell_str L val) = true ->
     (length (split_countries L val) <= S (count_char ";" (cell_str L val)))%nat /\
     forall t, t ∈ split_countries L val -> t <> "" /\ Py.lower t <> "multiple") /\
  (isna val = false -> Py.has_char ";" (cell_str L val) = false ->
     length (split_countries L val) = 1%nat /\
     (Py.isascii (cell_str L val) = true ->
      split_countries L val = [Py.strip (cell_str L val)])).
Proof.
  unfold split_countries. split; [| split; [| split]].
  - now intros ->.
  - intros t. destruct (isna val); [intros H; now apply elem_of_nil in H |].
    destruct (Py.has_char ";" (cell_str L val)) eqn:Hsemi.
    + rewrite list_elem_of_In, List.filter_In, List.in_map_iff.
      intros [(piece & <- & Hin) _]. split; [apply strip_idem |].
      apply has_char_strip.
      pose proof (split_no_sep ";" (cell_str L val)) as Hall.
      rewrite List.Forall_forall in Hall. now apply Hall.
    + intros H. apply list_elem_of_singleton in H. subst t.
      split; [apply strip_idem | now apply has_char_strip].
  - intros -> ->. split.
    + etransitivity; [apply List.filter_length_le |].
      now rewrite length_map, split_length.
    + intros t. rewrite list_elem_of_In, List.filter_In.
      intros [_ H]. apply andb_prop in H as [H1 H2].
      apply negb_true_iff in H1, H2. apply String.eqb_neq in H1, H2. now split.
  - intros -> ->. split; [reflexivity | now intros _].
Qed.

Lemma X4_split_countries_tokens_witness :
  (isna (CStr " Viet Nam ") = true ->
     split_countries Sample.libs (CStr " Viet Nam ") = []) /\
  (forall t, t ∈ split_countries Sample.libs (CStr " Viet Nam ") ->
     Py.strip t = t /\ Py.has_char ";" t = false) /\
  (isna (CStr " Viet Nam ") = false ->
   Py.has_char ";" (cell_str Sample.libs (CStr " Viet Nam ")) = true ->
     (length (split_countries Sample.libs (CStr " Viet Nam "))
      <= S (count_char ";" (cell_str Sample.libs (CStr " Viet Nam "))))%nat /\
     forall t, t ∈ split_countries Sample.libs (CStr " Viet Nam ") ->
       t <> "" /\ Py.lower t <> "multiple") /\
  length (split_countries Sample.libs (CStr " Viet Nam ")) = 1%nat /\
  split_countries Sample.libs (CStr " Viet Nam ") = ["Viet Nam"].
Proof.
  destruct (X4_split_countries_tokens Sample.libs (CStr " Viet Nam "))
    as (H1 & H2 & H3 & H4).
  destruct (H4 eq_refl eq_refl) as [H5 H6].
  split; [exact H1 |]. split; [exact H2 |]. split; [exact H3 |].
  split; [exact H5 | exact (H6 eq_refl)].
Defined.

(** X5: the predicates of the filter are joined by "and". A record is in
    the table [apply_filters] returns exactly when it is in the table
    given, its cell is among the selected values for every categorical
    filter whose column is there and whose selection is not empty, and,
    when the table has a Title column and a query is typed, its Title is a
    text once [astype(str)] has been applied and the compiled query
    matches that text. *)
Theorem X5_filter_conjunction (L : Libs) (ui : Sidebar) (df out : DataFrame) :
  apply_filters L ui df = ok out ->
  forall r,
    r ∈ rows out <->
    r ∈ rows df /\
    (forall col label, (col, label) ∈ categorical ->
       has_column df col = true -> multiselect_value ui label <> [] ->
       isin_cell (multiselect_value ui label) (row_get r col) = true) /\
    (text_active ui df = true ->
     exists m s, re_compile_ignorecase L (title_query ui) = inr m /\
                 cell_astype_str L (row_get r "Title") = CStr s /\
                 m s = true).
Proof.
  rewrite apply_filters_spec. destruct (options_sortable df); [| discriminate].
  intros H r. rewrite <- passes_categorical_forall.
  destruct (text_active ui df).
  - destruct (re_compile_ignorecase L (title_query ui)) as [e|m]; [discriminate |].
    simpl in H. injection H as <-. rewrite elem_of_keep_rows, andb_true_iff.
    unfold title_matches. split.
    + intros (Hr & Hp & Hm). repeat split; try assumption. intros _.
      destruct (cell_astype_str L (row_get r "Title")) as [s| |]; try discriminate.
      eauto.
    + intros (Hr & Hp & Hm). destruct (Hm eq_refl) as (m' & s & [= <-] & -> & Hm').
      now repeat split.
  - injection H as <-. rewrite elem_of_keep_rows. split.
    + intros (Hr & Hp). repeat split; try assumption. discriminate.
    + intros (Hr & Hp & _). now split.
Qed.

Lemma X5_filter_conjunction_witness :
  MoreTables.asia_record
    ∈ rows (mkDataFrame (columns Tables.regions) [MoreTables.asia_record]) <->
  MoreTables.asia_record ∈ rows Tables.regions /\
  (forall col label, (col, label) ∈ categorical ->
     has_column Tables.regions col = true ->
     multiselect_value (Tables.pick "Region" [CStr "Asia"] "gas") label <> [] ->
     isin_cell (multiselect_value (Tables.pick "Region" [CStr "Asia"] "gas") label)
       (row_get (MoreTables.asia_record) col) = true) /\
  (text_active (Tables.pick "Region" [CStr "Asia"] "gas") Tables.regions = true ->
   exists m s,
     re_compile_ignorecase Sample.libs
       (title_query (Tables.pick "Region" [CStr "Asia"] "gas")) = inr m /\
     cell_astype_str Sample.libs (row_get (MoreTables.asia_record) "Title") = CStr s /\
     m s = true).
Proof.
  apply (X5_filter_conjunction Sample.libs (Tables.pick "Region" [CStr "Asia"] "gas")
           Tables.regions
           (mkDataFrame (columns Tables.regions) [MoreTables.asia_record])).
  vm_compute. reflexivity.
Defined.

(** X6: filtering twice is filtering once, and the order of two filterings
    does not matter. The table a sidebar gives, filtered again with the
    same sidebar, comes back as it is; and filtering with one sidebar and
    then with another gives the table that the other order gives. *)
Theorem X6_filter_idempotent_commutes (L : Libs) (ui1 ui2 : Sidebar) (df a b : DataFrame) :
  apply_filters L ui1 df = ok a ->
  apply_filters L ui2 a = ok b ->
  apply_filters L ui1 a = ok a /\
  exists a', apply_filters L ui2 df = ok a' /\ apply_filters L ui1 a' = ok b.
Proof.
  intros H1 H2.
  destruct (apply_filters_sub L ui1 df a H1) as [Hca Hsa].
  pose proof (apply_filters_ok_sortable L ui1 df a H1) as Hs.
  pose proof (apply_filters_ok_sortable L ui2 a b H2) as Hs'.
  destruct (apply_filters_as_test L ui1 df) as [[e He] | [t1 Ht1]].
  { rewrite (He df eq_refl Hs) in H1. discriminate. }
  destruct (apply_filters_as_test L ui2 df) as [[e He] | [t2 Ht2]].
  { rewrite (He a Hca Hs') in H2. discriminate. }
  rewrite (Ht1 df eq_refl Hs) in H1. injection H1 as <-.
  rewrite (Ht2 _ Hca Hs') in H2. injection H2 as <-.
  split.
  - rewrite (Ht1 _ Hca Hs'). now rewrite keep_rows_idem.
  - exists (keep_rows t2 df). split; [now apply Ht2 |].
    rewrite (Ht1 (keep_rows t2 df) eq_refl).
    + now rewrite keep_rows_swap.
    + apply (options_sortable_sub df); [reflexivity | apply keep_rows_sublist | exact Hs].
Qed.

Lemma X6_filter_idempotent_commutes_witness :
  apply_filters Sample.libs (Tables.pick "Region" [CStr "Asia"] "")
    (keep_rows (fun r => isin_cell [CStr "Asia"] (row_get r "Region")) Tables.regions)
    = ok (keep_rows (fun r => isin_cell [CStr "Asia"] (row_get r "Region"))
            Tables.regions) /\
  exists a',
    apply_filters Sample.libs (Tables.pick "Region" [] "gas") Tables.regions = ok a' /\
    apply_filters Sample.libs (Tables.pick "Region" [CStr "Asia"] "") a'
      = ok (keep_rows (fun r => isin_cell [CStr "Asia"] (row_get r "Region"))
              Tables.regions).
Proof.
  apply (X6_filter_idempotent_commutes Sample.libs
           (Tables.pick "Region" [CStr "Asia"] "") (Tables.pick "Region" [] "gas")
           Tables.regions); reflexivity.
Defined.

(** X7: the two ways [apply_filters] fails. It raises [TypeError] when a
    categorical column of the table holds both a text and a number, since
    the options of its widget cannot be sorted; otherwise it raises
    exactly when the table has a Title column, a query is typed and the
    pattern compiler raises on the query, and the exception is the
    compiler's. So on a table whose widgets can be drawn and which has no
    Title column, or with no query typed, it returns a table whatever is
    selected; and it never raises for a missing column. *)
Theorem X7_filter_failure (L : Libs) (ui : Sidebar) (df : DataFrame) :
  (forall e, apply_filters L ui df = inl e <->
     (options_sortable df = false /\ e = type_error) \/
     (options_sortable df = true /\
      has_column df "Title" = true /\ title_query ui <> "" /\
      re_compile_ignorecase L (title_query ui) = inl e)) /\
  (options_sortable df = false <->
   exists f, f ∈ categorical /\ has_column df f.1 = true /\
             mixed (column_cells df f.1)) /\
  (options_sortable df = true ->
   has_column df "Title" = false \/ title_query ui = "" ->
   exists out, apply_filters L ui df = ok out).
Proof.
  split; [| split; [apply options_unsortable_mixed |]].
  - intros e. rewrite apply_filters_spec. destruct (options_sortable df).
    2: { split.
         - intros [= <-]. now left.
         - intros [[_ ->] | [H _]]; [reflexivity | discriminate]. }
    unfold text_active. destruct (has_column df "Title"); simpl.
    + destruct (String.eqb_spec (title_query ui) "") as [Hq | Hq]; simpl.
      * split; [discriminate |]. intros [[H _] | (_ & _ & H & _)];
          [discriminate | contradiction].
      * destruct (re_compile_ignorecase L (title_query ui)); simpl.
        -- split; [intros [= ->]; right; auto |].
           intros [[H _] | (_ & _ & _ & [= ->])]; [discriminate | reflexivity].
        -- split; [discriminate |].
           intros [[H _] | (_ & _ & _ & H)]; discriminate.
    + split; [discriminate |]. intros [[H _] | (_ & H & _)]; discriminate.
  - intros Hs H. apply apply_filters_returns; [exact Hs |]. left.
    unfold text_active. destruct H as [-> | H]; [reflexivity |].
    unfold title_query in *. rewrite H. apply andb_false_r.
Qed.

Lemma X7_filter_failure_witness :
  apply_filters Sample.libs (Tables.pick "Region" [] "a(") Tables.regions
    = inl (ReError "a(") /\
  apply_filters Sample.libs (Tables.pick "Region" [] "") Tables.mixed_region
    = inl type_error.
Proof.
  split.
  - apply (proj1 (X7_filter_failure Sample.libs (Tables.pick "Region" [] "a(")
                    Tables.regions)).
    right. repeat split. discriminate.
  - apply (proj1 (X7_filter_failure Sample.libs (Tables.pick "Region" [] "")
                    Tables.mixed_region)).
    left. split; reflexivity.
Defined.

Lemma lower_empty q : Py.lower q = "" -> q = "".
Proof. now destruct q. Qed.

(** X8: the text search does not see the case of letters. Over a pattern
    compiler that reads an ASCII pattern without special characters as
    plain text, on a table whose Titles are ASCII text, two sidebars with
    the same selections whose queries are ASCII, have no special
    character and differ only in the case of letters give the same table
    (or fail alike). *)
Theorem X8_query_case_insensitive (L : Libs) (ui1 ui2 : Sidebar) (df : DataFrame) :
  re_plain_law L ->
  (forall label, multiselect_value ui1 label = multiselect_value ui2 label) ->
  is_plain_pattern (title_query ui1) = true ->
  is_plain_pattern (title_query ui2) = true ->
  Py.isascii (title_query ui1) = true ->
  Py.isascii (title_query ui2) = true ->
  Py.lower (title_query ui1) = Py.lower (title_query ui2) ->
  (forall r, r ∈ rows df -> row_get r "Title" <> CNaN ->
     Py.isascii (cell_str L (row_get r "Title")) = true) ->
  apply_filters L ui1 df = apply_filters L ui2 df.
Proof.
  intros Hlaw Hsel Hp1 Hp2 Ha1 Ha2 Hlow Htitles. rewrite !apply_filters_spec.
  destruct (options_sortable df); [| reflexivity].
  assert (Hpass : forall r, passes_categorical ui1 df r = passes_categorical ui2 df r).
  { intros r. unfold passes_categorical, passes_one, active.
    apply forallb_pointwise. intros f. now rewrite Hsel. }
  assert (Hact : text_active ui1 df = text_active ui2 df).
  { unfold text_active. f_equal. f_equal.
    destruct (String.eqb_spec (title_query ui1) "") as [E1 | E1];
      destruct (String.eqb_spec (title_query ui2) "") as [E2 | E2]; try reflexivity.
    - rewrite E1 in Hlow. symmetry in Hlow. now apply lower_empty in Hlow.
    - rewrite E2 in Hlow. now apply lower_empty in Hlow. }
  rewrite <- Hact. destruct (text_active ui1 df).
  - destruct (Hlaw _ Hp1 Ha1) as (m1 & -> & Hm1).
    destruct (Hlaw _ Hp2 Ha2) as (m2 & -> & Hm2). simpl. f_equal.
    apply keep_rows_ext. intros r Hr. rewrite Hpass. f_equal.
    unfold title_matches.
    destruct (row_get r "Title") as [s|q|] eqn:Hc.
    + specialize (Htitles r Hr). rewrite Hc in Htitles.
      specialize (Htitles ltac:(discriminate)). cbn [cell_astype_str cell_str] in *.
      rewrite Hm1, Hm2 by exact Htitles. unfold contains_nocase. now rewrite Hlow.
    + specialize (Htitles r Hr). rewrite Hc in Htitles.
      specialize (Htitles ltac:(discriminate)). cbn [cell_astype_str cell_str] in *.
      rewrite Hm1, Hm2 by exact Htitles. unfold contains_nocase. now rewrite Hlow.
    + cbn [cell_astype_str]. destruct (astype_str_keeps_na L); [reflexivity |].
      rewrite Hm1, Hm2 by reflexivity. unfold contains_nocase. now rewrite Hlow.
  - f_equal. apply keep_rows_ext. intros r _. apply Hpass.
Qed.

Lemma X8_query_case_insensitive_witness :
  apply_filters Sample.libs (Tables.pick "Region" [] "BIOgas") Tables.regions =
  apply_filters Sample.libs (Tables.pick "Region" [] "bioGAS") Tables.regions.
Proof.
  apply (X8_query_case_insensitive Sample.libs); try reflexivity.
  - exact sample_plain_law.
  - intros r Hr Hna. unfold Tables.regions in Hr. cbn [rows] in Hr.
    rewrite !elem_of_cons, elem_of_nil in Hr.
    destruct Hr as [-> | [-> | []]]; [reflexivity |].
    exfalso. apply Hna. reflexivity.
Defined.

(** X9: a selection counts as a set. Two sidebars with the same query
    whose selections hold the same values, in whatever order and however
    often repeated, give the same table. *)
Theorem X9_selection_is_a_set (L : Libs) (ui1 ui2 : Sidebar) (df : DataFrame) :
  (forall label c, c ∈ multiselect_value ui1 label <-> c ∈ multiselect_value ui2 label) ->
  title_query ui1 = title_query ui2 ->
  apply_filters L ui1 df = apply_filters L ui2 df.
Proof.
  intros Hsel Hq. rewrite !apply_filters_spec.
  destruct (options_sortable df); [| reflexivity].
  assert (Hpass : forall r, passes_categorical ui1 df r = passes_categorical ui2 df r).
  { intros r. unfold passes_categorical, passes_one, active.
    apply forallb_pointwise. intros f.
    rewrite (nonempty_same_elements _ _ (Hsel f.2)).
    now rewrite (isin_cell_same_elements _ _ _ (Hsel f.2)). }
  unfold text_active. rewrite Hq.
  destruct (has_column df "Title" && negb (String.eqb (title_query ui2) "")).
  - destruct (re_compile_ignorecase L (title_query ui2)); [reflexivity |]. simpl.
    f_equal. apply keep_rows_ext. intros r _. now rewrite Hpass.
  - f_equal. apply keep_rows_ext. intros r _. apply Hpass.
Qed.

Lemma X9_selection_is_a_set_witness :
  apply_filters Sample.libs
    (Tables.pick "Region" [CStr "Asia"; CStr "Africa"; CStr "Asia"] "") Tables.regions =
  apply_filters Sample.libs
    (Tables.pick "Region" [CStr "Africa"; CStr "Asia"] "") Tables.regions.
Proof.
  apply (X9_selection_is_a_set Sample.libs); [| reflexivity].
  intros label c. unfold Tables.pick; simpl.
  destruct (String.eqb label "Region"); [| reflexivity].
  rewrite !elem_of_cons. tauto.
Defined.

(** X10: what the expanded table holds. On a table with the host-country
    column [make_exploded_for_geo] returns a table whose records are
    exactly, for each record of the table and each of its host tokens
    that the resolver resolves, the record with three cells set: the
    token under "host_token", the same token under "country_clean", its
    code under "iso3"; every other cell of the record is as it was, and no
    record of the result has a missing code. *)
Theorem X10_expanded_records (L : Libs) (s : Store) (p : nat) (t : DataFrame) :
  s !! p = Some (Frame t) ->
  has_column t "Host country" = true ->
  exists o1 o2 ex,
    make_exploded_for_geo L p s = inr (S (S (length s)), s ++ [o1; o2; Frame ex]) /\
    (forall r', r' ∈ rows ex <->
       exists r tok code3,
         r ∈ rows t /\
         tok ∈ split_countries L (row_get r "Host country") /\
         token_to_iso3 (countries L) tok = ok (Some code3) /\
         r' = tagged r tok code3) /\
    (forall r tok code3,
       tok ∈ split_countries L (row_get r "Host country") ->
       row_get (tagged r tok code3) "host_token" = CStr tok /\
       row_get (tagged r tok code3) "country_clean" = CStr tok /\
       row_get (tagged r tok code3) "iso3" = CStr code3 /\
       (forall c, c ∉ geo_columns -> tagged r tok code3 !! c = r !! c)).
Proof.
  intros Hp Hcol.
  destruct (make_exploded_for_geo_run L s p t Hp Hcol) as (o1 & o2 & Hrun).
  exists o1, o2, (geo_table L t). split; [exact Hrun |]. split.
  - intros r'. unfold geo_table; simpl.
    rewrite list_elem_of_In, List.in_flat_map. split.
    + intros (r & Hr & Hr'). apply list_elem_of_In in Hr'.
      apply elem_of_expand_record in Hr' as (tok & code3 & H1 & H2 & H3).
      exists r, tok, code3. split; [now apply list_elem_of_In | auto].
    + intros (r & tok & code3 & Hr & H1 & H2 & H3). exists r.
      split; [now apply list_elem_of_In |].
      apply list_elem_of_In, elem_of_expand_record. eauto.
  - intros r tok code3 Htok.
    destruct (tagged_cells r tok code3) as (H1 & H2 & H3 & H4).
    rewrite (split_countries_stripped L _ _ Htok) in H2. auto.
Qed.

Lemma X10_expanded_records_witness :
  exists o1 o2 ex,
    make_exploded_for_geo Sample.libs 0 [Frame Tables.regions]
      = inr (S (S (length [Frame Tables.regions])),
             [Frame Tables.regions] ++ [o1; o2; Frame ex]) /\
    (forall r', r' ∈ rows ex <->
       exists r tok code3,
         r ∈ rows Tables.regions /\
         tok ∈ split_countries Sample.libs (row_get r "Host country") /\
         token_to_iso3 (countries Sample.libs) tok = ok (Some code3) /\
         r' = tagged r tok code3) /\
    (forall r tok code3,
       tok ∈ split_countries Sample.libs (row_get r "Host country") ->
       row_get (tagged r tok code3) "host_token" = CStr tok /\
       row_get (tagged r tok code3) "country_clean" = CStr tok /\
       row_get (tagged r tok code3) "iso3" = CStr code3 /\
       (forall c, c ∉ geo_columns -> tagged r tok code3 !! c = r !! c)).
Proof.
  apply (X10_expanded_records Sample.libs [Frame Tables.regions] 0 Tables.regions);
    reflexivity.
Defined.

(** X11: the size of the expanded table. A record gives at most one
    expanded record per piece of its host-country text, so the expanded
    table has at most as many records as the table has records and
    semicolons in its host-country cells together; a table without
    records gives an expanded table without records. *)
Theorem X11_expansion_size (L : Libs) (s : Store) (p : nat) (t : DataFrame) :
  s !! p = Some (Frame t) ->
  has_column t "Host country" = true ->
  exists o1 o2 ex,
    make_exploded_for_geo L p s = inr (S (S (length s)), s ++ [o1; o2; Frame ex]) /\
    (length (rows ex) <=
       length (rows t) +
       list_sum (map (fun r => count_char ";" (cell_str L (row_get r "Host country")))
                   (rows t)))%nat /\
    (rows t = [] -> rows ex = []).
Proof.
  intros Hp Hcol.
  destruct (make_exploded_for_geo_run L s p t Hp Hcol) as (o1 & o2 & Hrun).
  exists o1, o2, (geo_table L t). split; [exact Hrun |]. split.
  - unfold geo_table; simpl.
    etransitivity.
    + apply (flat_map_length_sum _
               (fun r => S (count_char ";" (cell_str L (row_get r "Host country"))))).
      intros r. rewrite expand_record_tokens.
      etransitivity; [apply tag_resolved_length | apply split_countries_length].
    + induction (rows t) as [|r l IH]; simpl; lia.
  - unfold geo_table; simpl. now intros ->.
Qed.

Lemma X11_expansion_size_witness :
  exists o1 o2 ex,
    make_exploded_for_geo Sample.libs 0 [Frame Tables.regions]
      = inr (S (S (length [Frame Tables.regions])),
             [Frame Tables.regions] ++ [o1; o2; Frame ex]) /\
    (length (rows ex) <=
       length (rows Tables.regions) +
       list_sum (map (fun r => count_char ";"
                                 (cell_str Sample.libs (row_get r "Host country")))
                   (rows Tables.regions)))%nat /\
    (rows Tables.regions = [] -> rows ex = []).
Proof.
  apply (X11_expansion_size Sample.libs [Frame Tables.regions] 0 Tables.regions);
    reflexivity.
Defined.

(** X12: the columns of the expanded table are the columns of the table,
    in their order, followed by those of "host_token", "country_clean"
    and "iso3" that the table did not have; a column the table already
    had under one of these names is written over, not doubled. *)
Theorem X12_expansion_columns (L : Libs) (s : Store) (p : nat) (t : DataFrame) :
  s !! p = Some (Frame t) ->
  has_column t "Host country" = true ->
  exists o1 o2 ex,
    make_exploded_for_geo L p s = inr (S (S (length s)), s ++ [o1; o2; Frame ex]) /\
    columns t `prefix_of` columns ex /\
    (forall c, c ∈ columns ex <-> c ∈ columns t \/ c ∈ geo_columns) /\
    (NoDup (columns t) -> NoDup (columns ex)).
Proof.
  intros Hp Hcol.
  destruct (make_exploded_for_geo_run L s p t Hp Hcol) as (o1 & o2 & Hrun).
  exists o1, o2, (geo_table L t). split; [exact Hrun |].
  unfold geo_table; simpl. split; [| split].
  - etransitivity; [| apply add_column_prefix].
    etransitivity; [| apply add_column_prefix]. apply add_column_prefix.
  - intros c. rewrite !add_column_elem. unfold geo_columns.
    rewrite !elem_of_cons, elem_of_nil. tauto.
  - intros H. now do 3 apply add_column_NoDup.
Qed.

Lemma X12_expansion_columns_witness :
  exists o1 o2 ex,
    make_exploded_for_geo Sample.libs 0 [Frame Tables.regions]
      = inr (S (S (length [Frame Tables.regions])),
             [Frame Tables.regions] ++ [o1; o2; Frame ex]) /\
    columns Tables.regions `prefix_of` columns ex /\
    (forall c, c ∈ columns ex <-> c ∈ columns Tables.regions \/ c ∈ geo_columns) /\
    (NoDup (columns Tables.regions) -> NoDup (columns ex)).
Proof.
  apply (X12_expansion_columns Sample.libs [Frame Tables.regions] 0 Tables.regions);
    reflexivity.
Defined.

(** X13: the figures of the page are bounded by the size of what they
    count. When the page script returns, neither count of "yes" exceeds
    the number of selected records, which does not exceed the number of
    records of the loaded table; and when nothing is selected, both
    counts and the sum are zero and the map has no country. *)
Theorem X13_kpi_bounds (L : Libs) (ui : Sidebar) (s s' : Store) (p : nat)
  (t : DataFrame) (pg : Page) :
  s !! p = Some (Frame t) ->
  page L ui p s = inr (pg, s') ->
  (requested_transition pg <= total_selected pg)%nat /\
  (approved_yes pg <= total_selected pg)%nat /\
  (total_selected pg <= length (rows t))%nat /\
  (total_selected pg = 0%nat ->
   requested_transition pg = 0%nat /\ approved_yes pg = 0%nat /\
   reductions_sum pg = 0%Q /\ geo_counts pg = ∅).
Proof.
  intros Hp Hpage.
  destruct (page_inv L ui s s' p t pg Hp Hpage) as (f & o1 & o2 & Hf & _ & -> & _).
  destruct (apply_filters_sub L ui t f Hf) as [_ Hsub].
  unfold page_of; simpl. split; [| split; [| split]].
  - unfold count_yes. destruct (has_column f _); [apply List.filter_length_le | lia].
  - unfold count_yes. destruct (has_column f _); [apply List.filter_length_le | lia].
  - now apply sublist_length.
  - intros H. apply nil_length_inv in H.
    unfold count_yes, sum_numeric, country_counts, geo_table. rewrite H. simpl.
    repeat split; now destruct (has_column f _).
Qed.

Lemma X13_kpi_bounds_witness :
  (requested_transition (page_of Sample.libs Tables.example_as_read)
     <= total_selected (page_of Sample.libs Tables.example_as_read))%nat /\
  (approved_yes (page_of Sample.libs Tables.example_as_read)
     <= total_selected (page_of Sample.libs Tables.example_as_read))%nat /\
  (total_selected (page_of Sample.libs Tables.example_as_read)
     <= length (rows Tables.example_as_read))%nat /\
  (total_selected (page_of Sample.libs Tables.example_as_read) = 0%nat ->
   requested_transition (page_of Sample.libs Tables.example_as_read) = 0%nat /\
   approved_yes (page_of Sample.libs Tables.example_as_read) = 0%nat /\
   reductions_sum (page_of Sample.libs Tables.example_as_read) = 0%Q /\
   geo_counts (page_of Sample.libs Tables.example_as_read) = ∅).
Proof.
  destruct (page_run Sample.libs empty_sidebar [Frame Tables.example_as_read] 0
              Tables.example_as_read Tables.example_as_read eq_refl eq_refl eq_refl)
    as (o1 & o2 & Hrun).
  exact (X13_kpi_bounds Sample.libs empty_sidebar [Frame Tables.example_as_read] _ 0
           Tables.example_as_read _ eq_refl Hrun).
Defined.

(** X14: the counts behind the map. When the page script returns, the
    expanded table is the last object of the store, the count the map has
    for a code is the number of expanded records with that code, a code
    without expanded record has no entry, and the counts add up to the
    number of expanded records. *)
Theorem X14_geo_counts (L : Libs) (ui : Sidebar) (s s' : Store) (p : nat)
  (t : DataFrame) (pg : Page) :
  s !! p = Some (Frame t) ->
  page L ui p s = inr (pg, s') ->
  exists ex,
    s' !! (length s + 3)%nat = Some (Frame ex) /\
    (forall code3, default 0%nat (geo_counts pg !! code3) = rows_with ex "iso3" code3) /\
    (forall code3 n, geo_counts pg !! code3 = Some n -> (0 < n)%nat) /\
    total_count (geo_counts pg) = length (rows ex).
Proof.
  intros Hp Hpage.
  destruct (page_inv L ui s s' p t pg Hp Hpage) as (f & o1 & o2 & Hf & _ & -> & ->).
  exists (geo_table L f). split; [| split; [| split]].
  - unfold Store in *. rewrite lookup_app_r by lia.
    now replace (length s + 3 - length s)%nat with 3%nat by lia.
  - intros code3. unfold page_of, geo_counts, country_counts, rows_with.
    rewrite fold_count_key_lookup, lookup_empty. simpl.
    apply filter_map_length.
  - intros code3 n. unfold page_of, geo_counts, country_counts.
    apply fold_count_key_positive. intros k m. now rewrite lookup_empty.
  - unfold page_of, geo_counts, country_counts.
    rewrite fold_count_key_total, filter_map_length.
    unfold total_count. rewrite map_to_list_empty. simpl.
    apply filter_all_length. intros r Hr. now apply (geo_table_iso3_text L f).
Qed.

Lemma X14_geo_counts_witness :
  exists pg s' ex,
    page Sample.libs empty_sidebar 0 [Frame Tables.example_as_read] = inr (pg, s') /\
    s' !! (length [Frame Tables.example_as_read] + 3)%nat = Some (Frame ex) /\
    (forall code3, default 0%nat (geo_counts pg !! code3) = rows_with ex "iso3" code3) /\
    (forall code3 n, geo_counts pg !! code3 = Some n -> (0 < n)%nat) /\
    total_count (geo_counts pg) = length (rows ex).
Proof.
  destruct (page_run Sample.libs empty_sidebar [Frame Tables.example_as_read] 0
              Tables.example_as_read Tables.example_as_read eq_refl eq_refl eq_refl)
    as (o1 & o2 & Hrun).
  destruct (X14_geo_counts Sample.libs empty_sidebar [Frame Tables.example_as_read] _ 0
              Tables.example_as_read _ eq_refl Hrun) as (ex & H).
  eexists. eexists. exists ex. split; [exact Hrun | exact H].
Defined.



(** X16: when the options of a widget cannot be made. For a column the
    table lacks there is no widget and nothing fails. For a column of the
    table, the options are made exactly when the column does not hold both
    a text and a number; when it holds both, sorting the values raises
    [TypeError]. *)
Theorem X16_options_failure (df : DataFrame) (col : string) :
  (has_column df col = false -> multiselect_opts df col = ok None) /\
  (has_column df col = true ->
   exists series,
     getitem df col = ok series /\
     (mixed series -> multiselect_opts df col = inl type_error) /\
     (~ mixed series -> exists opts, multiselect_opts df col = ok (Some opts))).
Proof.
  unfold multiselect_opts. split.
  - now intros ->.
  - intros Hc. rewrite Hc. simpl negb. cbv iota.
    rewrite (getitem_present df col Hc), rbind_ok.
    eexists. split; [reflexivity |].
    destruct (sorted_unique_dropna (map (fun r => row_get r col) (rows df)))
      as [[Hm Hs] | [Hm (opts & Hs & _)]].
    + split; [intros _; now rewrite Hs | intros H; contradiction].
    + split; [intros H; contradiction |]. intros _. rewrite Hs. simpl. eauto.
Qed.

Lemma X16_options_failure_witness :
  (has_column Tables.regions "Region" = false ->
   multiselect_opts Tables.regions "Region" = ok None) /\
  (has_column Tables.regions "Region" = true ->
   exists series,
     getitem Tables.regions "Region" = ok series /\
     (mixed series -> multiselect_opts Tables.regions "Region" = inl type_error) /\
     (~ mixed series ->
      exists opts, multiselect_opts Tables.regions "Region" = ok (Some opts))).
Proof. apply (X16_options_failure Tables.regions "Region"). Defined.

(** X17: what the options of a widget are. When they are made, every
    option is a cell of the column that is not missing, every cell of the
    column that is not missing is among them, no value is offered twice,
    and they are in ascending order. *)
Theorem X17_options_content (df : DataFrame) (col : string) (opts : list Cell) :
  multiselect_opts df col = ok (Some opts) ->
  exists series,
    getitem df col = ok series /\
    (forall o, o ∈ opts -> o ∈ series /\ notna o = true) /\
    (forall c, c ∈ series -> notna c = true -> isin_cell opts c = true) /\
    distinct opts /\
    ascending opts.
Proof.
  unfold multiselect_opts. destruct (has_column df col) eqn:Hc; simpl; [| discriminate].
  rewrite (getitem_present df col Hc), rbind_ok.
  set (series := map (fun r => row_get r col) (rows df)).
  destruct (sorted_unique_dropna series) as [[_ Hs] | [_ (opts' & Hs & Hp & Ha)]];
    rewrite Hs; simpl; [discriminate |].
  intros [= <-]. exists series. split; [reflexivity |].
  destruct (unique_dropna_spec series) as (H1 & H2 & H3).
  split; [| split; [| split]].
  - intros o Ho. apply H1. now rewrite <- Hp.
  - intros c Hc' Hn. rewrite (isin_cell_perm _ _ c Hp). now apply H2.
  - apply (distinct_perm (unique (dropna series))); [now symmetry | exact H3].
  - exact Ha.
Qed.

Lemma X17_options_content_witness :
  exists series,
    getitem Tables.regions "Region" = ok series /\
    (forall o, o ∈ [CStr "Africa"; CStr "Asia"] -> o ∈ series /\ notna o = true) /\
    (forall c, c ∈ series -> notna c = true ->
       isin_cell [CStr "Africa"; CStr "Asia"] c = true) /\
    distinct [CStr "Africa"; CStr "Asia"] /\
    ascending [CStr "Africa"; CStr "Asia"].
Proof.
  apply (X17_options_content Tables.regions "Region" [CStr "Africa"; CStr "Asia"]).
  reflexivity.
Defined.

Lemma pick_only ui_label values col label df r :
  (col, label) ∈ categorical -> ui_label = label ->
  has_column df col = true -> values <> [] ->
  passes_categorical (Tables.pick ui_label values "") df r
    = isin_cell values (row_get r col).
Proof.
  intros Hin -> Hcol Hne.
  assert (Hn : nonempty values = true) by (destruct values; [contradiction | reflexivity]).
  unfold categorical in Hin. rewrite !elem_of_cons, elem_of_nil in Hin.
  unfold passes_categorical, categorical, forallb, passes_one, active, Tables.pick.
  repeat (destruct Hin as [[= -> ->] | Hin];
          [ cbn [fst snd multiselect_value String.eqb Ascii.eqb Bool.eqb];
            rewrite Hcol, Hn; cbn [nonempty andb orb negb];
            now rewrite ?andb_false_r, ?andb_true_r | ]).
  contradiction.
Qed.

(** X18: an option offered always selects something. When the options
    of all the widgets can be made (no categorical column holds both a
    text and a number) and one option of one widget alone is selected,
    with nothing else selected or typed, [apply_filters] returns a table
    that is not empty and whose records all have that value in the
    column. *)
Theorem X18_option_selects_records (L : Libs) (df : DataFrame) (col label : string)
  (opts : list Cell) (o : Cell) :
  (col, label) ∈ categorical ->
  options_sortable df = true ->
  multiselect_opts df col = ok (Some opts) ->
  o ∈ opts ->
  exists out,
    apply_filters L (Tables.pick label [o] "") df = ok out /\
    rows out <> [] /\
    (forall r, r ∈ rows out -> cell_eqb (row_get r col) o = true).
Proof.
  intros Hin Hs Hopts Ho.
  destruct (options_are_cells df col opts Hopts) as (Hcol & Hmem).
  destruct (Hmem o Ho) as (r0 & Hr0 & Hcell).
  rewrite apply_filters_spec, Hs. unfold text_active, title_query; simpl.
  rewrite andb_false_r. eexists. split; [reflexivity |].
  assert (Hp : forall r,
            passes_categorical (Tables.pick label [o] "") df r
              = isin_cell [o] (row_get r col)).
  { intros r. now apply (pick_only label [o] col label). }
  split.
  - intros Hnil.
    assert (Hr : r0 ∈ rows (keep_rows (passes_categorical (Tables.pick label [o] "") df) df)).
    { apply elem_of_keep_rows. split; [exact Hr0 |]. rewrite Hp, Hcell.
      unfold isin_cell; simpl. now rewrite cell_eqb_refl. }
    rewrite Hnil in Hr. now apply elem_of_nil in Hr.
  - intros r Hr. apply elem_of_keep_rows in Hr as [_ Hr]. rewrite Hp in Hr.
    unfold isin_cell in Hr; simpl in Hr. now rewrite orb_false_r in Hr.
Qed.

Lemma X18_option_selects_records_witness :
  exists out,
    apply_filters Sample.libs (Tables.pick "Region" [CStr "Asia"] "") Tables.regions
      = ok out /\
    rows out <> [] /\
    (forall r, r ∈ rows out -> cell_eqb (row_get r "Region") (CStr "Asia") = true).
Proof.
  apply (X18_option_selects_records Sample.libs Tables.regions "Region" "Region"
           [CStr "Africa"; CStr "Asia"] (CStr "Asia")).
  - left.
  - reflexivity.
  - reflexivity.
  - right. left.
Defined.

(** X19: the column names of the loaded table. [load_data] fails as the
    reading of the sheet fails, and with [AttributeError] when a label of
    the sheet is not a text (a year, say), since such a label cannot be
    stripped. When every label is a text, they are ASCII and no two are
    the same once stripped, it returns a table whose column names are the
    labels without the surrounding white space, in order. The renaming of
    " Reductions (ktCO2e/yr)" never takes place: once the names are
    stripped no name starts with a space, and a header written with the
    space is already named "Reductions (ktCO2e/yr)". *)
Theorem X19_load_data_columns (read_excel : string -> Result Sheet)
  (to_datetime : list Cell -> list Cell) (path : string) :
  load_data read_excel to_datetime path = read_and_clean read_excel to_datetime path /\
  (forall e, read_excel path = inl e -> load_data read_excel to_datetime path = inl e) /\
  (forall sheet l, read_excel path = ok sheet ->
     l ∈ labels sheet -> is_text l = false ->
     load_data read_excel to_datetime path = raise attribute_error) /\
  (forall sheet names, read_excel path = ok sheet ->
     labels sheet = map CStr names ->
     Forall (fun n => Py.isascii n = true) names ->
     NoDup (map Py.strip names) ->
     exists df,
       load_data read_excel to_datetime path = ok df /\
       columns df = map Py.strip names /\
       (forall c, c ∈ columns df -> Py.strip c = c) /\
       has_column df " Reductions (ktCO2e/yr)" = false).
Proof.
  split; [apply load_data_no_rename |]. rewrite load_data_no_rename.
  unfold read_and_clean. split; [| split].
  - now intros e ->.
  - intros sheet l -> Hl Tl. rewrite rbind_ok.
    now rewrite (strip_labels_not_text _ l Hl Tl).
  - intros sheet names -> Hlab _ _. rewrite rbind_ok, Hlab, strip_labels_texts, rbind_ok.
    cbv zeta.
    destruct (for_each_parse_columns to_datetime date_columns
                (with_columns sheet (map Py.strip names))) as (d & Hd & Hcols).
    exists d. split; [exact Hd |]. simpl in Hcols. split; [exact Hcols |]. split.
    + intros c Hc. rewrite Hcols in Hc. now apply stripped_names_no_padding in Hc.
    + unfold has_column. rewrite Hcols. apply bool_decide_false.
      intros Hin. apply stripped_names_no_padding in Hin. discriminate Hin.
Qed.

Lemma X19_load_data_columns_witness :
  (exists df,
     load_data SampleSheet.read_excel SampleSheet.to_datetime DATA_PATH = ok df /\
     columns df = map Py.strip ["Host country "; " Reductions (ktCO2e/yr)"; "Approval Date"] /\
     (forall c, c ∈ columns df -> Py.strip c = c) /\
     has_column df " Reductions (ktCO2e/yr)" = false) /\
  load_data SampleSheet.read_excel SampleSheet.to_datetime "years.xlsx"
    = raise attribute_error.
Proof.
  split.
  - apply (proj2 (proj2 (proj2
             (X19_load_data_columns SampleSheet.read_excel SampleSheet.to_datetime
                DATA_PATH))) SampleSheet.sheet).
    + reflexivity.
    + reflexivity.
    + repeat constructor.
    + vm_compute. repeat (apply NoDup_cons; split); try apply NoDup_nil;
        rewrite ?elem_of_cons, ?elem_of_nil; intuition discriminate.
  - apply (proj1 (proj2 (proj2
             (X19_load_data_columns SampleSheet.read_excel SampleSheet.to_datetime
                "years.xlsx"))) SampleSheet.year_sheet (CNum 2020)).
    + reflexivity.
    + right. left.
    + reflexivity.
Defined.

(** X20: the cells of the loaded table. With a date parser that gives
    one cell per cell, and a sheet whose labels are ASCII texts no two of
    which are the same once stripped, [load_data] returns a table with as
    many records as the sheet, whose column under each stripped label
    holds the cells the sheet has under the label, as they are, or as the
    date parser turns them when the stripped label is one of the three
    date columns. *)
Theorem X20_load_data_cells (read_excel : string -> Result Sheet)
  (to_datetime : list Cell -> list Cell) (path : string) (sheet : Sheet)
  (names : list string) :
  (forall series, length (to_datetime series) = length series) ->
  read_excel path = ok sheet ->
  labels sheet = map CStr names ->
  Forall (fun n => Py.isascii n = true) names ->
  NoDup (map Py.strip names) ->
  exists df,
    load_data read_excel to_datetime path = ok df /\
    length (rows df) = length (cells sheet) /\
    forall i raw, names !! i = Some raw ->
      column_cells df (Py.strip raw) =
        if bool_decide (Py.strip raw ∈ date_columns)
        then to_datetime (sheet_column sheet i)
        else sheet_column sheet i.
Proof.
  intros Hlen Hread Hlab _ Hnd. rewrite load_data_no_rename.
  unfold read_and_clean. rewrite Hread, rbind_ok, Hlab, strip_labels_texts, rbind_ok.
  cbv zeta.
  set (d0 := with_columns sheet (map Py.strip names)).
  destruct (for_each_parse_cells to_datetime Hlen date_columns d0 date_columns_NoDup)
    as (df & Hdf & Hcols & Hrows & Hcells).
  exists df. split; [exact Hdf |]. split.
  - rewrite Hrows. unfold d0, with_columns; simpl. apply length_map.
  - intros i raw Hraw. rewrite Hcells.
    assert (Hi : map Py.strip names !! i = Some (Py.strip raw)).
    { change (map Py.strip names) with (Py.strip <$> names).
      now rewrite list_lookup_fmap, Hraw. }
    assert (Hhas : has_column d0 (Py.strip raw) = true).
    { unfold has_column, d0, with_columns; simpl. apply bool_decide_true.
      apply list_elem_of_lookup. eauto. }
    rewrite Hhas. simpl andb.
    unfold d0. now rewrite (with_columns_cells sheet _ i _ Hnd Hi).
Qed.

Lemma X20_load_data_cells_witness :
  exists df,
    load_data SampleSheet.read_excel SampleSheet.to_datetime DATA_PATH = ok df /\
    length (rows df) = length (cells SampleSheet.sheet) /\
    forall i raw,
      ["Host country "; " Reductions (ktCO2e/yr)"; "Approval Date"] !! i = Some raw ->
      column_cells df (Py.strip raw) =
        if bool_decide (Py.strip raw ∈ date_columns)
        then SampleSheet.to_datetime (sheet_column SampleSheet.sheet i)
        else sheet_column SampleSheet.sheet i.
Proof.
  apply (X20_load_data_cells SampleSheet.read_excel SampleSheet.to_datetime DATA_PATH
           SampleSheet.sheet
           ["Host country "; " Reductions (ktCO2e/yr)"; "Approval Date"]).
  - intros series. unfold SampleSheet.to_datetime. apply length_map.
  - reflexivity.
  - reflexivity.
  - repeat constructor.
  - vm_compute. repeat (apply NoDup_cons; split); try apply NoDup_nil;
      rewrite ?elem_of_cons, ?elem_of_nil; intuition discriminate.
Defined.

(** X21: the bar chart. Over a sort that puts rows in descending order
    of count, on a table whose labels are texts, as those of an expanded
    table are: the chart has at most [topn] bars, no
    label twice, counts in descending order; the count of a bar is the
    number of expanded records with that label, and is not zero; and a
    label that has records but no bar is left out of a full chart all of
    whose bars count at least as many. *)
Theorem X21_bar_chart (sort_values : list (string * nat) -> list (string * nat))
  (ex : DataFrame) (topn : nat) :
  sort_values_law sort_values ->
  has_column ex "country_clean" = true ->
  (forall r, r ∈ rows ex -> is_text (row_get r "country_clean") = true) ->
  exists counts,
    bar_counts sort_values ex topn = ok counts /\
    (length counts <= topn)%nat /\
    NoDup (map fst counts) /\
    descending counts /\
    (forall label n, (label, n) ∈ counts ->
       n = rows_with ex "country_clean" label /\ (0 < n)%nat) /\
    (forall label, (0 < rows_with ex "country_clean" label)%nat ->
       label ∉ map fst counts ->
       length counts = topn /\
       forall l n, (l, n) ∈ counts -> (rows_with ex "country_clean" label <= n)%nat).
Proof.
  intros Hlaw Hcol _. unfold bar_counts.
  destruct (groupby_size ex "country_clean") as [e|sizes] eqn:Hg.
  { unfold groupby_size in Hg. now rewrite (getitem_present ex _ Hcol) in Hg. }
  rewrite rbind_ok. eexists. split; [reflexivity |].
  destruct (Hlaw (map_to_list sizes)) as [Hperm Hdesc].
  set (sorted_rows := sort_values (map_to_list sizes)) in *.
  assert (Hentry : forall label n, (label, n) ∈ sorted_rows <-> sizes !! label = Some n).
  { intros label n. rewrite Hperm. apply elem_of_map_to_list. }
  split; [rewrite length_take; lia |]. split; [| split; [| split]].
  - change (map fst (take topn sorted_rows)) with (fst <$> take topn sorted_rows).
    rewrite fmap_take. eapply sublist_NoDup; [| apply sublist_take].
    rewrite Hperm. apply NoDup_fst_map_to_list.
  - now apply descending_take.
  - intros label n Hin. apply elem_of_take in Hin as (i & Hin & _).
    apply list_elem_of_lookup_2, Hentry in Hin.
    rewrite (groupby_size_lookup ex _ sizes label Hg) in Hin.
    destruct (Nat.ltb_spec 0 (rows_with ex "country_clean" label)); [| discriminate].
    injection Hin as <-. now split.
  - intros label Hpos Hout.
    assert (Hin : (label, rows_with ex "country_clean" label) ∈ sorted_rows).
    { apply Hentry. rewrite (groupby_size_lookup ex _ sizes label Hg).
      now destruct (Nat.ltb_spec 0 (rows_with ex "country_clean" label)); [| lia]. }
    rewrite <- (take_drop topn sorted_rows) in Hin, Hdesc.
    apply elem_of_app in Hin as [Hin | Hin].
    { exfalso. apply Hout. apply list_elem_of_In, List.in_map_iff.
      exists (label, rows_with ex "country_clean" label).
      split; [reflexivity | now apply list_elem_of_In]. }
    split.
    + rewrite length_take.
      destruct (decide (topn <= length sorted_rows)%nat) as [|Hn]; [lia |].
      rewrite drop_ge in Hin by lia. now apply elem_of_nil in Hin.
    + intros l n Hl.
      apply (descending_split _ _ (l, n) (label, rows_with ex "country_clean" label)
               Hdesc Hl Hin).
Qed.

Lemma X21_bar_chart_witness :
  exists counts,
    bar_counts SampleSort.sort_values (geo_table Sample.libs Tables.regions) 5 = ok counts /\
    (length counts <= 5)%nat /\
    NoDup (map fst counts) /\
    descending counts /\
    (forall label n, (label, n) ∈ counts ->
       n = rows_with (geo_table Sample.libs Tables.regions) "country_clean" label /\
       (0 < n)%nat) /\
    (forall label,
       (0 < rows_with (geo_table Sample.libs Tables.regions) "country_clean" label)%nat ->
       label ∉ map fst counts ->
       length counts = 5%nat /\
       forall l n, (l, n) ∈ counts ->
         (rows_with (geo_table Sample.libs Tables.regions) "country_clean" label <= n)%nat).
Proof.
  apply (X21_bar_chart SampleSort.sort_values (geo_table Sample.libs Tables.regions) 5).
  - exact sample_sort_values_law.
  - reflexivity.
  - intros r Hr. now apply (geo_table_label_text Sample.libs Tables.regions).
Defined.

(** X22: the bar chart and the map count the same records. On a table
    with the host-country column the expanded table can be grouped by
    label and by code; the sizes of the labels add up to the number of
    expanded records, and so do the sizes of the codes. *)
Theorem X22_labels_and_codes_totals (L : Libs) (s : Store) (p : nat) (t : DataFrame) :
  s !! p = Some (Frame t) ->
  has_column t "Host country" = true ->
  exists o1 o2 ex by_label by_code,
    make_exploded_for_geo L p s = inr (S (S (length s)), s ++ [o1; o2; Frame ex]) /\
    groupby_size ex "country_clean" = ok by_label /\
    groupby_size ex "iso3" = ok by_code /\
    total_count by_label = length (rows ex) /\
    total_count by_code = length (rows ex).
Proof.
  intros Hp Hcol.
  destruct (make_exploded_for_geo_run L s p t Hp Hcol) as (o1 & o2 & Hrun).
  destruct (groupby_size_total (geo_table L t) "country_clean") as (m1 & Hm1 & Ht1).
  { unfold has_column, geo_table; simpl.
    rewrite has_column_add, has_column_add_same. reflexivity. }
  { intros r Hr. now apply (geo_table_label_text L t). }
  destruct (groupby_size_total (geo_table L t) "iso3") as (m2 & Hm2 & Ht2).
  { unfold has_column, geo_table; simpl. apply has_column_add_same. }
  { intros r Hr. now apply (geo_table_iso3_text L t). }
  exists o1, o2, (geo_table L t), m1, m2. auto.
Qed.

Lemma X22_labels_and_codes_totals_witness :
  exists o1 o2 ex by_label by_code,
    make_exploded_for_geo Sample.libs 0 [Frame Tables.regions]
      = inr (S (S (length [Frame Tables.regions])),
             [Frame Tables.regions] ++ [o1; o2; Frame ex]) /\
    groupby_size ex "country_clean" = ok by_label /\
    groupby_size ex "iso3" = ok by_code /\
    total_count by_label = length (rows ex) /\
    total_count by_code = length (rows ex).
Proof.
  apply (X22_labels_and_codes_totals Sample.libs [Frame Tables.regions] 0 Tables.regions);
    reflexivity.
Defined.

(** X23: the map is drawn with valid codes only. Over a database whose
    answers are records of its own and which carries the codes of the
    alias table, every record of the expanded table has under "iso3" the
    text of a code that a record of the database carries. *)
Theorem X23_expanded_codes_valid (L : Libs) (s : Store) (p : nat) (t : DataFrame) :
  db_answers_from_records (countries L) ->
  (forall k code3, (k, code3) ∈ SPECIAL_ISO3 -> valid_iso3 (countries L) code3) ->
  s !! p = Some (Frame t) ->
  has_column t "Host country" = true ->
  exists o1 o2 ex,
    make_exploded_for_geo L p s = inr (S (S (length s)), s ++ [o1; o2; Frame ex]) /\
    forall r', r' ∈ rows ex ->
      exists code3, row_get r' "iso3" = CStr code3 /\ valid_iso3 (countries L) code3.
Proof.
  intros Hdb Halias Hp Hcol.
  destruct (make_exploded_for_geo_run L s p t Hp Hcol) as (o1 & o2 & Hrun).
  exists o1, o2, (geo_table L t). split; [exact Hrun |].
  intros r'. unfold geo_table; simpl. rewrite list_elem_of_In, List.in_flat_map.
  intros (r & _ & Hr'). apply list_elem_of_In, elem_of_expand_record in Hr'.
  destruct Hr' as (tok & code3 & _ & Hres & ->).
  exists code3. split.
  - now destruct (tagged_cells r tok code3) as (_ & _ & -> & _).
  - now apply (resolved_code_valid (countries L) tok).
Qed.

Lemma X23_expanded_codes_valid_witness :
  exists o1 o2 ex,
    make_exploded_for_geo Sample.libs 0 [Frame Tables.regions]
      = inr (S (S (length [Frame Tables.regions])),
             [Frame Tables.regions] ++ [o1; o2; Frame ex]) /\
    forall r', r' ∈ rows ex ->
      exists code3, row_get r' "iso3" = CStr code3 /\
                    valid_iso3 (countries Sample.libs) code3.
Proof.
  apply (X23_expanded_codes_valid Sample.libs [Frame Tables.regions] 0 Tables.regions).
  - exact sample_db_answers.
  - exact sample_db_aliases.
  - reflexivity.
  - reflexivity.
Defined.

(** X24: records without a country. [split_countries] drops "multiple"
    and empty pieces only from a text with a semicolon, but the resolver
    drops them in every case: a table each of whose host-country cells is
    missing, or holds no semicolon and is, once stripped and in lower
    case, empty, "multiple" or "nan", has an expanded table without
    records. *)
Theorem X24_placeholder_records (L : Libs) (s : Store) (p : nat) (t : DataFrame) :
  s !! p = Some (Frame t) ->
  has_column t "Host country" = true ->
  (forall r, r ∈ rows t ->
     isna (row_get r "Host country") = true \/
     (Py.has_char ";" (cell_str L (row_get r "Host country")) = false /\
      skipped (Py.strip (cell_str L (row_get r "Host country"))) = true)) ->
  exists o1 o2 ex,
    make_exploded_for_geo L p s = inr (S (S (length s)), s ++ [o1; o2; Frame ex]) /\
    rows ex = [].
Proof.
  intros Hp Hcol Hall.
  destruct (make_exploded_for_geo_run L s p t Hp Hcol) as (o1 & o2 & Hrun).
  exists o1, o2, (geo_table L t). split; [exact Hrun |].
  unfold geo_table; simpl.
  induction (rows t) as [|r l IH]; [reflexivity |]. simpl.
  rewrite IH by (intros r' Hr'; apply Hall; now right).
  rewrite app_nil_r, expand_record_tokens. unfold split_countries.
  destruct (Hall r ltac:(left)) as [-> | [Hsemi Hskip]]; [reflexivity |].
  destruct (isna (row_get r "Host country")); [reflexivity |].
  rewrite Hsemi. unfold tag_resolved; simpl.
  rewrite resolve_skipped; [reflexivity | now rewrite !strip_idem].
Qed.

Lemma X24_placeholder_records_witness :
  exists o1 o2 ex,
    make_exploded_for_geo Sample.libs 0 [Frame no_country_table]
      = inr (S (S (length [Frame no_country_table])),
             [Frame no_country_table] ++ [o1; o2; Frame ex]) /\
    rows ex = [].
Proof.
  apply (X24_placeholder_records Sample.libs [Frame no_country_table] 0 no_country_table).
  - reflexivity.
  - reflexivity.
  - intros r Hr. unfold no_country_table in Hr. cbn [rows] in Hr.
    rewrite !elem_of_cons, elem_of_nil in Hr.
    destruct Hr as [-> | [-> | []]]; [right; split; reflexivity | left; reflexivity].
Defined.
